(** * pmash: auditing the prerequisites of a command through access times

    A shallow embedding of [pmash.c].  The program forces the access time of
    every watched file behind its modification time, runs a command, walks the
    watched trees again and lists the files whose access time moved while
    their modification time did not.

    Layout of the development:
    - C data ([long], [struct timespec], [struct stat], [pathentry_s]);
    - the libc collaborators the program relies on ([strcmp], [strstr],
      [printf] conversions, the [tsearch] family);
    - the classifier [post_walk];
    - the process state, the exit monad and the system calls;
    - [getopt_long], with the option table of the program;
    - the walkers, the timestamp probe and [main];
    - the properties. *)

From Stdlib Require Import ZArith List String Ascii Bool Lia.
From Stdlib Require Import Permutation Sorted DecimalString.
Import ListNotations.

Local Open Scope string_scope.
Local Open Scope Z_scope.

(** ** C data *)

(** [long] is 64 bits wide on the targets of the program.  Signed overflow is
    undefined in C; the model wraps, as two's-complement machines do. *)
Definition LONG_MIN : Z := - 2 ^ 63.
Definition LONG_MAX : Z := 2 ^ 63 - 1.

Definition wrap_long (z : Z) : Z := (z + 2 ^ 63) mod 2 ^ 64 - 2 ^ 63.

Definition EXIT_SUCCESS : Z := 0.
Definition EXIT_FAILURE : Z := 1.

(** [UTIME_OMIT] in the [tv_nsec] field asks [futimens]/[utimensat] to leave
    the corresponding timestamp alone; [UTIME_NOW] asks for the current time. *)
Definition UTIME_NOW : Z := 2 ^ 30 - 1.
Definition UTIME_OMIT : Z := 2 ^ 30 - 2.

Definition NOPENFD : Z := 20.

Record timespec : Type := mkTimespec { tv_sec : Z; tv_nsec : Z }.

(** [struct stat], reduced to the fields the program reads.  [st_atime] and
    [st_mtime] are the usual macros for the seconds of [st_atim], [st_mtim]. *)
Record stat : Type := mkStat {
  st_atim : timespec;
  st_mtim : timespec;
  st_size : Z
}.

Definition st_atime (sb : stat) : Z := tv_sec (st_atim sb).
Definition st_mtime (sb : stat) : Z := tv_sec (st_mtim sb).

(** [pathentry_s]: the two-element arrays [times1] and [times2] are pairs,
    index 0 being the access time and index 1 the modification time. *)
Record pathentry_s : Type := mkPathentry {
  path : string;
  times1 : timespec * timespec;
  times2 : timespec * timespec
}.

(** [calloc] hands out zeroed storage. *)
Definition zero_timespec : timespec := mkTimespec 0 0.

Definition calloc_pathentry : pathentry_s :=
  mkPathentry EmptyString (zero_timespec, zero_timespec) (zero_timespec, zero_timespec).

Definition set_path (s : string) (p : pathentry_s) : pathentry_s :=
  mkPathentry s (times1 p) (times2 p).

Definition set_times1 (t : timespec * timespec) (p : pathentry_s) : pathentry_s :=
  mkPathentry (path p) t (times2 p).

Definition set_times2 (t : timespec * timespec) (p : pathentry_s) : pathentry_s :=
  mkPathentry (path p) (times1 p) t.

Definition set_sec (z : Z) (t : timespec) : timespec := mkTimespec z (tv_nsec t).
Definition set_nsec (z : Z) (t : timespec) : timespec := mkTimespec (tv_sec t) z.

(** ** libc: strings *)

Definition uchar (c : ascii) : Z := Z.of_N (N_of_ascii c).

(** [strcmp]: difference of the first pair of bytes that differ, read as
    [unsigned char]; the end of a string reads as the terminating NUL, and
    the comparison stops at a NUL. *)
Fixpoint strcmp (a b : string) : Z :=
  match a, b with
  | EmptyString, EmptyString => 0
  | EmptyString, String c _ => 0 - uchar c
  | String c _, EmptyString => uchar c
  | String c1 a', String c2 b' =>
      if uchar c1 =? uchar c2
      then (if uchar c1 =? 0 then 0 else strcmp a' b')
      else uchar c1 - uchar c2
  end.

Fixpoint is_prefix (n h : string) : bool :=
  match n, h with
  | EmptyString, _ => true
  | String _ _, EmptyString => false
  | String c n', String d h' => Ascii.eqb c d && is_prefix n' h'
  end.

(** [strstr haystack needle], as the truth value of its result. *)
Fixpoint strstr (haystack needle : string) : bool :=
  is_prefix needle haystack ||
  match haystack with
  | EmptyString => false
  | String _ h' => strstr h' needle
  end.

(** [strrchr s c], returning the suffix that starts at the last [c]. *)
Fixpoint strrchr (s : string) (c : ascii) : option string :=
  match s with
  | EmptyString => None
  | String d s' =>
      match strrchr s' c with
      | Some r => Some r
      | None => if Ascii.eqb d c then Some s else None
      end
  end.

(** The successive tokens [strtok] returns for one delimiter byte: the
    maximal runs of other bytes, empty runs being skipped. *)
Fixpoint strtok_from (cur : string) (s : string) (delim : ascii) : list string :=
  match s with
  | EmptyString => if (String.length cur =? 0)%nat then [] else [cur]
  | String c s' =>
      if Ascii.eqb c delim
      then (if (String.length cur =? 0)%nat then strtok_from EmptyString s' delim
            else cur :: strtok_from EmptyString s' delim)
      else strtok_from (cur ++ String c EmptyString) s' delim
  end.

Definition strtok_all (s : string) (delim : ascii) : list string :=
  strtok_from EmptyString s delim.

(** ** libc: the [printf] conversions the program uses *)

Definition digits (n : N) : string := NilZero.string_of_uint (N.to_uint n).

Fixpoint repeat_char (c : ascii) (n : nat) : string :=
  match n with
  | O => EmptyString
  | S n' => String c (repeat_char c n')
  end.

Definition zero_pad (width : nat) (s : string) : string :=
  repeat_char "0" (width - String.length s)%nat ++ s.

(** ["%ld"] *)
Definition fmt_ld (z : Z) : string :=
  if z <? 0 then "-" ++ digits (Z.to_N (- z)) else digits (Z.to_N z).

(** ["%0<width>ld"]: the sign counts in the width, zeros follow it. *)
Definition fmt_0ld (width : nat) (z : Z) : string :=
  if z <? 0 then "-" ++ zero_pad (width - 1)%nat (digits (Z.to_N (- z)))
  else zero_pad width (digits (Z.to_N z)).

(** ["%-<width>s"] *)
Definition fmt_left (width : nat) (s : string) : string :=
  s ++ repeat_char " " (width - String.length s)%nat.

Definition fmt_time (t : timespec) : string :=
  fmt_0ld 10 (tv_sec t) ++ "." ++ fmt_0ld 9 (tv_nsec t).

(** The format [TMFMT] applied to the four timestamps of an entry. *)
Definition TMFMT (a1 m1 a2 m2 : timespec) : string :=
  "a1=" ++ fmt_time a1 ++ " m1=" ++ fmt_time m1 ++
  " a2=" ++ fmt_time a2 ++ " m2=" ++ fmt_time m2.

(** ** libc: the [tsearch] family

    POSIX leaves the shape of the tree to the implementation.  The model is
    the plain binary search tree; everything proved about [twalk] below holds
    for every tree that satisfies the search-tree invariant [bst], so it does
    not depend on how an implementation balances. *)

Inductive VISIT : Type := preorder | postorder | endorder | leaf.

Definition VISIT_eqb (a b : VISIT) : bool :=
  match a, b with
  | preorder, preorder | postorder, postorder
  | endorder, endorder | leaf, leaf => true
  | _, _ => false
  end.

Section Tsearch.

Variable A : Type.
Variable compar : A -> A -> Z.

Inductive tree : Type :=
| TNil
| TNode (l : tree) (item : A) (r : tree).

(** [tfind]: the stored item that compares equal to [key], if any. *)
Fixpoint tfind (key : A) (rootp : tree) : option A :=
  match rootp with
  | TNil => None
  | TNode l item r =>
      let c := compar key item in
      if c =? 0 then Some item
      else if c <? 0 then tfind key l
      else tfind key r
  end.

(** [tsearch]: like [tfind], but a key that is not found is added.  Returns
    the item now in the tree for that key (the old one when there was one)
    and the updated root.  Memory is assumed not to run out, so the result
    is never the null pointer. *)
Fixpoint tsearch (key : A) (rootp : tree) : A * tree :=
  match rootp with
  | TNil => (key, TNode TNil key TNil)
  | TNode l item r =>
      let c := compar key item in
      if c =? 0 then (item, rootp)
      else if c <? 0 then
        let '(found, l') := tsearch key l in (found, TNode l' item r)
      else
        let '(found, r') := tsearch key r in (found, TNode l item r')
  end.

(** [twalk]: depth-first, left-to-right.  A node without children is
    visited once, as [leaf]; any other node three times: before its left
    subtree ([preorder]), between the subtrees ([postorder]) and after the
    right one ([endorder]).  The action threads a state of type [S]. *)
Fixpoint twalk_from (S : Type) (action : A -> VISIT -> Z -> S -> S)
    (depth : Z) (root : tree) (s : S) : S :=
  match root with
  | TNil => s
  | TNode TNil item TNil => action item leaf depth s
  | TNode l item r =>
      let s1 := action item preorder depth s in
      let s2 := twalk_from S action (depth + 1) l s1 in
      let s3 := action item postorder depth s2 in
      let s4 := twalk_from S action (depth + 1) r s3 in
      action item endorder depth s4
  end.

Definition twalk (S : Type) (root : tree) (action : A -> VISIT -> Z -> S -> S)
    (s : S) : S :=
  twalk_from S action 0 root s.

(** The items of a tree, left to right. *)
Fixpoint elements (t : tree) : list A :=
  match t with
  | TNil => []
  | TNode l item r => (elements l ++ item :: elements r)%list
  end.

(** The search-tree invariant. *)
Fixpoint bst (t : tree) : Prop :=
  match t with
  | TNil => True
  | TNode l item r =>
      bst l /\ bst r /\
      Forall (fun x => compar x item < 0) (elements l) /\
      Forall (fun y => compar item y < 0) (elements r)
  end.

(** The tree that results from a sequence of [tsearch] calls. *)
Definition tsearch_all (keys : list A) (rootp : tree) : tree :=
  fold_left (fun t k => snd (tsearch k t)) keys rootp.

End Tsearch.

Arguments TNil {A}.
Arguments TNode {A} l item r.
Arguments tfind {A} compar key rootp.
Arguments tsearch {A} compar key rootp.
Arguments twalk_from {A S} action depth root s.
Arguments twalk {A S} root action s.
Arguments elements {A} t.
Arguments bst {A} compar t.
Arguments tsearch_all {A} compar keys rootp.

(** ** The comparison function of the program *)

Definition pathcmp (pa pb : pathentry_s) : Z := strcmp (path pa) (path pb).

(** ** The file system and the process state *)

Record file : Type := mkFile {
  f_data : string;
  f_atim : timespec;
  f_mtim : timespec
}.

(** The files reachable by name.  A name is looked up as it is spelled. *)
Definition filesys : Type := string -> option file.

Definition fs_set (name : string) (f : file) (fs : filesys) : filesys :=
  fun n => if String.eqb n name then Some f else fs n.

Definition fs_remove (name : string) (fs : filesys) : filesys :=
  fun n => if String.eqb n name then None else fs n.

Definition stat_of (f : file) : stat :=
  mkStat (f_atim f) (f_mtim f) (Z.of_nat (String.length (f_data f))).

(** How the mount treats the access time when a file is read. *)
Inductive atime_mode : Type := strictatime | relatime | noatime.

Definition ts_ltb (a b : timespec) : bool :=
  (tv_sec a <? tv_sec b) || ((tv_sec a =? tv_sec b) && (tv_nsec a <? tv_nsec b)).

Definition atime_after_read (mode : atime_mode) (now : timespec) (f : file)
  : timespec :=
  match mode with
  | strictatime => now
  | relatime =>
      if ts_ltb (f_mtim f) (f_atim f) && (tv_sec now - tv_sec (f_atim f) <? 86400)
      then f_atim f else now
  | noatime => f_atim f
  end.

(** The stream [fp] points to. *)
Inductive stream : Type :=
| NoStream
| Stdout
| OutFile (name : string).

(** What [nftw] hands to its callback. *)
Inductive ftw_flag : Type := FTW_F | FTW_D | FTW_DNR | FTW_NS | FTW_SL.

Definition ftw_flag_eqb (a b : ftw_flag) : bool :=
  match a, b with
  | FTW_F, FTW_F | FTW_D, FTW_D | FTW_DNR, FTW_DNR
  | FTW_NS, FTW_NS | FTW_SL, FTW_SL => true
  | _, _ => false
  end.

Record ftw_entry : Type := mkFtw {
  ftw_fpath : string;
  ftw_sb : stat;
  ftw_tflag : ftw_flag
}.

(** What the process asked of the system, in order; kept as a record of
    the run, the program never reads it. *)
Inductive event : Type :=
| EvOpen (name : string) (ok : bool)
| EvCreate (name : string) (ok : bool)
| EvWrite (name : string) (buf : string) (ok : bool)
| EvStat (name : string) (r : option stat)
| EvUtimens (name : string) (times : timespec * timespec) (ok : bool)
| EvClose (name : string) (ok : bool)
| EvRead (name : string) (ok : bool)
| EvUnlink (name : string) (ok : bool)
| EvFopen (name : string) (ok : bool)
| EvNftw (dir : string) (ok : bool)
| EvSystem (command : string) (status : Z).

(** The state of the process and of its surroundings.  The first group is
    the environment; [w_faults] says, for each system call to come, whether
    it fails for a reason outside the model (a call past the end of the list
    does not), and [w_trace] lists the calls made so far.  The second group
    holds the file-scope variables of the program, under their names. *)
Record world : Type := mkWorld {
  w_fs : filesys;
  w_now : timespec;
  w_mount : atime_mode;
  w_faults : list bool;
  w_pid : Z;
  w_pmash_verbosity : option string;
  w_strerror : string;
  w_stdout : string;
  w_stderr : string;
  w_trace : list event;
  prog : string;
  tree1 : tree pathentry_s;
  tree2 : tree pathentry_s;
  fp : stream;
  fp_buf : string;
  verbosity : Z
}.

Definition set_fs (x : filesys) (w : world) : world :=
  mkWorld x (w_now w) (w_mount w) (w_faults w) (w_pid w) (w_pmash_verbosity w)
    (w_strerror w) (w_stdout w) (w_stderr w) (w_trace w) (prog w) (tree1 w)
    (tree2 w) (fp w) (fp_buf w) (verbosity w).

Definition set_now (x : timespec) (w : world) : world :=
  mkWorld (w_fs w) x (w_mount w) (w_faults w) (w_pid w) (w_pmash_verbosity w)
    (w_strerror w) (w_stdout w) (w_stderr w) (w_trace w) (prog w) (tree1 w)
    (tree2 w) (fp w) (fp_buf w) (verbosity w).

Definition set_faults (x : list bool) (w : world) : world :=
  mkWorld (w_fs w) (w_now w) (w_mount w) x (w_pid w) (w_pmash_verbosity w)
    (w_strerror w) (w_stdout w) (w_stderr w) (w_trace w) (prog w) (tree1 w)
    (tree2 w) (fp w) (fp_buf w) (verbosity w).

Definition set_stdout (x : string) (w : world) : world :=
  mkWorld (w_fs w) (w_now w) (w_mount w) (w_faults w) (w_pid w)
    (w_pmash_verbosity w) (w_strerror w) x (w_stderr w) (w_trace w) (prog w)
    (tree1 w) (tree2 w) (fp w) (fp_buf w) (verbosity w).

Definition set_stderr (x : string) (w : world) : world :=
  mkWorld (w_fs w) (w_now w) (w_mount w) (w_faults w) (w_pid w)
    (w_pmash_verbosity w) (w_strerror w) (w_stdout w) x (w_trace w) (prog w)
    (tree1 w) (tree2 w) (fp w) (fp_buf w) (verbosity w).

Definition set_trace (x : list event) (w : world) : world :=
  mkWorld (w_fs w) (w_now w) (w_mount w) (w_faults w) (w_pid w)
    (w_pmash_verbosity w) (w_strerror w) (w_stdout w) (w_stderr w) x (prog w)
    (tree1 w) (tree2 w) (fp w) (fp_buf w) (verbosity w).

Definition set_prog (x : string) (w : world) : world :=
  mkWorld (w_fs w) (w_now w) (w_mount w) (w_faults w) (w_pid w)
    (w_pmash_verbosity w) (w_strerror w) (w_stdout w) (w_stderr w) (w_trace w)
    x (tree1 w) (tree2 w) (fp w) (fp_buf w) (verbosity w).

Definition set_tree1 (x : tree pathentry_s) (w : world) : world :=
  mkWorld (w_fs w) (w_now w) (w_mount w) (w_faults w) (w_pid w)
    (w_pmash_verbosity w) (w_strerror w) (w_stdout w) (w_stderr w) (w_trace w)
    (prog w) x (tree2 w) (fp w) (fp_buf w) (verbosity w).

Definition set_tree2 (x : tree pathentry_s) (w : world) : world :=
  mkWorld (w_fs w) (w_now w) (w_mount w) (w_faults w) (w_pid w)
    (w_pmash_verbosity w) (w_strerror w) (w_stdout w) (w_stderr w) (w_trace w)
    (prog w) (tree1 w) x (fp w) (fp_buf w) (verbosity w).

Definition set_fp (x : stream) (w : world) : world :=
  mkWorld (w_fs w) (w_now w) (w_mount w) (w_faults w) (w_pid w)
    (w_pmash_verbosity w) (w_strerror w) (w_stdout w) (w_stderr w) (w_trace w)
    (prog w) (tree1 w) (tree2 w) x (fp_buf w) (verbosity w).

Definition set_fp_buf (x : string) (w : world) : world :=
  mkWorld (w_fs w) (w_now w) (w_mount w) (w_faults w) (w_pid w)
    (w_pmash_verbosity w) (w_strerror w) (w_stdout w) (w_stderr w) (w_trace w)
    (prog w) (tree1 w) (tree2 w) (fp w) x (verbosity w).

Definition set_verbosity (x : Z) (w : world) : world :=
  mkWorld (w_fs w) (w_now w) (w_mount w) (w_faults w) (w_pid w)
    (w_pmash_verbosity w) (w_strerror w) (w_stdout w) (w_stderr w) (w_trace w)
    (prog w) (tree1 w) (tree2 w) (fp w) (fp_buf w) x.

Definition log (e : event) (w : world) : world :=
  set_trace (w_trace w ++ [e])%list w.

(** ** The classifier: [post_walk] *)

(** Writing to a stream.  [stdout] is written through; the output file is
    buffered until it is closed or the process exits. *)
Definition fputs_to (s : string) (to : stream) (w : world) : world :=
  match to with
  | NoStream => w
  | Stdout => set_stdout (w_stdout w ++ s) w
  | OutFile _ => set_fp_buf (fp_buf w ++ s) w
  end.

Definition fputs (s : string) (w : world) : world := fputs_to s (fp w) w.

Definition fputs_stderr (s : string) (w : world) : world :=
  set_stderr (w_stderr w ++ s) w.

Definition newline : string := String (ascii_of_nat 10) EmptyString.

Definition dquote : string := String (ascii_of_nat 34) EmptyString.

Definition entry_times (p : pathentry_s) : string :=
  TMFMT (fst (times1 p)) (snd (times1 p)) (fst (times2 p)) (snd (times2 p)).

(** The value the if-chain of [post_walk] leaves in its local [prereq]. *)
Definition prereq_of (p : pathentry_s) : Z :=
  let prereq := 0 in
  if tv_sec (snd (times2 p)) >? tv_sec (snd (times1 p)) then prereq
  else if (tv_sec (snd (times2 p)) =? tv_sec (snd (times1 p))) &&
          (tv_nsec (snd (times2 p)) >? tv_nsec (snd (times1 p))) then prereq
  else if tv_sec (fst (times2 p)) <=? tv_sec (fst (times1 p)) then prereq
  else if (tv_sec (fst (times2 p)) =? tv_sec (fst (times1 p))) &&
          (tv_nsec (fst (times2 p)) <=? tv_nsec (fst (times1 p))) then prereq
  else 1.

Definition post_walk (p : pathentry_s) (which : VISIT) (depth : Z) (w : world)
  : world :=
  if VISIT_eqb which postorder || VISIT_eqb which leaf then
    let prereq := prereq_of p in
    if negb (prereq =? 0) then
      let w := fputs (path p) w in
      let w :=
        if negb (verbosity w =? 0)
        then fputs (" # " ++ entry_times p) w
        else w in
      fputs newline w
    else if negb (verbosity w =? 0) then
      fputs ("## " ++ fmt_left 24 (path p) ++ ": " ++ entry_times p ++ newline) w
    else w
  else w.

(** ** The exit monad *)

(** The places where the program calls [exit]. *)
Inductive exit_site : Type := AtUsage | AtDie | AtInsist | AtMain.

Inductive result (A : Type) : Type :=
| Ret (a : A) (w : world)
| Exit (site : exit_site) (status : Z) (w : world).

Arguments Ret {A} a w.
Arguments Exit {A} site status w.

Definition M (A : Type) : Type := world -> result A.

Definition ret {A : Type} (a : A) : M A := fun w => Ret a w.

Definition bind {A B : Type} (c : M A) (k : A -> M B) : M B :=
  fun w =>
    match c w with
    | Ret a w' => k a w'
    | Exit site status w' => Exit site status w'
    end.

Notation "x <- c1 ;; c2" := (bind c1 (fun x => c2))
  (at level 61, c1 at next level, right associativity).
Notation "c1 ;; c2" := (bind c1 (fun _ => c2))
  (at level 61, right associativity).

Definition modify (f : world -> world) : M unit := fun w => Ret tt (f w).

Definition gets {A : Type} (f : world -> A) : M A := fun w => Ret (f w) w.

Fixpoint for_each {A : Type} (l : list A) (body : A -> M unit) : M unit :=
  match l with
  | [] => ret tt
  | x :: l' => body x ;; for_each l' body
  end.

(** Bytes of [buf] laid over the start of [old]: what a write at offset 0
    leaves in a file. *)
Fixpoint string_skip (n : nat) (s : string) : string :=
  match n, s with
  | O, _ => s
  | S _, EmptyString => EmptyString
  | S n', String _ s' => string_skip n' s'
  end.

Definition overlay (buf old : string) : string :=
  buf ++ string_skip (String.length buf) old.

(** Flushing the buffer of [fp].  The file may have gone in the meantime;
    the bytes are then lost with it. *)
Definition fflush_fp (w : world) : world :=
  match fp w with
  | OutFile name =>
      match w_fs w name with
      | Some f =>
          if (String.length (fp_buf w) =? 0)%nat then w
          else
            set_fp_buf EmptyString
              (set_fs (fs_set name
                         (mkFile (overlay (fp_buf w) (f_data f)) (f_atim f)
                                 (w_now w))
                         (w_fs w)) w)
      | None => set_fp_buf EmptyString w
      end
  | _ => w
  end.

(** [exit]: open streams are flushed, then the process ends. *)
Definition c_exit {A : Type} (site : exit_site) (status : Z) : M A :=
  fun w => Exit site status (fflush_fp w).

Definition die {A : Type} (msg : string) : M A :=
  modify (fun w => fputs_stderr (prog w ++ ": Error: " ++ msg ++ newline) w) ;;
  c_exit AtDie EXIT_FAILURE.

Definition insist (success : bool) (term : string) : M unit :=
  if negb success then
    modify (fun w =>
      fputs_stderr
        (prog w ++ ": Error: " ++ term ++ ": " ++ w_strerror w ++ newline) w) ;;
    c_exit AtInsist EXIT_FAILURE
  else ret tt.

Definition is_some {A : Type} (o : option A) : bool :=
  match o with Some _ => true | None => false end.

Definition usage {A : Type} (rc : Z) : M A :=
  let out s w :=
    if rc =? EXIT_SUCCESS then fputs_to s Stdout w else fputs_stderr s w in
  let line a b := "   " ++ fmt_left 18 a ++ " " ++ b ++ newline in
  modify (fun w =>
    out ("Usage: " ++ prog w ++
         " -c <cmd> [-o <outfile>] [-w dir[,dir,...]]" ++ newline) w) ;;
  modify (out (line "-h/--help" "Print this usage summary")) ;;
  modify (out (line "-c/--command" "Command to invoke")) ;;
  modify (out (line "-e/--errexit" "Exit on first error")) ;;
  modify (out (line "-o/--outfile" "File path to save prereq list")) ;;
  modify (out (line "-V/--verbose" "Bump verbosity mode")) ;;
  modify (out (line "-w/--watch" "Directories to monitor")) ;;
  c_exit AtUsage rc.

(** ** System calls

    A descriptor is identified with the name it was opened on.  Each call
    first consumes one entry of [w_faults]; a call that fails changes
    nothing else. *)

Definition fd : Type := string.

Definition fault_now (w : world) : bool :=
  match w_faults w with
  | true :: _ => true
  | _ => false
  end.

Definition tick (w : world) : world := set_faults (tl (w_faults w)) w.

Definition syscall {A : Type} (failure : A) (body : world -> A * world)
    (ev : A -> event) : M A :=
  fun w =>
    let '(a, w') := if fault_now w then (failure, tick w) else body (tick w) in
    Ret a (log (ev a) w').

(** [open(name, O_RDONLY)] *)
Definition sys_open_rdonly (name : string) : M (option fd) :=
  syscall None (fun w =>
    match w_fs w name with
    | Some _ => (Some name, w)
    | None => (None, w)
    end) (fun r => EvOpen name (is_some r)).

(** [open(name, O_CREAT|O_WRONLY|O_EXCL, 0644)] *)
Definition sys_open_excl (name : string) : M (option fd) :=
  syscall None (fun w =>
    match w_fs w name with
    | Some _ => (None, w)
    | None =>
        (Some name,
         set_fs (fs_set name (mkFile EmptyString (w_now w) (w_now w)) (w_fs w)) w)
    end) (fun r => EvCreate name (is_some r)).

Definition sys_write (d : fd) (buf : string) : M Z :=
  syscall (-1) (fun w =>
    match w_fs w d with
    | Some f =>
        (Z.of_nat (String.length buf),
         set_fs (fs_set d (mkFile (f_data f ++ buf) (f_atim f) (w_now w))
                   (w_fs w)) w)
    | None => (-1, w)
    end) (fun r => EvWrite d buf (negb (r =? -1))).

(** [stat] and [fstat]: the buffer they fill, when they succeed. *)
Definition sys_stat (name : string) : M (option stat) :=
  syscall None (fun w =>
    match w_fs w name with
    | Some f => (Some (stat_of f), w)
    | None => (None, w)
    end) (fun r => EvStat name r).

Definition sys_fstat (d : fd) : M (option stat) := sys_stat d.

(** The buffer a failed [stat] leaves behind is never looked at. *)
Definition stat_or_zero (r : option stat) : stat :=
  match r with
  | Some sb => sb
  | None => mkStat zero_timespec zero_timespec 0
  end.

Definition apply_utime (spec now old : timespec) : timespec :=
  if tv_nsec spec =? UTIME_OMIT then old
  else if tv_nsec spec =? UTIME_NOW then now
  else spec.

(** [utimensat(AT_FDCWD, name, times, 0)]: [times[0]] is for the access
    time, [times[1]] for the modification time. *)
Definition sys_utimensat (name : string) (times : timespec * timespec) : M Z :=
  syscall (-1) (fun w =>
    match w_fs w name with
    | Some f =>
        (0,
         set_fs (fs_set name
                   (mkFile (f_data f)
                      (apply_utime (fst times) (w_now w) (f_atim f))
                      (apply_utime (snd times) (w_now w) (f_mtim f)))
                   (w_fs w)) w)
    | None => (-1, w)
    end) (fun r => EvUtimens name times (negb (r =? -1))).

Definition sys_futimens (d : fd) (times : timespec * timespec) : M Z :=
  sys_utimensat d times.

Definition sys_close (d : fd) : M Z :=
  syscall (-1) (fun w => (0, w)) (fun r => EvClose d (negb (r =? -1))).

(** [read(d, buf, size)] from the start of the file. *)
Definition sys_read (d : fd) (size : nat) : M Z :=
  syscall (-1) (fun w =>
    match w_fs w d with
    | Some f =>
        (Z.of_nat (Nat.min size (String.length (f_data f))),
         set_fs (fs_set d
                   (mkFile (f_data f)
                      (atime_after_read (w_mount w) (w_now w) f) (f_mtim f))
                   (w_fs w)) w)
    | None => (-1, w)
    end) (fun r => EvRead d (negb (r =? -1))).

Definition sys_unlink (name : string) : M Z :=
  syscall (-1) (fun w =>
    match w_fs w name with
    | Some _ => (0, set_fs (fs_remove name (w_fs w)) w)
    | None => (-1, w)
    end) (fun r => EvUnlink name (negb (r =? -1))).

(** [fp = fopen(name, "w")]: creates the file or truncates it.  The result
    says whether [fp] is non-null afterwards. *)
Definition fopen_w_fp (name : string) : M bool :=
  ok <- syscall false (fun w =>
          let f :=
            match w_fs w name with
            | Some old => mkFile EmptyString (f_atim old) (w_now w)
            | None => mkFile EmptyString (w_now w) (w_now w)
            end in
          (true, set_fs (fs_set name f (w_fs w)) w)) (fun r => EvFopen name r) ;;
  modify (fun w =>
    if ok then set_fp_buf EmptyString (set_fp (OutFile name) w)
    else set_fp NoStream w) ;;
  ret ok.

Definition fclose_fp : M unit :=
  modify (fun w => set_fp NoStream (set_fp_buf EmptyString (fflush_fp w))).

(** ** libc: [getopt_long]

    GNU [getopt_long] as the program calls it: [optstring] starts with
    none of [+], [-] and [:], [opterr] is left at one and
    [POSIXLY_CORRECT] is not set, so the elements of [argv] that are no
    options are skipped and moved behind the options, and every error is
    reported on [stderr] and returned as [?]. *)

Inductive has_arg_t : Type :=
| no_argument
| required_argument
| optional_argument.

(** A row of the table of long options; the [flag] member is left out,
    it is [NULL] in every row the program has. *)
Record long_option : Type := mkLongOption {
  lo_name : string;
  lo_has_arg : has_arg_t;
  lo_val : ascii
}.

(** The errors [getopt_long] tells of on [stderr]. *)
Inductive getopt_error : Type :=
| invalid_option (c : ascii)
| option_requires_argument (c : ascii)
| unrecognized_option (text : string)
| ambiguous_option (text : string)
| option_allows_no_argument (name : string)
| long_option_requires_argument (name : string).

(** What one call of [getopt_long] gives: the value it returns, [optarg],
    and the error it has reported, if any. *)
Record getopt_result : Type := mkGetopt {
  g_val : ascii;
  g_optarg : string;
  g_error : option getopt_error
}.

(** What [optstring] says of a character: nothing when it is not in it,
    else whether the option takes an argument (one colon after it) or may
    take one (two colons). *)
Fixpoint optstring_kind (optstring : string) (c : ascii) : option has_arg_t :=
  match optstring with
  | EmptyString => None
  | String d rest =>
      if Ascii.eqb d c then
        Some (match rest with
              | String e1 (String e2 _) =>
                  if Ascii.eqb e1 ":" then
                    (if Ascii.eqb e2 ":" then optional_argument
                     else required_argument)
                  else no_argument
              | String e1 EmptyString =>
                  if Ascii.eqb e1 ":" then required_argument else no_argument
              | EmptyString => no_argument
              end)
      else optstring_kind rest c
  end.

(** The option characters of one element of [argv], after its dash: the
    results of the calls they take and, when the last character requires
    an argument that the element does not hold, the value to return with
    the next element as [optarg] and the error to report when there is no
    next element. *)
Fixpoint short_options (optstring : string) (chars : string)
  : list getopt_result * option (ascii * getopt_error) :=
  match chars with
  | EmptyString => ([], None)
  | String c rest =>
      match (if Ascii.eqb c ":" || Ascii.eqb c ";" then None
             else optstring_kind optstring c) with
      | None =>
          let '(rs, pending) := short_options optstring rest in
          (mkGetopt "?" EmptyString (Some (invalid_option c)) :: rs, pending)
      | Some no_argument =>
          let '(rs, pending) := short_options optstring rest in
          (mkGetopt c EmptyString None :: rs, pending)
      | Some required_argument =>
          match rest with
          | EmptyString => ([], Some (c, option_requires_argument c))
          | String _ _ => ([mkGetopt c rest None], None)
          end
      | Some optional_argument => ([mkGetopt c rest None], None)
      end
  end.

(** The name of a long option as typed, and what follows its [=]. *)
Fixpoint split_equals (text : string) : string * option string :=
  match text with
  | EmptyString => (EmptyString, None)
  | String c rest =>
      if Ascii.eqb c "=" then (EmptyString, Some rest)
      else let '(n, v) := split_equals rest in (String c n, v)
  end.

Inductive long_match : Type :=
| long_found (p : long_option)
| long_ambiguous
| long_unknown.

(** The row a typed name stands for: the row of that very name, else the
    row the name abbreviates, when it abbreviates no second row that
    differs from the first in [has_arg] or [val]. *)
Definition find_long (longopts : list long_option) (typed : string)
  : long_match :=
  match find (fun p => String.eqb (lo_name p) typed) longopts with
  | Some p => long_found p
  | None =>
      match filter (fun p => is_prefix typed (lo_name p)) longopts with
      | [] => long_unknown
      | p :: others =>
          if existsb
               (fun q =>
                  negb (match lo_has_arg p, lo_has_arg q with
                        | no_argument, no_argument => true
                        | required_argument, required_argument => true
                        | optional_argument, optional_argument => true
                        | _, _ => false
                        end && Ascii.eqb (lo_val p) (lo_val q)))
               others
          then long_ambiguous
          else long_found p
      end
  end.

(** An element of [argv] that starts with two dashes, after them. *)
Definition long_option_of (longopts : list long_option) (text : string)
  : list getopt_result * option (ascii * getopt_error) :=
  let '(typed, value) := split_equals text in
  match find_long longopts typed with
  | long_unknown =>
      ([mkGetopt "?" EmptyString (Some (unrecognized_option text))], None)
  | long_ambiguous =>
      ([mkGetopt "?" EmptyString (Some (ambiguous_option text))], None)
  | long_found p =>
      match value with
      | Some v =>
          match lo_has_arg p with
          | no_argument =>
              ([mkGetopt "?" EmptyString
                  (Some (option_allows_no_argument (lo_name p)))], None)
          | _ => ([mkGetopt (lo_val p) v None], None)
          end
      | None =>
          match lo_has_arg p with
          | required_argument =>
              ([], Some (lo_val p, long_option_requires_argument (lo_name p)))
          | _ => ([mkGetopt (lo_val p) EmptyString None], None)
          end
      end
  end.

(** An element that is no option: it does not start with a dash, or is a
    lone dash. *)
Definition is_nonoption (a : string) : bool :=
  match a with
  | String c (String _ _) => negb (Ascii.eqb c "-")
  | _ => true
  end.

(** The calls of [getopt_long] over the elements of [argv] after the
    first, until it returns [-1]: the results of the calls, the elements
    that were options or arguments of options, and the other elements,
    each in the order of [argv].  The element [--] ends the options and
    counts with them; what follows it is left as it is. *)
Fixpoint getopt_scan (optstring : string) (longopts : list long_option)
    (pending : option (ascii * getopt_error)) (args : list string)
  : list getopt_result * (list string * list string) :=
  match args with
  | [] =>
      (match pending with
       | Some (_, e) => [mkGetopt "?" EmptyString (Some e)]
       | None => []
       end, ([], []))
  | a :: rest =>
      match pending with
      | Some (c, _) =>
          let '(rs, (os, ns)) := getopt_scan optstring longopts None rest in
          (mkGetopt c a None :: rs, (a :: os, ns))
      | None =>
          if String.eqb a "--" then ([], ([a], rest))
          else if is_nonoption a then
            let '(rs, (os, ns)) := getopt_scan optstring longopts None rest in
            (rs, (os, a :: ns))
          else
            let '(here, next) :=
              if is_prefix "--" a
              then long_option_of longopts (string_skip 2 a)
              else short_options optstring (string_skip 1 a) in
            let '(rs, (os, ns)) := getopt_scan optstring longopts next rest in
            ((here ++ rs)%list, (a :: os, ns))
      end
  end.

(** The option table of the program. *)
Definition short_opts : string := "c:eo:Vw:".

Definition long_opts : list long_option :=
  [mkLongOption "command" required_argument "c";
   mkLongOption "errexit" no_argument "e";
   mkLongOption "outfile" required_argument "o";
   mkLongOption "verbose" no_argument "V";
   mkLongOption "watch" required_argument "w";
   mkLongOption "help" no_argument "h"].

(** The results of the calls of [getopt_long] that [main] makes when no
    result stops it, and [argv] as the calls leave it: the options first,
    then the other elements. *)
Definition getopt_results (argv : list string) : list getopt_result :=
  fst (getopt_scan short_opts long_opts None (tl argv)).

Definition permuted_argv (argv : list string) : list string :=
  match argv with
  | [] => []
  | argv0 :: args =>
      let '(os, ns) := snd (getopt_scan short_opts long_opts None args) in
      (argv0 :: os ++ ns)%list
  end.

(** ** The walkers, the probe and [main] *)

Section Pmash.

(** [nftw] reads the tree below a directory: the entries it would report
    for the given files, or nothing when it fails.  [FTW_MOUNT] and the
    traversal order are its business. *)
Variable walk_tree : filesys -> string -> option (list ftw_entry).

(** The command interpreter behind [system]: from the command string, the
    files and the clock to the wait status, the files and the clock after
    the command. *)
Variable shell : string -> filesys -> timespec -> Z * filesys * timespec.

(** The text [getopt_long] writes on [stderr] for an error, from
    [argv[0]] and the error; its wording is the library's. *)
Variable getopt_message : string -> getopt_error -> string.

Fixpoint nftw_entries (entries : list ftw_entry)
    (fn : string -> stat -> ftw_flag -> M Z) : M Z :=
  match entries with
  | [] => ret 0
  | e :: rest =>
      r <- fn (ftw_fpath e) (ftw_sb e) (ftw_tflag e) ;;
      if negb (r =? 0) then ret r else nftw_entries rest fn
  end.

Definition nftw (dirpath : string) (fn : string -> stat -> ftw_flag -> M Z)
  : M Z :=
  entries <- syscall None (fun w => (walk_tree (w_fs w) dirpath, w))
               (fun r => EvNftw dirpath (is_some r)) ;;
  match entries with
  | None => ret (-1)
  | Some entries => nftw_entries entries fn
  end.

Definition system (command : string) : M Z :=
  fun w =>
    let '(status, fs', now') := shell command (w_fs w) (w_now w) in
    Ret status (log (EvSystem command status) (set_now now' (set_fs fs' w))).

(** [fpath[0] == '.' && fpath[1] == '/'] then [fpath += 2] *)
Definition skip_dot_slash (fpath : string) : string :=
  match fpath with
  | String "." (String "/" rest) => rest
  | _ => fpath
  end.

Definition excluded (fpath : string) : bool :=
  strstr fpath ".git" || strstr fpath ".svn" || strstr fpath ".swp".

(** The entry the pre-run callback fills in. *)
Definition pre_entry (fpath : string) (sb : stat) : pathentry_s :=
  let p1 := calloc_pathentry in
  let p1 := set_path fpath p1 in
  let p1 := set_times1 (set_sec (wrap_long (st_mtime sb - 1)) (fst (times1 p1)),
                        snd (times1 p1)) p1 in
  let p1 := set_times1 (set_nsec 0 (fst (times1 p1)), snd (times1 p1)) p1 in
  let p1 := set_times1 (fst (times1 p1),
                        set_sec (st_mtime sb) (snd (times1 p1))) p1 in
  let p1 := set_times1 (fst (times1 p1),
                        set_nsec (tv_nsec (st_mtim sb)) (snd (times1 p1))) p1 in
  p1.

Definition nftw_pre_callback (fpath : string) (sb : stat) (tflag : ftw_flag)
  : M Z :=
  if negb (ftw_flag_eqb tflag FTW_F) then ret 0
  else if excluded fpath then ret 0
  else
    let fpath := skip_dot_slash fpath in
    let p1 := pre_entry fpath sb in
    r <- sys_utimensat fpath (times1 p1) ;;
    insist (negb (r =? -1)) fpath ;;
    found <- (fun w =>
                let '(item, t) := tsearch pathcmp p1 (tree1 w) in
                Ret (Some item) (set_tree1 t w)) ;;
    insist (is_some found) "tsearch(&pre)" ;;
    ret 0.

(** The entry the post-run callback fills in before it consults [tree1]:
    the times of the file now, and the times of no earlier sighting. *)
Definition post_entry (fpath : string) (sb : stat) : pathentry_s :=
  let p2 := calloc_pathentry in
  let p2 := set_path fpath p2 in
  let p2 := set_times1 (set_sec (-2) (fst (times1 p2)), snd (times1 p2)) p2 in
  let p2 := set_times1 (fst (times1 p2), set_sec (-1) (snd (times1 p2))) p2 in
  let p2 := set_times2 (set_sec (st_atime sb) (fst (times2 p2)),
                        snd (times2 p2)) p2 in
  let p2 := set_times2 (set_nsec (tv_nsec (st_atim sb)) (fst (times2 p2)),
                        snd (times2 p2)) p2 in
  let p2 := set_times2 (fst (times2 p2),
                        set_sec (st_mtime sb) (snd (times2 p2))) p2 in
  let p2 := set_times2 (fst (times2 p2),
                        set_nsec (tv_nsec (st_mtim sb)) (snd (times2 p2))) p2 in
  p2.

(** The four assignments made when [tfind] returns the entry [p1]. *)
Definition carry_times1 (p1 p2 : pathentry_s) : pathentry_s :=
  let p2 := set_times1 (set_sec (tv_sec (fst (times1 p1))) (fst (times1 p2)),
                        snd (times1 p2)) p2 in
  let p2 := set_times1 (set_nsec (tv_nsec (fst (times1 p1))) (fst (times1 p2)),
                        snd (times1 p2)) p2 in
  let p2 := set_times1 (fst (times1 p2),
                        set_sec (tv_sec (snd (times1 p1))) (snd (times1 p2))) p2 in
  let p2 := set_times1 (fst (times1 p2),
                        set_nsec (tv_nsec (snd (times1 p1))) (snd (times1 p2))) p2 in
  p2.

(** The entry that goes into [tree2]. *)
Definition merged_entry (t1 : tree pathentry_s) (fpath : string) (sb : stat)
  : pathentry_s :=
  let p2 := post_entry fpath sb in
  match tfind pathcmp p2 t1 with
  | Some p1 => carry_times1 p1 p2
  | None => p2
  end.

Definition nftw_post_callback (fpath : string) (sb : stat) (tflag : ftw_flag)
  : M Z :=
  if negb (ftw_flag_eqb tflag FTW_F) then ret 0
  else if excluded fpath then ret 0
  else
    let fpath := skip_dot_slash fpath in
    p2 <- gets (fun w => merged_entry (tree1 w) fpath sb) ;;
    found <- (fun w =>
                let '(item, t) := tsearch pathcmp p2 (tree2 w) in
                Ret (Some item) (set_tree2 t w)) ;;
    insist (is_some found) "tsearch(&post)" ;;
    ret 0.

(** The name of the probe file: ["%s/audit.%ld.tmp"], from the directory
    and the process id. *)
Definition atime_tmp_name (dir : string) (pid : Z) : string :=
  dir ++ "/audit." ++ fmt_ld pid ++ ".tmp".

Definition insist_fd (o : option fd) (term : string) : M fd :=
  insist (is_some o) term ;;
  ret (match o with Some d => d | None => EmptyString end).

(** The body of the first loop of [main] up to the walk: the directory is
    opened and closed, then a file is created in it, written, read back
    and removed, to see whether reading moves the access time. *)
Definition probe_atime (dirpath : string) : M unit :=
  let buf := "data" ++ newline in
  let otimes := (mkTimespec (-1) 0, mkTimespec 0 UTIME_OMIT) in
  dfd <- sys_open_rdonly dirpath ;;
  dfd <- insist_fd dfd dirpath ;;
  r <- sys_close dfd ;;
  insist (negb (r =? -1)) dirpath ;;
  pid <- gets w_pid ;;
  let atime_tmp := atime_tmp_name dirpath pid in
  insist (negb (Z.of_nat (String.length atime_tmp) =? -1)) "asprintf()" ;;
  d <- sys_open_excl atime_tmp ;;
  d <- insist_fd d atime_tmp ;;
  r <- sys_write d buf ;;
  insist (negb (r =? -1)) atime_tmp ;;
  ro <- sys_fstat d ;;
  insist (is_some ro) atime_tmp ;;
  let ostats := stat_or_zero ro in
  let otimes := (set_sec (wrap_long (st_mtime ostats - 1)) (fst otimes),
                 snd otimes) in
  r <- sys_futimens d otimes ;;
  insist (negb (r =? -1)) atime_tmp ;;
  r <- sys_close d ;;
  insist (negb (r =? -1)) atime_tmp ;;
  d <- sys_open_rdonly atime_tmp ;;
  d <- insist_fd d atime_tmp ;;
  r <- sys_read d (String.length buf + 1) ;;
  insist (negb (r =? -1)) atime_tmp ;;
  r <- sys_close d ;;
  insist (negb (r =? -1)) atime_tmp ;;
  rn <- sys_stat atime_tmp ;;
  insist (is_some rn) atime_tmp ;;
  let nstats := stat_or_zero rn in
  r <- sys_unlink atime_tmp ;;
  insist (negb (r =? -1)) atime_tmp ;;
  if (st_atime nstats <? st_mtime nstats) ||
     ((st_atime nstats =? st_mtime nstats) &&
      (tv_nsec (st_atim nstats) <? tv_nsec (st_mtim nstats)))
  then die "atimes not updated here"
  else ret tt.

Definition pre_walk (dirpath : string) : M unit :=
  probe_atime dirpath ;;
  r <- nftw dirpath nftw_pre_callback ;;
  insist (negb (r =? -1)) dirpath.

Definition post_walk_dir (dirpath : string) : M unit :=
  r <- nftw dirpath nftw_post_callback ;;
  insist (negb (r =? -1)) dirpath.

(** What the option loop of [main] collects. *)
Record options : Type := mkOptions {
  cmdstr : option string;
  outfile : option string;
  watchdirs : string
}.

(** The option loop, over the results of the successive calls of
    [getopt_long]: a call that reports an error has written its message
    on [stderr] when it returns; the switch has no case for [?]. *)
Fixpoint getopt_loop (argv0 : string) (parsed : list getopt_result)
    (o : options) : M options :=
  match parsed with
  | [] => ret o
  | r :: rest =>
      (match g_error r with
       | Some e => modify (fputs_stderr (getopt_message argv0 e))
       | None => ret tt
       end) ;;
      let c := g_val r in
      let optarg := g_optarg r in
      if Ascii.eqb c "h" then usage EXIT_SUCCESS
      else if Ascii.eqb c "c" then
        getopt_loop argv0 rest
          (mkOptions (Some optarg) (outfile o) (watchdirs o))
      else if Ascii.eqb c "e" then getopt_loop argv0 rest o
      else if Ascii.eqb c "o" then
        getopt_loop argv0 rest
          (mkOptions (cmdstr o) (Some optarg) (watchdirs o))
      else if Ascii.eqb c "V" then
        modify (fun w => set_verbosity (verbosity w + 1) w) ;;
        getopt_loop argv0 rest o
      else if Ascii.eqb c "w" then
        getopt_loop argv0 rest (mkOptions (cmdstr o) (outfile o) optarg)
      else getopt_loop argv0 rest o
  end.

(** The trace of the invocation on [stderr]. *)
Fixpoint echo_args (args : list string) : M unit :=
  match args with
  | [] => ret tt
  | a :: rest =>
      (if strstr a " " then modify (fputs_stderr dquote) else ret tt) ;;
      modify (fputs_stderr a) ;;
      (match rest with
       | [] => ret tt
       | _ => modify (fputs_stderr " ")
       end) ;;
      (if strstr a " " then modify (fputs_stderr dquote) else ret tt) ;;
      echo_args rest
  end.

Definition trace_command (argv : list string) (command : string) : M string :=
  v <- gets verbosity ;;
  e <- gets w_pmash_verbosity ;;
  if negb (v =? 0) || is_some e then
    modify (fputs_stderr "++ ") ;;
    echo_args argv ;;
    modify (fputs_stderr newline) ;;
    let command' := "set -x; " ++ command in
    insist (negb (Z.of_nat (String.length command') =? -1)) "asprintf()" ;;
    ret command'
  else ret command.

(** [main] from [twalk] on: the classification, the removal of an empty
    output file, and [exit(rc)]. *)
Definition report (outfile : option string) (rc : Z) : M unit :=
  modify (fun w => twalk (tree2 w) post_walk w) ;;
  (match outfile with
   | Some name =>
       fclose_fp ;;
       rs <- sys_stat name ;;
       if is_some rs && (st_size (stat_or_zero rs) =? 0) then
         r <- sys_unlink name ;;
         insist (negb (r =? -1)) name
       else ret tt
   | None => ret tt
   end) ;;
  c_exit AtMain rc.

(** [main] from the second loop on: the post-run walks, then the report. *)
Definition walk_and_report (o : options) (rc : Z) : M unit :=
  for_each (strtok_all (watchdirs o) ",") post_walk_dir ;;
  report (outfile o) rc.

(** [main] from [system] on. *)
Definition run_and_report (o : options) (command : string) (rc : Z) : M unit :=
  status <- system command ;;
  let rc := if negb (status =? 0) then EXIT_FAILURE else rc in
  walk_and_report o rc.

(** [main]; the echo loop reads [argv] as [getopt_long] has left it. *)
Definition main (argv : list string) : M unit :=
  let rc := EXIT_SUCCESS in
  let argv0 := hd EmptyString argv in
  modify (set_prog
            (match strrchr argv0 "/" with
             | Some tail => string_skip 1 tail
             | None => argv0
             end)) ;;
  o <- getopt_loop argv0 (getopt_results argv) (mkOptions None None ".") ;;
  match cmdstr o with
  | None => usage EXIT_FAILURE
  | Some command =>
      (match outfile o with
       | Some name => ok <- fopen_w_fp name ;; insist ok name
       | None => modify (set_fp Stdout)
       end) ;;
      for_each (strtok_all (watchdirs o) ",") pre_walk ;;
      command <- trace_command (permuted_argv argv) command ;;
      run_and_report o command rc
  end.

End Pmash.

(** ** A concrete run

    A directory [.] with two files, a command that reads one of them and
    writes a third, and a walker that reports the files found under the
    names it knows.  The scenarios below instantiate the statements of the
    development and serve as their test inputs. *)

Module Scenario.

Definition stdout_of {A : Type} (r : result A) : string :=
  match r with
  | Ret _ w => w_stdout w
  | Exit _ _ w => w_stdout w
  end.

Definition world_of {A : Type} (r : result A) : world :=
  match r with
  | Ret _ w => w
  | Exit _ _ w => w
  end.

Definition status_of {A : Type} (r : result A) : option (exit_site * Z) :=
  match r with
  | Ret _ _ => None
  | Exit site status _ => Some (site, status)
  end.

Definition at_time (s ns : Z) : timespec := mkTimespec s ns.

Definition names : list string := ["input.txt"; "output.txt"; "unused.txt"].

Definition input_file : file :=
  mkFile "in" (at_time 1000 5) (at_time 1000 5).

Definition unused_file : file :=
  mkFile "un" (at_time 1200 0) (at_time 1100 7).

Definition files : filesys :=
  fs_set "." (mkFile EmptyString (at_time 900 0) (at_time 900 0))
    (fs_set "input.txt" input_file
       (fs_set "unused.txt" unused_file (fun _ => None))).

(** The walker: the known names that exist, reported below [dir]. *)
Definition walk (fs : filesys) (dir : string) : option (list ftw_entry) :=
  match fs dir with
  | None => None
  | Some _ =>
      Some (flat_map
              (fun n =>
                 match fs n with
                 | Some f => [mkFtw (dir ++ "/" ++ n) (stat_of f) FTW_F]
                 | None => []
                 end)
              names)
  end.

(** The command [cat input.txt > output.txt], five seconds long; it fails
    when the command string mentions [false]. *)
Definition shell (command : string) (fs : filesys) (now : timespec)
  : Z * filesys * timespec :=
  let later := mkTimespec (tv_sec now + 5) (tv_nsec now) in
  let fs1 :=
    match fs "input.txt" with
    | Some f => fs_set "input.txt" (mkFile (f_data f) later (f_mtim f)) fs
    | None => fs
    end in
  let fs2 := fs_set "output.txt" (mkFile "in" later later) fs1 in
  (if strstr command "false" then 256 else 0, fs2, later).

Definition world0 : world :=
  mkWorld files (at_time 2000 0) strictatime [] 77 None "failure"
    EmptyString EmptyString [] "??" TNil TNil NoStream EmptyString 0.

Definition with_faults (l : list bool) : world := set_faults l world0.

(** A file [sub/f] that two watch directories, [.] and [sub], both reach;
    something rewrites it between the two walks. *)
Definition nested_file : file :=
  mkFile "v1" (at_time 1000 5) (at_time 1000 5).

Definition rewritten_file : file :=
  mkFile "v2" (at_time 1500 0) (at_time 1500 0).

Definition nested_world : world :=
  set_fs (fs_set "sub" (mkFile EmptyString (at_time 900 0) (at_time 900 0))
            (fs_set "sub/f" nested_file files)) world0.

Definition seen_from_dot : ftw_entry :=
  mkFtw "./sub/f" (stat_of nested_file) FTW_F.

Definition seen_from_sub : ftw_entry :=
  mkFtw "sub/f" (stat_of rewritten_file) FTW_F.

(** A file [gone.txt] that is recorded before the run and removed by the
    command. *)
Definition gone_file : file :=
  mkFile "bye" (at_time 1300 0) (at_time 1300 0).

Definition recorded_world : world :=
  world_of
    (nftw_entries
       [mkFtw "./gone.txt" (stat_of gone_file) FTW_F;
        mkFtw "./input.txt" (stat_of input_file) FTW_F]
       nftw_pre_callback
       (set_fs (fs_set "gone.txt" gone_file files) world0)).

Definition removed_world : world :=
  set_fs (fs_remove "gone.txt" (w_fs recorded_world)) recorded_world.

(** The command [true]: nothing is read, nothing is written. *)
Definition idle_shell (command : string) (fs : filesys) (now : timespec)
  : Z * filesys * timespec :=
  (0, fs, mkTimespec (tv_sec now + 1) (tv_nsec now)).

(** The process about to classify: the output file is open and empty, one
    file was seen and it was not read. *)
Definition report_world : world :=
  set_tree2 (TNode TNil (mkPathentry "unused.txt"
                           (at_time 1099 0, at_time 1100 7)
                           (at_time 1099 0, at_time 1100 7)) TNil)
    (set_fp (OutFile "/tmp/deps")
       (set_fs (fs_set "/tmp/deps"
                  (mkFile EmptyString (at_time 2000 0) (at_time 2000 0)) files)
          world0)).

Definition rewrite_nested (w : world) : world :=
  set_fs (fs_set "sub/f" rewritten_file (w_fs w)) w.

(** The messages of [getopt_long] as glibc 2.36 words them. *)
Definition quoted_long (n : string) : string := " '--" ++ n ++ "'".

Definition glibc_message (argv0 : string) (e : getopt_error) : string :=
  argv0 ++ ": " ++
  match e with
  | invalid_option c => "invalid option -- '" ++ String c "'"
  | option_requires_argument c =>
      "option requires an argument -- '" ++ String c "'"
  | unrecognized_option text => "unrecognized option '--" ++ text ++ "'"
  | ambiguous_option text =>
      "option '--" ++ text ++ "' is ambiguous; possibilities:" ++
      fold_right append EmptyString
        (map (fun p => quoted_long (lo_name p))
           (filter (fun p => is_prefix (fst (split_equals text)) (lo_name p))
              long_opts))
  | option_allows_no_argument n =>
      "option '--" ++ n ++ "' doesn't allow an argument"
  | long_option_requires_argument n =>
      "option '--" ++ n ++ "' requires an argument"
  end ++ newline.

End Scenario.

(** ** The clauses of the decision rule, as the specification words them

    A list of guarded verdicts read top to bottom; the first guard that
    holds decides, and the entry is a prerequisite when none does. *)

Definition verdict_clauses (p : pathentry_s) : list (bool * bool) :=
  let pre_atime := fst (times1 p) in
  let pre_mtime := snd (times1 p) in
  let post_atime := fst (times2 p) in
  let post_mtime := snd (times2 p) in
  [ (tv_sec pre_mtime <? tv_sec post_mtime, false);
    ((tv_sec post_mtime =? tv_sec pre_mtime) &&
     (tv_nsec pre_mtime <? tv_nsec post_mtime), false);
    (tv_sec post_atime <=? tv_sec pre_atime, false);
    ((tv_sec post_atime =? tv_sec pre_atime) &&
     (tv_nsec post_atime <=? tv_nsec pre_atime), false) ].

Fixpoint first_match (clauses : list (bool * bool)) (otherwise : bool) : bool :=
  match clauses with
  | [] => otherwise
  | (guard, verdict) :: rest => if guard then verdict else first_match rest otherwise
  end.

Definition is_prerequisite (p : pathentry_s) : bool :=
  first_match (verdict_clauses p) true.

(** What the classifier writes for one entry. *)
Definition entry_output (v : Z) (p : pathentry_s) : string :=
  if negb (prereq_of p =? 0) then
    path p ++ (if negb (v =? 0) then " # " ++ entry_times p else EmptyString)
      ++ newline
  else if negb (v =? 0) then
    "## " ++ fmt_left 24 (path p) ++ ": " ++ entry_times p ++ newline
  else EmptyString.

Definition concat_strings (l : list string) : string :=
  fold_right String.append EmptyString l.

(** The text of a classification: the entries of a tree, left to right. *)
Definition listing (v : Z) (t : tree pathentry_s) : string :=
  concat_strings (map (entry_output v) (elements t)).

(** The prerequisite list proper: the paths, one per line. *)
Definition path_lines (l : list pathentry_s) : string :=
  concat_strings (map (fun p => path p ++ newline) l).

Definition prerequisites (l : list pathentry_s) : list pathentry_s :=
  filter (fun p => negb (prereq_of p =? 0)) l.

(** Strict order of two entries by path. *)
Definition path_lt (a b : pathentry_s) : Prop := pathcmp a b < 0.

(** ** Test inputs for the classifier *)

(** A process with nothing around it that writes to [stdout]. *)
Definition blank_world (v : Z) : world :=
  mkWorld (fun _ => None) zero_timespec strictatime [] 0 None EmptyString
    EmptyString EmptyString [] EmptyString TNil TNil Stdout EmptyString v.

(** The text the classifier sends to [stdout] for a tree, at a verbosity. *)
Definition classifier_text (v : Z) (t : tree pathentry_s) : string :=
  w_stdout (twalk t post_walk (blank_world v)).

(** A file that was there before the run and was not touched by it. *)
Definition unread_entry : pathentry_s :=
  mkPathentry "unused.txt"
    (mkTimespec 1099 0, mkTimespec 1100 7)
    (mkTimespec 1099 0, mkTimespec 1100 7).

(** What the post-run walk sees of a file dated a day before the epoch
    and read since. *)
Definition old_stat : stat :=
  mkStat (mkTimespec 1000 0) (mkTimespec (-86400) 0) 3.

(** What it sees of a file the command has just written. *)
Definition fresh_stat : stat :=
  mkStat (mkTimespec 2005 0) (mkTimespec 2005 0) 2.

(** [sub/f] recorded before the run, then seen twice after it: from [.],
    read by the command and not written, and from [sub], after something
    has rewritten it. *)
Definition sighted_world : world :=
  Scenario.world_of
    (nftw_entries [Scenario.seen_from_dot] nftw_pre_callback
       Scenario.nested_world).

Definition read_from_dot : ftw_entry :=
  mkFtw "./sub/f" (mkStat (mkTimespec 2005 0) (mkTimespec 1000 5) 2) FTW_F.

Definition rewritten_from_sub : ftw_entry :=
  mkFtw "sub/f" (mkStat (mkTimespec 2006 0) (mkTimespec 2006 0) 2) FTW_F.

(** ** What the walkers record *)

(** The entries a callback acts on: regular files whose name holds none of
    the excluded markers. *)
Definition recorded (e : ftw_entry) : bool :=
  ftw_flag_eqb (ftw_tflag e) FTW_F && negb (excluded (ftw_fpath e)).

Definition pre_entry_of (e : ftw_entry) : pathentry_s :=
  pre_entry (skip_dot_slash (ftw_fpath e)) (ftw_sb e).

Definition pre_entries (es : list ftw_entry) : list pathentry_s :=
  map pre_entry_of (filter recorded es).

Definition post_entry_of (t1 : tree pathentry_s) (e : ftw_entry) : pathentry_s :=
  merged_entry t1 (skip_dot_slash (ftw_fpath e)) (ftw_sb e).

Definition post_entries (t1 : tree pathentry_s) (es : list ftw_entry)
  : list pathentry_s :=
  map (post_entry_of t1) (filter recorded es).

(** The tree the post-run walks of the watch directories build, from the
    files as the command left them: the entries of each walk are inserted
    in turn; nothing when a walk fails. *)
Fixpoint post_walked (walk : filesys -> string -> option (list ftw_entry))
    (fs : filesys) (t1 : tree pathentry_s) (dirs : list string)
    (t2 : tree pathentry_s) : option (tree pathentry_s) :=
  match dirs with
  | [] => Some t2
  | d :: rest =>
      match walk fs d with
      | Some es =>
          post_walked walk fs t1 rest
            (tsearch_all pathcmp (post_entries t1 es) t2)
      | None => None
      end
  end.

(** A key to look a path up with. *)
Definition key_of (s : string) : pathentry_s := set_path s calloc_pathentry.

(** One second earlier, to the nanosecond. *)
Definition minus_one_second (t : timespec) : timespec :=
  mkTimespec (tv_sec t - 1) (tv_nsec t).

(** A file read by the command, and one written by it. *)
Definition read_entry : pathentry_s :=
  mkPathentry "input.txt"
    (mkTimespec 999 0, mkTimespec 1000 5)
    (mkTimespec 2005 0, mkTimespec 1000 5).

Definition written_entry : pathentry_s :=
  mkPathentry "output.txt"
    (mkTimespec (-2) 0, mkTimespec (-1) 0)
    (mkTimespec 2005 0, mkTimespec 2005 0).

(** ** Runs without outside failures *)

(** None of the next [k] system calls fails for an outside reason. *)
Definition no_faults (k : nat) (faults : list bool) : bool :=
  forallb negb (firstn k faults).

(** The first failure is that of call number [k], counting from zero. *)
Definition first_fault (k : nat) (faults : list bool) : Prop :=
  no_faults k faults = true /\ nth k faults false = true.

(** The calls the probe makes in a directory when none fails, for a file
    created at time [now] on a mount that gives it the access time [atime]
    when it is read back. *)
Definition probe_calls (dir tmp : string) (now atime : timespec) : list event :=
  [ EvOpen dir true;
    EvClose dir true;
    EvCreate tmp true;
    EvWrite tmp ("data" ++ newline) true;
    EvStat tmp (Some (mkStat now now 5));
    EvUtimens tmp
      (mkTimespec (wrap_long (tv_sec now - 1)) 0, mkTimespec 0 UTIME_OMIT) true;
    EvClose tmp true;
    EvOpen tmp true;
    EvRead tmp true;
    EvClose tmp true;
    EvStat tmp (Some (mkStat atime now 5));
    EvUnlink tmp true ].

(** The probe file as the read finds it. *)
Definition probe_file_before_read (now : timespec) : file :=
  mkFile ("data" ++ newline) (mkTimespec (wrap_long (tv_sec now - 1)) 0) now.

Definition is_create (e : event) : bool :=
  match e with EvCreate _ _ => true | _ => false end.

Definition is_unlink (e : event) : bool :=
  match e with EvUnlink _ _ => true | _ => false end.

(** ** Exit statuses *)

(** The result of a run with the status of its final [exit(rc)] replaced;
    an exit from anywhere else is left as it is. *)
Definition with_exit_status {A : Type} (rc : Z) (r : result A) : result A :=
  match r with
  | Exit AtMain _ w => Exit AtMain rc w
  | other => other
  end.

(** ** Further notions for the properties of the whole program *)

(** The world a run ends in, whether it returns or exits. *)
Definition result_world {A : Type} (r : result A) : world :=
  match r with
  | Ret _ w => w
  | Exit _ _ w => w
  end.

(** The [utimensat] call the pre-run callback makes for an entry. *)
Definition pre_call (e : ftw_entry) : event :=
  EvUtimens (skip_dot_slash (ftw_fpath e)) (times1 (pre_entry_of e)) true.

(** The text [usage] prints, for a program name. *)
Definition usage_text (name : string) : string :=
  "Usage: " ++ name ++ " -c <cmd> [-o <outfile>] [-w dir[,dir,...]]" ++ newline ++
  "   " ++ fmt_left 18 "-h/--help" ++ " " ++ "Print this usage summary" ++ newline ++
  "   " ++ fmt_left 18 "-c/--command" ++ " " ++ "Command to invoke" ++ newline ++
  "   " ++ fmt_left 18 "-e/--errexit" ++ " " ++ "Exit on first error" ++ newline ++
  "   " ++ fmt_left 18 "-o/--outfile" ++ " " ++ "File path to save prereq list" ++ newline ++
  "   " ++ fmt_left 18 "-V/--verbose" ++ " " ++ "Bump verbosity mode" ++ newline ++
  "   " ++ fmt_left 18 "-w/--watch" ++ " " ++ "Directories to monitor" ++ newline.

(** The name [main] gives the program: what follows the last slash of
    [argv[0]], or all of it. *)
Definition program_name (argv : list string) : string :=
  match strrchr (hd EmptyString argv) "/" with
  | Some tail => string_skip 1 tail
  | None => hd EmptyString argv
  end.

(** Reading the results of the calls of [getopt_long]: the [optarg] of the
    last call that returned an option character, the number of calls that
    returned it, whether one did. *)
Fixpoint last_arg (c : ascii) (parsed : list getopt_result) : option string :=
  match parsed with
  | [] => None
  | r :: rest =>
      match last_arg c rest with
      | Some a => Some a
      | None => if Ascii.eqb (g_val r) c then Some (g_optarg r) else None
      end
  end.

Definition count_opt (c : ascii) (parsed : list getopt_result) : nat :=
  List.length (filter (fun r => Ascii.eqb (g_val r) c) parsed).

Definition has_opt (c : ascii) (parsed : list getopt_result) : bool :=
  existsb (fun r => Ascii.eqb (g_val r) c) parsed.

(** What the option loop leaves in the options when no call returns [h]. *)
Definition options_of (parsed : list getopt_result) (o : options) : options :=
  mkOptions
    (match last_arg "c" parsed with Some a => Some a | None => cmdstr o end)
    (match last_arg "o" parsed with Some a => Some a | None => outfile o end)
    (match last_arg "w" parsed with Some a => a | None => watchdirs o end).

(** The messages of the calls that reported an error, in order. *)
Definition getopt_diagnostics (message : string -> getopt_error -> string)
    (argv0 : string) (parsed : list getopt_result) : string :=
  concat_strings
    (map (fun r =>
            match g_error r with
            | Some e => message argv0 e
            | None => EmptyString
            end) parsed).

(** The verdict of the probe from what the second [stat] reports. *)
Definition atime_behind (nstats : stat) : bool :=
  (st_atime nstats <? st_mtime nstats) ||
  ((st_atime nstats =? st_mtime nstats) &&
   (tv_nsec (st_atim nstats) <? tv_nsec (st_mtim nstats))).

Definition is_system (e : event) : bool :=
  match e with EvSystem _ _ => true | _ => false end.

(** The results of the calls up to the first that returns [h], that one
    included. *)
Fixpoint through_help (parsed : list getopt_result) : list getopt_result :=
  match parsed with
  | [] => []
  | r :: rest =>
      if Ascii.eqb (g_val r) "h" then [r] else r :: through_help rest
  end.

(** A world like [Scenario.world0] on a mount that never sets access
    times. *)
Definition noatime_world : world :=
  mkWorld Scenario.files (Scenario.at_time 2000 0) noatime [] 77 None "failure"
    EmptyString EmptyString [] "??" TNil TNil NoStream EmptyString 0.

(** A world about to report one prerequisite into a fresh output file. *)
Definition listed_world : world :=
  set_tree2 (TNode TNil read_entry TNil) Scenario.report_world.

(** What the echo loop of [main] prints for one argument: the argument,
    between double quotes when it holds a space, the separating space
    (when the argument is not the last) coming before the closing quote. *)
Definition echo_word (a : string) (last : bool) : string :=
  (if strstr a " " then dquote else EmptyString) ++ a ++
  (if last then EmptyString else " ") ++
  (if strstr a " " then dquote else EmptyString).

Fixpoint echo_line (args : list string) : string :=
  match args with
  | [] => EmptyString
  | a :: rest =>
      echo_word a (match rest with [] => true | _ => false end) ++
      echo_line rest
  end.

(** A string that is a C string: no NUL before its end. *)
Fixpoint no_nul (s : string) : bool :=
  match s with
  | EmptyString => true
  | String c s' => negb (uchar c =? 0) && no_nul s'
  end.

(** Computations that leave the verbosity and [PMASH_VERBOSITY] as they
    are when they return. *)
Definition keeps_verbosity {A : Type} (c : M A) : Prop :=
  forall w a w',
    c w = Ret a w' ->
    verbosity w' = verbosity w /\
    w_pmash_verbosity w' = w_pmash_verbosity w.

(** * Properties *)

(** ** [strcmp] is a strict weak order *)

Lemma uchar_nonneg : forall c, 0 <= uchar c.
Proof. intro c. unfold uchar. lia. Qed.

Lemma strcmp_refl : forall a, strcmp a a = 0.
Proof.
  induction a as [|c a IH]; simpl; [reflexivity|].
  rewrite Z.eqb_refl. destruct (uchar c =? 0); auto.
Qed.

Lemma strcmp_opp : forall a b, strcmp b a = - strcmp a b.
Proof.
  induction a as [|c a IH]; destruct b as [|d b]; simpl; try lia.
  rewrite (Z.eqb_sym (uchar d) (uchar c)).
  destruct (uchar c =? uchar d) eqn:E.
  - apply Z.eqb_eq in E. rewrite <- E.
    destruct (uchar c =? 0); [reflexivity | apply IH].
  - lia.
Qed.

Lemma strcmp_eq_compat : forall a b c, strcmp a b = 0 -> strcmp a c = strcmp b c.
Proof.
  induction a as [|x a IH]; destruct b as [|y b]; intros c H; simpl in H.
  - reflexivity.
  - assert (Hy : uchar y = 0) by lia.
    destruct c as [|z c]; simpl; [lia|].
    rewrite Hy. destruct (0 =? uchar z) eqn:E; [|reflexivity].
    apply Z.eqb_eq in E. simpl. lia.
  - destruct c as [|z c]; simpl; [lia|].
    rewrite H. destruct (0 =? uchar z) eqn:E; [|reflexivity].
    apply Z.eqb_eq in E. simpl. lia.
  - destruct (uchar x =? uchar y) eqn:E.
    + apply Z.eqb_eq in E.
      destruct c as [|z c]; simpl; [lia|].
      rewrite <- E.
      destruct (uchar x =? uchar z); [|reflexivity].
      destruct (uchar x =? 0); [reflexivity|]. apply IH. exact H.
    + apply Z.eqb_neq in E. lia.
Qed.

Lemma strcmp_trans : forall a b c,
  strcmp a b < 0 -> strcmp b c < 0 -> strcmp a c < 0.
Proof.
  induction a as [|x a IH]; destruct b as [|y b]; destruct c as [|z c];
    simpl;
    try pose proof (uchar_nonneg x); try pose proof (uchar_nonneg y);
    try pose proof (uchar_nonneg z); try lia.
  - destruct (Z.eqb_spec (uchar y) (uchar z)); lia.
  - destruct (Z.eqb_spec (uchar x) (uchar y)) as [E1|E1];
      destruct (Z.eqb_spec (uchar y) (uchar z)) as [E2|E2];
      destruct (Z.eqb_spec (uchar x) (uchar z)) as [E3|E3]; try lia.
    rewrite <- E1.
    destruct (uchar x =? 0); [lia | apply IH].
Qed.

Lemma pathcmp_sym : forall a b, pathcmp a b < 0 <-> 0 < pathcmp b a.
Proof. intros a b. unfold pathcmp. rewrite (strcmp_opp (path a) (path b)). lia. Qed.

Lemma pathcmp_trans : forall a b c,
  pathcmp a b < 0 -> pathcmp b c < 0 -> pathcmp a c < 0.
Proof. intros a b c. unfold pathcmp. apply strcmp_trans. Qed.

Lemma pathcmp_eq_compat : forall a b c,
  pathcmp a b = 0 -> pathcmp a c = pathcmp b c.
Proof. intros a b c. unfold pathcmp. apply strcmp_eq_compat. Qed.

Lemma pathcmp_same_path : forall a b, path a = path b -> pathcmp a b = 0.
Proof. intros a b H. unfold pathcmp. rewrite H. apply strcmp_refl. Qed.

(** ** The [tsearch] family *)

Section TsearchFacts.

Variable A : Type.
Variable compar : A -> A -> Z.

Hypothesis compar_sym : forall a b, compar a b < 0 <-> 0 < compar b a.
Hypothesis compar_trans :
  forall a b c, compar a b < 0 -> compar b c < 0 -> compar a c < 0.
Hypothesis compar_eq_compat :
  forall a b c, compar a b = 0 -> compar a c = compar b c.

Lemma compar_irrefl : forall a, ~ compar a a < 0.
Proof. intros a H. pose proof (proj1 (compar_sym a a) H). lia. Qed.

Lemma tsearch_fst : forall key t,
  fst (tsearch compar key t) =
  match tfind compar key t with Some x => x | None => key end.
Proof.
  induction t as [|l IHl item r IHr]; simpl; [reflexivity|].
  destruct (compar key item =? 0); [reflexivity|].
  destruct (compar key item <? 0).
  - destruct (tsearch compar key l) as [f l']. simpl in *. exact IHl.
  - destruct (tsearch compar key r) as [f r']. simpl in *. exact IHr.
Qed.

Lemma tsearch_elements : forall key t x,
  In x (elements (snd (tsearch compar key t))) <->
  In x (elements t) \/ (x = key /\ tfind compar key t = None).
Proof.
  induction t as [|l IHl item r IHr]; intro x; simpl.
  - intuition congruence.
  - destruct (compar key item =? 0); simpl.
    + intuition congruence.
    + destruct (compar key item <? 0).
      * destruct (tsearch compar key l) as [f l']. simpl in *.
        rewrite !in_app_iff. simpl. rewrite IHl. tauto.
      * destruct (tsearch compar key r) as [f r']. simpl in *.
        rewrite !in_app_iff. simpl. rewrite IHr. tauto.
Qed.

(** A key already present is found again after any insertion, and it is
    the stored item that is found: [tsearch] never replaces. *)
Lemma tfind_tsearch : forall e key t,
  tfind compar key (snd (tsearch compar e t)) =
  match tfind compar key t with
  | Some x => Some x
  | None => if compar key e =? 0 then Some e else None
  end.
Proof.
  induction t as [|l IHl item r IHr]; simpl.
  - destruct (compar key e =? 0); [reflexivity|].
    destruct (compar key e <? 0); reflexivity.
  - destruct (Z.eqb_spec (compar e item) 0) as [E0|E0]; simpl.
    + destruct (Z.eqb_spec (compar key item) 0) as [K0|K0]; [reflexivity|].
      assert (Hne : compar key e <> 0).
      { intro H. rewrite (compar_eq_compat _ _ item H) in K0. auto. }
      apply Z.eqb_neq in Hne. rewrite Hne.
      clear IHl IHr.
      destruct (compar key item <? 0);
        [destruct (tfind compar key l) | destruct (tfind compar key r)];
        reflexivity.
    + destruct (Z.ltb_spec (compar e item) 0) as [El|El].
      * destruct (tsearch compar e l) as [f l']. simpl in *.
        destruct (Z.eqb_spec (compar key item) 0) as [K0|K0]; [reflexivity|].
        destruct (Z.ltb_spec (compar key item) 0) as [Kl|Kl]; [exact IHl|].
        destruct (tfind compar key r); [reflexivity|].
        destruct (Z.eqb_spec (compar key e) 0) as [H|H]; [|reflexivity].
        rewrite (compar_eq_compat _ _ item H) in Kl. lia.
      * destruct (tsearch compar e r) as [f r']. simpl in *.
        destruct (Z.eqb_spec (compar key item) 0) as [K0|K0]; [reflexivity|].
        destruct (Z.ltb_spec (compar key item) 0) as [Kl|Kl]; [|exact IHr].
        destruct (tfind compar key l); [reflexivity|].
        destruct (Z.eqb_spec (compar key e) 0) as [H|H]; [|reflexivity].
        rewrite (compar_eq_compat _ _ item H) in Kl. lia.
Qed.

Lemma tfind_In : forall key t x,
  tfind compar key t = Some x -> In x (elements t) /\ compar key x = 0.
Proof.
  induction t as [|l IHl item r IHr]; simpl; intros x H; [discriminate|].
  rewrite in_app_iff. simpl.
  destruct (Z.eqb_spec (compar key item) 0) as [K0|K0].
  - inversion H; subst. auto.
  - destruct (compar key item <? 0).
    + destruct (IHl _ H). auto.
    + destruct (IHr _ H). auto.
Qed.

Lemma tsearch_bst : forall key t, bst compar t -> bst compar (snd (tsearch compar key t)).
Proof.
  induction t as [|l IHl item r IHr]; simpl.
  - intros _. repeat split; constructor.
  - intros (Hl & Hr & Fl & Fr).
    destruct (Z.eqb_spec (compar key item) 0) as [K0|K0]; simpl; [tauto|].
    destruct (Z.ltb_spec (compar key item) 0) as [Kl|Kl].
    + pose proof (tsearch_elements key l) as E.
      destruct (tsearch compar key l) as [f l']. simpl in *.
      repeat split; auto.
      apply Forall_forall. intros x Hx. apply E in Hx.
      destruct Hx as [Hx|[-> _]]; [|exact Kl].
      rewrite Forall_forall in Fl. auto.
    + pose proof (tsearch_elements key r) as E.
      destruct (tsearch compar key r) as [f r']. simpl in *.
      repeat split; auto.
      apply Forall_forall. intros x Hx. apply E in Hx.
      destruct Hx as [Hx|[-> _]].
      * rewrite Forall_forall in Fr. auto.
      * apply compar_sym. lia.
Qed.

Lemma tsearch_all_bst : forall keys t,
  bst compar t -> bst compar (tsearch_all compar keys t).
Proof.
  induction keys as [|k keys IH]; simpl; intros t H; [exact H|].
  apply IH. apply tsearch_bst. exact H.
Qed.

Lemma StronglySorted_app : forall (R : A -> A -> Prop) l1 x l2,
  StronglySorted R l1 -> StronglySorted R l2 ->
  Forall (fun y => R y x) l1 -> Forall (R x) l2 ->
  (forall a b, R a x -> R x b -> R a b) ->
  StronglySorted R (l1 ++ x :: l2).
Proof.
  intros R l1 x l2 S1 S2 F1 F2 T.
  induction l1 as [|a l1 IH]; simpl.
  - constructor; assumption.
  - inversion S1; subst. inversion F1; subst.
    constructor; [apply IH; assumption|].
    apply Forall_app. split; [assumption|].
    constructor; [assumption|].
    eapply Forall_impl; [|exact F2]. intros b Hb. apply T; assumption.
Qed.

(** The items of a search tree are strictly ascending, left to right. *)
Lemma bst_sorted : forall t,
  bst compar t -> StronglySorted (fun a b => compar a b < 0) (elements t).
Proof.
  induction t as [|l IHl item r IHr]; simpl.
  - intros _. constructor.
  - intros (Hl & Hr & Fl & Fr).
    apply StronglySorted_app; auto.
    intros a b. apply compar_trans.
Qed.

(** A strictly ascending list is determined by its members. *)
Lemma sorted_unique : forall l1 l2,
  StronglySorted (fun a b => compar a b < 0) l1 ->
  StronglySorted (fun a b => compar a b < 0) l2 ->
  (forall x, In x l1 <-> In x l2) ->
  l1 = l2.
Proof.
  induction l1 as [|a l1 IH]; intros l2 S1 S2 E.
  - destruct l2 as [|b l2]; [reflexivity|].
    exfalso. apply (proj2 (E b)). left. reflexivity.
  - destruct l2 as [|b l2].
    + exfalso. apply (proj1 (E a)). left. reflexivity.
    + apply StronglySorted_inv in S1. destruct S1 as [S1 F1].
      apply StronglySorted_inv in S2. destruct S2 as [S2 F2].
      rewrite Forall_forall in F1, F2.
      assert (Hab : a = b).
      { destruct (proj1 (E a) (or_introl eq_refl)) as [H|H]; [auto|].
        destruct (proj2 (E b) (or_introl eq_refl)) as [H'|H']; [auto|].
        exfalso. apply (compar_irrefl a).
        eapply compar_trans; [apply F1|apply F2]; eassumption. }
      subst b. f_equal. apply IH; auto.
      intro x. split; intro H.
      * destruct (proj1 (E x) (or_intror H)) as [H'|H']; [|exact H'].
        subst x. exfalso. apply (compar_irrefl a). apply F1. exact H.
      * destruct (proj2 (E x) (or_intror H)) as [H'|H']; [|exact H'].
        subst x. exfalso. apply (compar_irrefl a). apply F2. exact H.
Qed.

(** Every item of the tree built by a sequence of [tsearch] calls was one
    of the keys or was there before. *)
Lemma tsearch_all_subset : forall keys t x,
  In x (elements (tsearch_all compar keys t)) -> In x (elements t) \/ In x keys.
Proof.
  induction keys as [|k keys IH]; simpl; intros t x H; [auto|].
  apply IH in H. destruct H as [H|H]; [|auto].
  apply tsearch_elements in H. intuition.
Qed.

Lemma tsearch_all_keeps : forall keys t x,
  In x (elements t) -> In x (elements (tsearch_all compar keys t)).
Proof.
  induction keys as [|k keys IH]; simpl; intros t x H; [exact H|].
  apply IH. apply tsearch_elements. auto.
Qed.

(** When keys that compare equal are equal, every key ends up in the tree. *)
Lemma tsearch_all_complete : forall keys t x,
  (forall a b, (In a keys \/ In a (elements t)) ->
               (In b keys \/ In b (elements t)) -> compar a b = 0 -> a = b) ->
  In x keys -> In x (elements (tsearch_all compar keys t)).
Proof.
  induction keys as [|k keys IH]; simpl; intros t x U H; [contradiction|].
  destruct H as [->|H].
  - apply tsearch_all_keeps. apply tsearch_elements.
    destruct (tfind compar x t) as [y|] eqn:F; [|auto].
    left. apply tfind_In in F. destruct F as [Hy Hc].
    rewrite (U x y); auto.
  - apply IH; [|exact H].
    intros a b Ha Hb. apply U.
    + destruct Ha as [Ha|Ha]; [auto|].
      apply tsearch_elements in Ha. intuition.
    + destruct Hb as [Hb|Hb]; [auto|].
      apply tsearch_elements in Hb. intuition.
Qed.

Lemma tfind_tsearch_all_found : forall keys t key x,
  tfind compar key t = Some x ->
  tfind compar key (tsearch_all compar keys t) = Some x.
Proof.
  induction keys as [|k keys IH]; simpl; intros t key x H; [exact H|].
  apply IH. rewrite tfind_tsearch, H. reflexivity.
Qed.

End TsearchFacts.

(** [twalk] with an action that only works at [postorder] and [leaf]
    visits is a left-to-right pass over the items. *)
Lemma twalk_from_elements :
  forall (A S : Type) (action : A -> VISIT -> Z -> S -> S) (f : A -> S -> S),
  (forall x d s, action x leaf d s = f x s) ->
  (forall x d s, action x postorder d s = f x s) ->
  (forall x d s, action x preorder d s = s) ->
  (forall x d s, action x endorder d s = s) ->
  forall t d s,
    twalk_from action d t s = fold_left (fun s x => f x s) (elements t) s.
Proof.
  intros A S action f Hleaf Hpost Hpre Hend.
  induction t as [|l IHl item r IHr]; intros d s; [reflexivity|].
  cbn [elements]. rewrite fold_left_app. cbn [fold_left].
  rewrite <- (IHl (d + 1)), <- (IHr (d + 1)).
  destruct l as [|ll li lr]; destruct r as [|rl ri rr];
    cbn [twalk_from]; rewrite ?Hpre, ?Hend, ?Hpost, ?Hleaf; reflexivity.
Qed.

(** ** Strings and streams *)

Lemma append_assoc : forall a b c : string, (a ++ b) ++ c = a ++ (b ++ c).
Proof. induction a as [|x a IH]; intros b c; simpl; [reflexivity|]. now rewrite IH. Qed.

Lemma append_nil_r : forall a : string, a ++ EmptyString = a.
Proof. induction a as [|x a IH]; simpl; [reflexivity|]. now rewrite IH. Qed.

Lemma length_append : forall a b : string,
  String.length (a ++ b) = (String.length a + String.length b)%nat.
Proof. induction a as [|x a IH]; intro b; simpl; [reflexivity|]. now rewrite IH. Qed.

Lemma fputs_fputs : forall a b w, fputs b (fputs a w) = fputs (a ++ b) w.
Proof.
  intros a b w. unfold fputs, fputs_to. destruct (fp w) eqn:E; simpl.
  - rewrite E. reflexivity.
  - rewrite E. unfold set_stdout. simpl. now rewrite append_assoc.
  - rewrite E. unfold set_fp_buf. simpl. now rewrite append_assoc.
Qed.

Lemma fputs_nil : forall w, fputs EmptyString w = w.
Proof.
  intro w. unfold fputs, fputs_to. destruct w; simpl.
  destruct fp0; unfold set_stdout, set_fp_buf; simpl;
    rewrite ?append_nil_r; reflexivity.
Qed.

Lemma verbosity_fputs : forall s w, verbosity (fputs s w) = verbosity w.
Proof. intros s w. unfold fputs, fputs_to. destruct (fp w); reflexivity. Qed.

(** ** The classifier *)

Lemma prereq_of_bool : forall p, prereq_of p = if is_prerequisite p then 1 else 0.
Proof.
  intro p. unfold prereq_of, is_prerequisite, verdict_clauses, first_match.
  rewrite !Z.gtb_ltb.
  destruct (tv_sec (snd (times1 p)) <? tv_sec (snd (times2 p))); [reflexivity|].
  destruct ((tv_sec (snd (times2 p)) =? tv_sec (snd (times1 p))) &&
            (tv_nsec (snd (times1 p)) <? tv_nsec (snd (times2 p)))); [reflexivity|].
  destruct (tv_sec (fst (times2 p)) <=? tv_sec (fst (times1 p))); [reflexivity|].
  destruct ((tv_sec (fst (times2 p)) =? tv_sec (fst (times1 p))) &&
            (tv_nsec (fst (times2 p)) <=? tv_nsec (fst (times1 p)))); reflexivity.
Qed.

Lemma post_walk_visit : forall p which d w,
  which = postorder \/ which = leaf ->
  post_walk p which d w = fputs (entry_output (verbosity w) p) w.
Proof.
  intros p which d w H. unfold post_walk, entry_output.
  replace (VISIT_eqb which postorder || VISIT_eqb which leaf) with true
    by (destruct H; subst; reflexivity).
  destruct (negb (prereq_of p =? 0)).
  - rewrite verbosity_fputs.
    destruct (negb (verbosity w =? 0)); rewrite !fputs_fputs.
    + now rewrite append_assoc.
    + reflexivity.
  - destruct (negb (verbosity w =? 0)); [reflexivity|].
    symmetry. apply fputs_nil.
Qed.

Lemma post_walk_skip : forall p which d w,
  which = preorder \/ which = endorder -> post_walk p which d w = w.
Proof. intros p which d w [H|H]; subst; reflexivity. Qed.

Lemma fold_fputs : forall l w,
  fold_left (fun w p => fputs (entry_output (verbosity w) p) w) l w =
  fputs (concat_strings (map (entry_output (verbosity w)) l)) w.
Proof.
  induction l as [|p l IH]; intro w; simpl.
  - symmetry. apply fputs_nil.
  - rewrite IH, verbosity_fputs, fputs_fputs. reflexivity.
Qed.

(** The walk of [main] writes the entries of the tree from left to right. *)
Lemma twalk_post_walk : forall t w,
  twalk t post_walk w = fputs (listing (verbosity w) t) w.
Proof.
  intros t w. unfold twalk, listing.
  rewrite (twalk_from_elements _ _ post_walk
             (fun p w => fputs (entry_output (verbosity w) p) w)).
  - apply fold_fputs.
  - intros. apply post_walk_visit. auto.
  - intros. apply post_walk_visit. auto.
  - intros. apply post_walk_skip. auto.
  - intros. apply post_walk_skip. auto.
Qed.

Lemma quiet_listing : forall l,
  concat_strings (map (entry_output 0) l) = path_lines (prerequisites l).
Proof.
  induction l as [|p l IH]; [reflexivity|].
  unfold path_lines, prerequisites in *. simpl.
  unfold entry_output at 1.
  destruct (negb (prereq_of p =? 0)); simpl; rewrite IH; reflexivity.
Qed.

(** C1, as amended.  The verdict of the classifier is the one the five
    clauses give when read in order, the first that matches deciding; the
    walk writes, entry after entry from left to right, the text of each
    entry; at verbosity zero that text is the list of the paths of the
    prerequisites, one per line; and an entry's text is its path and a
    newline (with the timestamps as a trailing comment when verbose) for a
    prerequisite, nothing for another entry at verbosity zero, and a
    commented line that names the path and the timestamps for another
    entry when verbose. *)
Theorem classifier_decision_and_output :
  forall (t : tree pathentry_s) (w : world) (p : pathentry_s) (v : Z),
    prereq_of p = (if is_prerequisite p then 1 else 0) /\
    twalk t post_walk w = fputs (listing (verbosity w) t) w /\
    listing 0 t = path_lines (prerequisites (elements t)) /\
    entry_output v p =
      match is_prerequisite p, v =? 0 with
      | true, true => path p ++ newline
      | true, false => path p ++ " # " ++ entry_times p ++ newline
      | false, true => EmptyString
      | false, false =>
          "## " ++ fmt_left 24 (path p) ++ ": " ++ entry_times p ++ newline
      end.
Proof.
  intros t w p v. repeat split.
  - apply prereq_of_bool.
  - apply twalk_post_walk.
  - apply quiet_listing.
  - unfold entry_output. rewrite prereq_of_bool.
    destruct (is_prerequisite p); destruct (v =? 0); simpl;
      rewrite ?append_assoc; reflexivity.
Qed.

(** C1, as stated, fails when verbose: an entry that is no prerequisite has
    its path written to the output all the same, in a commented line. *)
Lemma nonprerequisite_path_written_when_verbose :
  prereq_of unread_entry = 0 /\
  classifier_text 1 (TNode TNil unread_entry TNil) =
    "## unused.txt              : a1=0000001099.000000000 m1=0000001100.000000007 a2=0000001099.000000000 m2=0000001100.000000007"
      ++ newline /\
  strstr (classifier_text 1 (TNode TNil unread_entry TNil)) (path unread_entry)
    = true.
Proof. repeat split; vm_compute; reflexivity. Qed.

(** ** Files first seen after the run *)

Lemma merged_entry_new : forall t1 fpath sb,
  tfind pathcmp (post_entry fpath sb) t1 = None ->
  merged_entry t1 fpath sb =
  mkPathentry fpath (mkTimespec (-2) 0, mkTimespec (-1) 0)
    (st_atim sb, st_mtim sb).
Proof.
  intros t1 fpath sb H. unfold merged_entry. rewrite H.
  unfold post_entry, st_atime, st_mtime. simpl.
  destruct sb as [[a an] [m mn] sz]. reflexivity.
Qed.

(** C3, as amended.  A file with no pre-run snapshot enters the
    classification with the times [(-2,0)] and [(-1,0)] in place of the
    pre-run ones, and is not a prerequisite as soon as its modification
    time is later than [(-1,0)], in particular whenever it is at or after
    the epoch; its access time plays no part then. *)
Theorem new_file_not_prerequisite :
  forall (t1 : tree pathentry_s) (fpath : string) (sb : stat),
    tfind pathcmp (post_entry fpath sb) t1 = None ->
    -1 < st_mtime sb \/ (st_mtime sb = -1 /\ 0 < tv_nsec (st_mtim sb)) ->
    times1 (merged_entry t1 fpath sb) = (mkTimespec (-2) 0, mkTimespec (-1) 0) /\
    prereq_of (merged_entry t1 fpath sb) = 0 /\
    is_prerequisite (merged_entry t1 fpath sb) = false /\
    entry_output 0 (merged_entry t1 fpath sb) = EmptyString.
Proof.
  intros t1 fpath sb Hnew Hm.
  assert (P : prereq_of (merged_entry t1 fpath sb) = 0).
  { rewrite (merged_entry_new _ _ _ Hnew). unfold prereq_of, st_mtime in *.
    simpl.
    destruct (Z.gtb_spec (tv_sec (st_mtim sb)) (-1)); [reflexivity|].
    destruct Hm as [Hm|[Hs Hn]]; [lia|].
    rewrite Hs. simpl.
    destruct (Z.gtb_spec (tv_nsec (st_mtim sb)) 0); [reflexivity|lia]. }
  repeat split.
  - rewrite (merged_entry_new _ _ _ Hnew). reflexivity.
  - exact P.
  - pose proof (prereq_of_bool (merged_entry t1 fpath sb)) as B.
    rewrite P in B. destruct (is_prerequisite _); [discriminate|reflexivity].
  - unfold entry_output. rewrite P. reflexivity.
Qed.

Lemma new_file_not_prerequisite_witness :
  times1 (merged_entry TNil "output.txt" fresh_stat) =
    (mkTimespec (-2) 0, mkTimespec (-1) 0) /\
  prereq_of (merged_entry TNil "output.txt" fresh_stat) = 0 /\
  is_prerequisite (merged_entry TNil "output.txt" fresh_stat) = false /\
  entry_output 0 (merged_entry TNil "output.txt" fresh_stat) = EmptyString.
Proof.
  apply (new_file_not_prerequisite TNil "output.txt" fresh_stat).
  - reflexivity.
  - left. reflexivity.
Defined.

(** C3, as stated, fails: a file first seen after the run whose
    modification time lies before [(-1,0)] and whose access time is later
    than [(-2,0)] is listed as a prerequisite. *)
Lemma new_file_with_old_mtime_is_listed :
  tfind pathcmp (post_entry "old.txt" old_stat) TNil = None /\
  times1 (merged_entry TNil "old.txt" old_stat) =
    (mkTimespec (-2) 0, mkTimespec (-1) 0) /\
  prereq_of (merged_entry TNil "old.txt" old_stat) = 1 /\
  classifier_text 0
    (snd (tsearch pathcmp (merged_entry TNil "old.txt" old_stat) TNil)) =
    "old.txt" ++ newline.
Proof. repeat split; vm_compute; reflexivity. Qed.

(** ** The callbacks *)

Lemma pre_callback_tree1 : forall fpath sb tflag w r w',
  nftw_pre_callback fpath sb tflag w = Ret r w' ->
  r = 0 /\
  tree1 w' =
    (if recorded (mkFtw fpath sb tflag)
     then snd (tsearch pathcmp (pre_entry (skip_dot_slash fpath) sb) (tree1 w))
     else tree1 w).
Proof.
  intros fpath sb tflag w r w'. unfold nftw_pre_callback, recorded. simpl.
  destruct (ftw_flag_eqb tflag FTW_F); simpl.
  2: { intro H. inversion H. subst. split; reflexivity. }
  destruct (excluded fpath); simpl.
  1: { intro H. inversion H. subst. split; reflexivity. }
  unfold bind, sys_utimensat, syscall.
  destruct (fault_now w); simpl.
  1: { intro H. discriminate H. }
  destruct (w_fs w (skip_dot_slash fpath)); simpl.
  2: { intro H. discriminate H. }
  destruct (tsearch pathcmp (pre_entry (skip_dot_slash fpath) sb) (tree1 w))
    as [item t] eqn:E.
  simpl. intro H. inversion H. subst. split; reflexivity.
Qed.

Lemma post_callback_effect : forall fpath sb tflag w,
  nftw_post_callback fpath sb tflag w =
  Ret 0
    (if recorded (mkFtw fpath sb tflag)
     then set_tree2
            (snd (tsearch pathcmp
                    (merged_entry (tree1 w) (skip_dot_slash fpath) sb)
                    (tree2 w))) w
     else w).
Proof.
  intros fpath sb tflag w. unfold nftw_post_callback, recorded. simpl.
  destruct (ftw_flag_eqb tflag FTW_F); simpl; [|reflexivity].
  destruct (excluded fpath); simpl; [reflexivity|].
  unfold bind, gets.
  destruct (tsearch pathcmp _ (tree2 w)) as [item t] eqn:E.
  simpl. reflexivity.
Qed.

Lemma wrap_long_pred : forall z,
  LONG_MIN < z <= LONG_MAX -> wrap_long (z - 1) = z - 1.
Proof.
  intros z H. unfold wrap_long, LONG_MIN, LONG_MAX in *.
  rewrite Z.mod_small; lia.
Qed.

Lemma fs_set_same : forall name f fs, fs_set name f fs name = Some f.
Proof. intros. unfold fs_set. now rewrite String.eqb_refl. Qed.

Lemma fs_set_other : forall name f fs n,
  n <> name -> fs_set name f fs n = fs n.
Proof. intros name f fs n H. unfold fs_set. apply String.eqb_neq in H. now rewrite H. Qed.

Lemma fs_remove_same : forall name fs, fs_remove name fs name = None.
Proof. intros. unfold fs_remove. now rewrite String.eqb_refl. Qed.

Lemma fs_remove_other : forall name fs n,
  n <> name -> fs_remove name fs n = fs n.
Proof. intros name fs n H. unfold fs_remove. apply String.eqb_neq in H. now rewrite H. Qed.

Lemma apply_utime_plain : forall spec now old,
  0 <= tv_nsec spec < 1000000000 -> apply_utime spec now old = spec.
Proof.
  intros spec now old H. unfold apply_utime, UTIME_OMIT, UTIME_NOW.
  destruct (Z.eqb_spec (tv_nsec spec) (2 ^ 30 - 2)); [lia|].
  destruct (Z.eqb_spec (tv_nsec spec) (2 ^ 30 - 1)); [lia|]. reflexivity.
Qed.

(** C4, as amended.  For a regular file that is not excluded, the pre-run
    callback records as forced access time the seconds of the modification
    time less one (for any time above the least [long]) with nanoseconds
    zero, and as modification time the one it was given; it applies that
    pair to the file, so that the file keeps its modification time when
    the callback was given the current one, and it hands the entry to
    [tsearch] on [tree1]. *)
Theorem pre_callback_forces_atime :
  forall (fpath : string) (sb : stat) (w : world) (f : file),
    excluded fpath = false ->
    fault_now w = false ->
    w_fs w (skip_dot_slash fpath) = Some f ->
    st_mtim sb = f_mtim f ->
    LONG_MIN < st_mtime sb <= LONG_MAX ->
    0 <= tv_nsec (st_mtim sb) < 1000000000 ->
    times1 (pre_entry (skip_dot_slash fpath) sb) =
      (mkTimespec (st_mtime sb - 1) 0, st_mtim sb) /\
    exists w',
      nftw_pre_callback fpath sb FTW_F w = Ret 0 w' /\
      w_fs w' (skip_dot_slash fpath) =
        Some (mkFile (f_data f) (mkTimespec (st_mtime sb - 1) 0) (f_mtim f)) /\
      w_trace w' =
        (w_trace w ++
         [EvUtimens (skip_dot_slash fpath)
            (mkTimespec (st_mtime sb - 1) 0, st_mtim sb) true])%list /\
      tree1 w' =
        snd (tsearch pathcmp (pre_entry (skip_dot_slash fpath) sb) (tree1 w)).
Proof.
  intros fpath sb w f Hex Hfault Hfile Hm Hrange Hns.
  assert (T : times1 (pre_entry (skip_dot_slash fpath) sb) =
              (mkTimespec (st_mtime sb - 1) 0, st_mtim sb)).
  { unfold pre_entry. simpl. rewrite (wrap_long_pred _ Hrange).
    unfold set_nsec, set_sec, st_mtime. simpl.
    destruct (st_mtim sb). reflexivity. }
  split; [exact T|].
  unfold nftw_pre_callback.
  change (negb (ftw_flag_eqb FTW_F FTW_F)) with false. cbv iota. rewrite Hex.
  remember (pre_entry (skip_dot_slash fpath) sb) as p1 eqn:Ep.
  unfold bind, sys_utimensat, syscall. rewrite Hfault.
  cbn [w_fs tick set_faults]. rewrite Hfile. cbn [negb Z.eqb insist ret].
  destruct (tsearch pathcmp p1 (tree1 w)) as [item t] eqn:E.
  cbn [tree1 log set_trace set_fs tick set_faults]. rewrite E.
  cbn [is_some insist negb ret].
  eexists. split; [reflexivity|].
  cbn [tree1 w_fs w_trace w_now log set_trace set_fs tick set_faults set_tree1 snd].
  rewrite fs_set_same, T. cbn [fst snd].
  rewrite apply_utime_plain by (simpl; lia).
  rewrite apply_utime_plain by exact Hns.
  rewrite Hm. repeat split; reflexivity.
Qed.

Lemma pre_callback_forces_atime_witness :
  times1 (pre_entry (skip_dot_slash "./input.txt") (stat_of Scenario.input_file)) =
    (mkTimespec (st_mtime (stat_of Scenario.input_file) - 1) 0,
     st_mtim (stat_of Scenario.input_file)) /\
  exists w',
    nftw_pre_callback "./input.txt" (stat_of Scenario.input_file) FTW_F
      Scenario.world0 = Ret 0 w' /\
    w_fs w' (skip_dot_slash "./input.txt") =
      Some (mkFile (f_data Scenario.input_file)
              (mkTimespec (st_mtime (stat_of Scenario.input_file) - 1) 0)
              (f_mtim Scenario.input_file)) /\
    w_trace w' =
      (w_trace Scenario.world0 ++
       [EvUtimens (skip_dot_slash "./input.txt")
          (mkTimespec (st_mtime (stat_of Scenario.input_file) - 1) 0,
           st_mtim (stat_of Scenario.input_file)) true])%list /\
    tree1 w' =
      snd (tsearch pathcmp
             (pre_entry (skip_dot_slash "./input.txt")
                (stat_of Scenario.input_file))
             (tree1 Scenario.world0)).
Proof.
  apply (pre_callback_forces_atime "./input.txt"
           (stat_of Scenario.input_file) Scenario.world0 Scenario.input_file).
  - reflexivity.
  - reflexivity.
  - reflexivity.
  - reflexivity.
  - vm_compute. split; [reflexivity|discriminate].
  - vm_compute. split; [discriminate|reflexivity].
Defined.

(** C4, as stated, fails: the forced access time has nanoseconds zero, not
    those of the modification time.  For a file modified at [(1000,5)] the
    callback records and applies [(999,0)], where the modification time
    less one second is [(999,5)]. *)
Lemma forced_atime_drops_nanoseconds :
  let sb := stat_of Scenario.input_file in
  st_mtim sb = mkTimespec 1000 5 /\
  fst (times1 (pre_entry "input.txt" sb)) = mkTimespec 999 0 /\
  fst (times1 (pre_entry "input.txt" sb)) <> minus_one_second (st_mtim sb) /\
  exists w',
    nftw_pre_callback "./input.txt" sb FTW_F Scenario.world0 = Ret 0 w' /\
    option_map f_atim (w_fs w' "input.txt") = Some (mkTimespec 999 0) /\
    option_map f_mtim (w_fs w' "input.txt") = Some (mkTimespec 1000 5).
Proof.
  repeat split; try (vm_compute; congruence).
  eexists. repeat split; vm_compute; reflexivity.
Qed.

Lemma pre_walk_tree1 : forall es w r w',
  nftw_entries es nftw_pre_callback w = Ret r w' ->
  tree1 w' = tsearch_all pathcmp (pre_entries es) (tree1 w).
Proof.
  induction es as [|e es IH]; intros w r w' H.
  - inversion H. reflexivity.
  - cbn [nftw_entries] in H. unfold bind in H.
    destruct (nftw_pre_callback (ftw_fpath e) (ftw_sb e) (ftw_tflag e) w)
      as [r1 w1|site st w1] eqn:E; [|discriminate H].
    apply pre_callback_tree1 in E. destruct E as [-> E].
    cbn [Z.eqb negb] in H. apply IH in H. rewrite H, E.
    unfold pre_entries. cbn [filter].
    replace (recorded e) with
      (recorded (mkFtw (ftw_fpath e) (ftw_sb e) (ftw_tflag e)))
      by (destruct e; reflexivity).
    destruct (recorded _); reflexivity.
Qed.

Lemma set_tree2_same : forall w, set_tree2 (tree2 w) w = w.
Proof. destruct w; reflexivity. Qed.

Lemma post_walk_effect : forall es w,
  nftw_entries es nftw_post_callback w =
  Ret 0 (set_tree2
           (tsearch_all pathcmp (post_entries (tree1 w) es) (tree2 w)) w).
Proof.
  induction es as [|e es IH]; intro w.
  - cbn. now rewrite set_tree2_same.
  - cbn [nftw_entries]. unfold bind. rewrite post_callback_effect.
    cbn [Z.eqb negb]. rewrite IH. f_equal.
    unfold post_entries. cbn [filter].
    replace (recorded e) with
      (recorded (mkFtw (ftw_fpath e) (ftw_sb e) (ftw_tflag e)))
      by (destruct e; reflexivity).
    destruct (recorded _); [|reflexivity].
    destruct w; reflexivity.
Qed.

Lemma tfind_same_path : forall p q t,
  path p = path q -> tfind pathcmp p t = tfind pathcmp q t.
Proof.
  intros p q t H.
  assert (C : forall x, pathcmp p x = pathcmp q x)
    by (intro x; unfold pathcmp; now rewrite H).
  induction t as [|l IHl item r IHr]; [reflexivity|].
  cbn [tfind]. rewrite C, IHl, IHr. reflexivity.
Qed.

(** ** Two sightings of one path before the run *)

(** C5, as amended.  When the pre-run walks meet the same normalized path
    twice, the earlier record stays: if the store had no entry for the path
    when the first sighting was recorded, then after a later walk that
    meets the path again, whatever happened to the files in between, a
    lookup of the path still returns the times of the first sighting. *)
Theorem earlier_record_wins :
  forall (before after es2 : list ftw_entry) (e1 e2 : ftw_entry)
         (w w1 w1' w2 : world) (r1 r2 : Z),
    nftw_entries (before ++ e1 :: after) nftw_pre_callback w = Ret r1 w1 ->
    tfind pathcmp (pre_entry_of e1)
      (tsearch_all pathcmp (pre_entries before) (tree1 w)) = None ->
    recorded e1 = true ->
    tree1 w1' = tree1 w1 ->
    nftw_entries es2 nftw_pre_callback w1' = Ret r2 w2 ->
    In e2 es2 ->
    recorded e2 = true ->
    skip_dot_slash (ftw_fpath e2) = skip_dot_slash (ftw_fpath e1) ->
    tfind pathcmp (pre_entry_of e2) (tree1 w2) = Some (pre_entry_of e1).
Proof.
  intros before after es2 e1 e2 w w1 w1' w2 r1 r2 H1 Hnew R1 Heq H2 _ _ Hpath.
  apply pre_walk_tree1 in H1. apply pre_walk_tree1 in H2.
  rewrite (tfind_same_path (pre_entry_of e2) (pre_entry_of e1))
    by (unfold pre_entry_of, pre_entry; simpl; exact Hpath).
  rewrite H2, Heq, H1.
  apply (tfind_tsearch_all_found _ pathcmp pathcmp_eq_compat).
  unfold pre_entries. rewrite filter_app, map_app. cbn [filter]. rewrite R1.
  cbn [map]. unfold tsearch_all at 1. rewrite fold_left_app. cbn [fold_left].
  apply (tfind_tsearch_all_found _ pathcmp pathcmp_eq_compat).
  rewrite (tfind_tsearch _ pathcmp pathcmp_eq_compat).
  fold (tsearch_all pathcmp (map pre_entry_of (filter recorded before)) (tree1 w)).
  fold (pre_entries before). rewrite Hnew.
  rewrite pathcmp_same_path by reflexivity. reflexivity.
Qed.

Lemma earlier_record_wins_witness :
  tfind pathcmp (pre_entry_of Scenario.seen_from_sub)
    (tree1
       (Scenario.world_of
          (nftw_entries [Scenario.seen_from_sub] nftw_pre_callback
             (Scenario.rewrite_nested
                (Scenario.world_of
                   (nftw_entries [Scenario.seen_from_dot] nftw_pre_callback
                      Scenario.nested_world))))))
  = Some (pre_entry_of Scenario.seen_from_dot).
Proof.
  apply (earlier_record_wins [] [] [Scenario.seen_from_sub]
           Scenario.seen_from_dot Scenario.seen_from_sub
           Scenario.nested_world
           (Scenario.world_of
              (nftw_entries [Scenario.seen_from_dot] nftw_pre_callback
                 Scenario.nested_world))
           (Scenario.rewrite_nested
              (Scenario.world_of
                 (nftw_entries [Scenario.seen_from_dot] nftw_pre_callback
                    Scenario.nested_world)))
           _ 0 0).
  - vm_compute. reflexivity.
  - vm_compute. reflexivity.
  - vm_compute. reflexivity.
  - reflexivity.
  - vm_compute. reflexivity.
  - left. reflexivity.
  - vm_compute. reflexivity.
  - vm_compute. reflexivity.
Defined.

(** C5, as stated, fails: [sub/f] is recorded from [.] with the times
    [(999,0)] and [(1000,5)]; it is rewritten, and the walk of [sub] meets
    it with modification time [(1500,0)]; the store keeps the record made
    from [.], the directory walked first. *)
Lemma later_record_is_dropped :
  exists w1 w2,
    nftw_entries [Scenario.seen_from_dot] nftw_pre_callback
      Scenario.nested_world = Ret 0 w1 /\
    nftw_entries [Scenario.seen_from_sub] nftw_pre_callback
      (Scenario.rewrite_nested w1) = Ret 0 w2 /\
    path (pre_entry_of Scenario.seen_from_dot) =
      path (pre_entry_of Scenario.seen_from_sub) /\
    times1 (pre_entry_of Scenario.seen_from_sub) =
      (mkTimespec 1499 0, mkTimespec 1500 0) /\
    option_map times1 (tfind pathcmp (key_of "sub/f") (tree1 w2)) =
      Some (mkTimespec 999 0, mkTimespec 1000 5) /\
    elements (tree1 w2) = [pre_entry_of Scenario.seen_from_dot].
Proof.
  eexists. eexists.
  split; [vm_compute; reflexivity|].
  split; [vm_compute; reflexivity|].
  repeat split; vm_compute; reflexivity.
Qed.

(** ** The post-run walks *)

Lemma path_post_entry_of : forall t1 e,
  path (post_entry_of t1 e) = skip_dot_slash (ftw_fpath e).
Proof.
  intros t1 e. unfold post_entry_of, merged_entry.
  destruct (tfind pathcmp _ t1); reflexivity.
Qed.

Lemma post_walk_dir_effect : forall walk d w w',
  post_walk_dir walk d w = Ret tt w' ->
  exists es,
    walk (w_fs w) d = Some es /\
    w' = set_tree2
           (tsearch_all pathcmp (post_entries (tree1 w) es) (tree2 w))
           (log (EvNftw d true) (tick w)).
Proof.
  intros walk d w w'. unfold post_walk_dir, nftw, bind, syscall.
  destruct (fault_now w).
  - cbn. intro H. discriminate H.
  - change (w_fs (tick w)) with (w_fs w).
    destruct (walk (w_fs w) d) as [es|].
    + rewrite post_walk_effect. cbn [negb Z.eqb insist ret is_some].
      intro H. inversion H. exists es. split; reflexivity.
    + cbn. intro H. discriminate H.
Qed.

Lemma post_walks_effect : forall walk dirs w w',
  for_each dirs (post_walk_dir walk) w = Ret tt w' ->
  tree1 w' = tree1 w /\ w_fs w' = w_fs w /\ verbosity w' = verbosity w /\
  fp w' = fp w /\ fp_buf w' = fp_buf w /\
  forall x, In x (elements (tree2 w')) ->
    In x (elements (tree2 w)) \/
    exists d es e,
      In d dirs /\ walk (w_fs w) d = Some es /\ In e es /\
      recorded e = true /\ x = post_entry_of (tree1 w) e.
Proof.
  intros walk. induction dirs as [|d dirs IH]; intros w w' H.
  - inversion H. subst. repeat split; auto.
  - cbn [for_each] in H. unfold bind in H.
    destruct (post_walk_dir walk d w) as [[] w1|] eqn:E; [|discriminate H].
    apply post_walk_dir_effect in E. destruct E as (es & Hes & ->).
    apply IH in H. cbn in H.
    destruct H as (T1 & F & V & P & B & Hx).
    repeat split; auto.
    intros x Hin. apply Hx in Hin. destruct Hin as [Hin|Hin].
    + apply (tsearch_all_subset _ pathcmp) in Hin. destruct Hin as [Hin|Hin]; [auto|].
      right. unfold post_entries in Hin. apply in_map_iff in Hin.
      destruct Hin as (e & <- & He). apply filter_In in He.
      exists d, es, e. cbn. tauto.
    + right. destruct Hin as (d' & es' & e & Hd & Hw & He & R & ->).
      exists d', es', e. cbn. tauto.
Qed.

(** ** The order of the classification *)

Lemma StronglySorted_filter : forall (A : Type) (R : A -> A -> Prop) f l,
  StronglySorted R l -> StronglySorted R (filter f l).
Proof.
  intros A R f l H. induction H as [|a l S IH F]; simpl; [constructor|].
  destruct (f a); [|exact IH].
  constructor; [exact IH|].
  rewrite Forall_forall in *. intros x Hx. apply filter_In in Hx. apply F. tauto.
Qed.

Lemma tsearch_all_sorted : forall keys,
  StronglySorted path_lt (elements (tsearch_all pathcmp keys TNil)).
Proof.
  intro keys.
  apply (bst_sorted _ pathcmp pathcmp_trans).
  apply (tsearch_all_bst _ pathcmp pathcmp_sym); exact I.
Qed.

Lemma tsearch_all_members : forall keys x,
  (forall a b, In a keys -> In b keys -> pathcmp a b = 0 -> a = b) ->
  In x (elements (tsearch_all pathcmp keys TNil)) <-> In x keys.
Proof.
  intros keys x U. split; intro H.
  - apply (tsearch_all_subset _ pathcmp) in H. destruct H as [[]|H]. exact H.
  - apply tsearch_all_complete; [|exact H].
    intros a b [Ha|[]] [Hb|[]]. apply U; assumption.
Qed.




(** ** Paths that are gone after the run *)



(** ** The timestamp probe *)

Lemma no_faults_tl : forall k faults,
  no_faults (S k) faults = true -> no_faults k (tl faults) = true.
Proof.
  intros k [|b r] H; unfold no_faults in *.
  - destruct k; reflexivity.
  - cbn in H. apply andb_true_iff in H. tauto.
Qed.

Lemma no_faults_at : forall n k faults,
  no_faults k faults = true -> (n < k)%nat ->
  match Nat.iter n (@tl bool) faults with
  | true :: _ => true
  | _ => false
  end = false.
Proof.
  induction n as [|n IH]; intros k faults H Hn.
  - destruct k; [lia|].
    destruct faults as [|[] r]; cbn in *; try reflexivity. discriminate H.
  - destruct k; [lia|]. rewrite Nat.iter_succ_r.
    apply (IH k); [apply no_faults_tl; exact H | lia].
Qed.

Local Arguments atime_tmp_name : simpl never.
Local Arguments fs_set : simpl never.
Local Arguments fs_remove : simpl never.
Local Arguments wrap_long : simpl never.
Local Arguments atime_after_read : simpl never.

Lemma of_nat_not_m1 : forall n, (Z.of_nat n =? -1) = false.
Proof. intro n. apply Z.eqb_neq. lia. Qed.

Lemma fflush_fp_idle : forall w,
  fp_buf w = EmptyString ->
  w_fs (fflush_fp w) = w_fs w /\ w_trace (fflush_fp w) = w_trace w.
Proof.
  intros w H. unfold fflush_fp. destruct (fp w); auto.
  destruct (w_fs w name); [|auto]. rewrite H. auto.
Qed.

Lemma fflush_fp_keeps : forall w n,
  w_fs w n <> None -> w_fs (fflush_fp w) n <> None.
Proof.
  intros w n H. unfold fflush_fp. destruct (fp w); auto.
  destruct (w_fs w name) eqn:E; [|exact H].
  destruct (String.length (fp_buf w) =? 0)%nat; [exact H|].
  cbn. unfold fs_set. destruct (String.eqb n name); [discriminate|exact H].
Qed.

(** The probe when none of its twelve calls fails. *)
Lemma probe_ok : forall dir w d,
    fp_buf w = EmptyString ->
    w_fs w dir = Some d ->
    w_fs w (atime_tmp_name dir (w_pid w)) = None ->
    no_faults 12 (w_faults w) = true ->
    exists w',
      (probe_atime dir w = Ret tt w' \/
       probe_atime dir w = Exit AtDie EXIT_FAILURE w') /\
      w_trace w' =
        (w_trace w ++
         probe_calls dir (atime_tmp_name dir (w_pid w)) (w_now w)
           (atime_after_read (w_mount w) (w_now w)
              (probe_file_before_read (w_now w))))%list /\
      forall n, w_fs w' n = w_fs w n.
Proof.
  intros dir w d Hbuf Hdir Htmp Hq.
  destruct w as [fs now mount faults pid env err out errs trace prog t1 t2 fp buf v].
  cbn [w_fs w_pid w_faults w_trace w_now w_mount fp_buf] in *. subst buf.
  pose proof (no_faults_at 0 12 faults Hq ltac:(lia)) as F0.
  pose proof (no_faults_at 1 12 faults Hq ltac:(lia)) as F1.
  pose proof (no_faults_at 2 12 faults Hq ltac:(lia)) as F2.
  pose proof (no_faults_at 3 12 faults Hq ltac:(lia)) as F3.
  pose proof (no_faults_at 4 12 faults Hq ltac:(lia)) as F4.
  pose proof (no_faults_at 5 12 faults Hq ltac:(lia)) as F5.
  pose proof (no_faults_at 6 12 faults Hq ltac:(lia)) as F6.
  pose proof (no_faults_at 7 12 faults Hq ltac:(lia)) as F7.
  pose proof (no_faults_at 8 12 faults Hq ltac:(lia)) as F8.
  pose proof (no_faults_at 9 12 faults Hq ltac:(lia)) as F9.
  pose proof (no_faults_at 10 12 faults Hq ltac:(lia)) as F10.
  pose proof (no_faults_at 11 12 faults Hq ltac:(lia)) as F11.
  cbn [Nat.iter nat_rect] in *.
  unfold probe_atime, bind, sys_open_rdonly, sys_open_excl, sys_write,
    sys_fstat, sys_stat, sys_futimens, sys_utimensat, sys_close, sys_read,
    sys_unlink, syscall, insist_fd, insist, gets, ret, fault_now, tick, log,
    set_trace, set_fs, set_faults.
  repeat first
    [ rewrite F0 | rewrite F1 | rewrite F2 | rewrite F3 | rewrite F4
    | rewrite F5 | rewrite F6 | rewrite F7 | rewrite F8 | rewrite F9
    | rewrite F10 | rewrite F11 | rewrite Hdir | rewrite Htmp
    | rewrite fs_set_same | rewrite fs_remove_same
    | rewrite of_nat_not_m1 
    | progress cbn ].
  assert (Hfs : forall f1 f2 f3 f4 n,
             fs_remove (atime_tmp_name dir pid)
               (fs_set (atime_tmp_name dir pid) f1
                  (fs_set (atime_tmp_name dir pid) f2
                     (fs_set (atime_tmp_name dir pid) f3
                        (fs_set (atime_tmp_name dir pid) f4 fs)))) n = fs n).
  { intros f1 f2 f3 f4 n. unfold fs_remove, fs_set.
    destruct (String.eqb_spec n (atime_tmp_name dir pid)) as [->|]; auto. }
  match goal with
  | |- context [if ?c then die _ else _] => destruct c
  end.
  - eexists. split; [right; unfold die, bind, modify, c_exit; reflexivity|].
    match goal with
    | |- context [fflush_fp ?W] =>
        destruct (fflush_fp_idle W eq_refl) as [-> ->]
    end.
    split; [|intro n; apply Hfs].
    cbn [w_trace fputs_stderr set_stderr].
    rewrite <- !app_assoc. reflexivity.
  - eexists. split; [left; reflexivity|].
    split; [|intro n; apply Hfs].
    cbn [w_trace]. rewrite <- !app_assoc. reflexivity.
Qed.

Lemma fault_at : forall n faults,
  nth n faults false = true ->
  match Nat.iter n (@tl bool) faults with
  | true :: _ => true
  | _ => false
  end = true.
Proof.
  induction n as [|n IH]; intros faults H.
  - destruct faults as [|[] r]; cbn in *; congruence.
  - rewrite Nat.iter_succ_r. apply IH.
    destruct faults as [|b r]; cbn in *; [discriminate|exact H].
Qed.

Ltac quiet_fact Hq n :=
  let F := fresh "F" in
  try (pose proof (no_faults_at n _ _ Hq ltac:(lia)) as F;
       cbn [Nat.iter nat_rect] in F).

Ltac probe_run :=
  unfold probe_atime, bind, sys_open_rdonly, sys_open_excl, sys_write,
    sys_fstat, sys_stat, sys_futimens, sys_utimensat, sys_close, sys_read,
    sys_unlink, syscall, insist_fd, insist, gets, ret, fault_now, tick, log,
    set_trace, set_fs, set_faults;
  repeat first
    [ match goal with
      | F : _ = _ |- _ => rewrite F
      end
    | rewrite fs_set_same | rewrite fs_remove_same
    | rewrite of_nat_not_m1
    | progress cbn ].

(** The probe when a call fails after the file was created. *)
Lemma probe_fault : forall dir w d k,
    w_fs w dir = Some d ->
    w_fs w (atime_tmp_name dir (w_pid w)) = None ->
    (3 <= k <= 11)%nat ->
    first_fault k (w_faults w) ->
    exists w',
      probe_atime dir w = Exit AtInsist EXIT_FAILURE w' /\
      w_fs w' (atime_tmp_name dir (w_pid w)) <> None.
Proof.
  intros dir w d k Hdir Htmp Hk [Hq Hf].
  destruct w as [fs now mount faults pid env err out errs trace prog t1 t2 fp buf v].
  cbn [w_fs w_pid w_faults w_trace w_now w_mount fp_buf] in *.
  apply fault_at in Hf.
  assert (K : (k = 3 \/ k = 4 \/ k = 5 \/ k = 6 \/ k = 7 \/ k = 8 \/
               k = 9 \/ k = 10 \/ k = 11)%nat) by lia.
  clear Hk.
  repeat (destruct K as [K|K]); subst k; cbn [Nat.iter nat_rect] in Hf;
    quiet_fact Hq 0%nat; quiet_fact Hq 1%nat; quiet_fact Hq 2%nat;
    quiet_fact Hq 3%nat; quiet_fact Hq 4%nat; quiet_fact Hq 5%nat;
    quiet_fact Hq 6%nat; quiet_fact Hq 7%nat; quiet_fact Hq 8%nat;
    quiet_fact Hq 9%nat; quiet_fact Hq 10%nat; clear Hq;
    probe_run;
    (eexists; split; [unfold bind, modify, c_exit; reflexivity|];
     apply fflush_fp_keeps; cbn [w_fs fputs_stderr set_stderr];
     rewrite fs_set_same; discriminate).
Qed.

(** C2, as amended.  In every watch directory that exists, when the probe
    file does not exist yet and no call fails, the probe makes these calls
    in this order: it opens and closes the directory, creates the file
    [<dir>/audit.<pid>.tmp] exclusively, writes the five bytes of the
    payload, stats it, sets its access time to the second before the
    modification time just read (nanoseconds zero) while leaving the
    modification time alone ([UTIME_OMIT]), closes it, opens it again,
    reads it, closes it, stats it (the modification time is the same as at
    the first [stat]) and unlinks it; the files are then as they were
    before. *)
Theorem probe_sets_atime_back_and_cleans_up :
  forall (dir : string) (w : world) (d : file),
    fp_buf w = EmptyString ->
    w_fs w dir = Some d ->
    w_fs w (atime_tmp_name dir (w_pid w)) = None ->
    no_faults 12 (w_faults w) = true ->
    exists (w' : world) (ostats nstats : stat),
      (probe_atime dir w = Ret tt w' \/
       probe_atime dir w = Exit AtDie EXIT_FAILURE w') /\
      w_trace w' =
        (w_trace w ++
         [ EvOpen dir true;
           EvClose dir true;
           EvCreate (atime_tmp_name dir (w_pid w)) true;
           EvWrite (atime_tmp_name dir (w_pid w)) ("data" ++ newline) true;
           EvStat (atime_tmp_name dir (w_pid w)) (Some ostats);
           EvUtimens (atime_tmp_name dir (w_pid w))
             (mkTimespec (wrap_long (st_mtime ostats - 1)) 0,
              mkTimespec 0 UTIME_OMIT) true;
           EvClose (atime_tmp_name dir (w_pid w)) true;
           EvOpen (atime_tmp_name dir (w_pid w)) true;
           EvRead (atime_tmp_name dir (w_pid w)) true;
           EvClose (atime_tmp_name dir (w_pid w)) true;
           EvStat (atime_tmp_name dir (w_pid w)) (Some nstats);
           EvUnlink (atime_tmp_name dir (w_pid w)) true ])%list /\
      st_size ostats = 5 /\
      st_mtim nstats = st_mtim ostats /\
      (forall old,
         apply_utime (mkTimespec 0 UTIME_OMIT) (w_now w) old = old) /\
      forall n, w_fs w' n = w_fs w n.
Proof.
  intros dir w d Hbuf Hdir Htmp Hq.
  destruct (probe_ok dir w d Hbuf Hdir Htmp Hq) as (w' & Hrun & Htr & Hfs).
  exists w', (mkStat (w_now w) (w_now w) 5),
    (mkStat (atime_after_read (w_mount w) (w_now w)
               (probe_file_before_read (w_now w))) (w_now w) 5).
  split; [exact Hrun|].
  split; [rewrite Htr; reflexivity|].
  split; [reflexivity|].
  split; [reflexivity|].
  split; [intro old; reflexivity|].
  exact Hfs.
Qed.

Lemma probe_sets_atime_back_and_cleans_up_witness :
  exists (w' : world) (ostats nstats : stat),
    (probe_atime "." Scenario.world0 = Ret tt w' \/
     probe_atime "." Scenario.world0 = Exit AtDie EXIT_FAILURE w') /\
    w_trace w' =
      (w_trace Scenario.world0 ++
       [ EvOpen "." true;
         EvClose "." true;
         EvCreate (atime_tmp_name "." (w_pid Scenario.world0)) true;
         EvWrite (atime_tmp_name "." (w_pid Scenario.world0))
           ("data" ++ newline) true;
         EvStat (atime_tmp_name "." (w_pid Scenario.world0)) (Some ostats);
         EvUtimens (atime_tmp_name "." (w_pid Scenario.world0))
           (mkTimespec (wrap_long (st_mtime ostats - 1)) 0,
            mkTimespec 0 UTIME_OMIT) true;
         EvClose (atime_tmp_name "." (w_pid Scenario.world0)) true;
         EvOpen (atime_tmp_name "." (w_pid Scenario.world0)) true;
         EvRead (atime_tmp_name "." (w_pid Scenario.world0)) true;
         EvClose (atime_tmp_name "." (w_pid Scenario.world0)) true;
         EvStat (atime_tmp_name "." (w_pid Scenario.world0)) (Some nstats);
         EvUnlink (atime_tmp_name "." (w_pid Scenario.world0)) true ])%list /\
    st_size ostats = 5 /\
    st_mtim nstats = st_mtim ostats /\
    (forall old,
       apply_utime (mkTimespec 0 UTIME_OMIT) (w_now Scenario.world0) old = old) /\
    forall n, w_fs w' n = w_fs Scenario.world0 n.
Proof.
  apply (probe_sets_atime_back_and_cleans_up "." Scenario.world0
           (mkFile EmptyString (Scenario.at_time 900 0) (Scenario.at_time 900 0))).
  - reflexivity.
  - reflexivity.
  - vm_compute. reflexivity.
  - reflexivity.
Defined.

(** C2, as stated, fails: the probe does not move the modification time of
    its file.  In a directory where the file is written at [(2000,0)], the
    timestamp call asks for the access time [(1999,0)] and omits the
    modification time; the file stopped right after that call has access
    time [(1999,0)] and modification time [(2000,0)], and the last [stat]
    of a full probe still reports the modification time [(2000,0)]. *)
Lemma probe_leaves_mtime_alone :
  (exists w',
     probe_atime "." Scenario.world0 = Ret tt w' /\
     nth 5 (w_trace w') (EvClose EmptyString false) =
       EvUtimens "./audit.77.tmp"
         (mkTimespec 1999 0, mkTimespec 0 UTIME_OMIT) true /\
     nth 10 (w_trace w') (EvClose EmptyString false) =
       EvStat "./audit.77.tmp"
         (Some (mkStat (mkTimespec 2000 0) (mkTimespec 2000 0) 5))) /\
  option_map f_atim
    (w_fs (Scenario.world_of
             (probe_atime "."
                (Scenario.with_faults
                   [false; false; false; false; false; false; true])))
       "./audit.77.tmp") = Some (mkTimespec 1999 0) /\
  option_map f_mtim
    (w_fs (Scenario.world_of
             (probe_atime "."
                (Scenario.with_faults
                   [false; false; false; false; false; false; true])))
       "./audit.77.tmp") = Some (mkTimespec 2000 0).
Proof.
  split; [eexists|]; repeat split; vm_compute; reflexivity.
Qed.

(** C6, as amended.  Let [k] be the number of calls of the probe that
    succeed, [12] when all do.  With [k = 12] the probe creates one file
    and unlinks that file, and the file is gone afterwards.  With
    [3 <= k < 12], that is when the write, the first [stat], the timestamp
    call, a [close], the second [open], the [read], the second [stat] or
    the [unlink] fails, the process exits at once through [insist] with
    the failure status, and the file is still there. *)
Theorem probe_file_fate :
  forall (dir : string) (w : world) (d : file) (k : nat),
    fp_buf w = EmptyString ->
    w_fs w dir = Some d ->
    w_fs w (atime_tmp_name dir (w_pid w)) = None ->
    (3 <= k <= 12)%nat ->
    no_faults k (w_faults w) = true ->
    ((k < 12)%nat -> nth k (w_faults w) false = true) ->
    exists w',
      ((k = 12)%nat /\
       (probe_atime dir w = Ret tt w' \/
        probe_atime dir w = Exit AtDie EXIT_FAILURE w') /\
       (exists calls,
          w_trace w' = (w_trace w ++ calls)%list /\
          filter is_create calls =
            [EvCreate (atime_tmp_name dir (w_pid w)) true] /\
          filter is_unlink calls =
            [EvUnlink (atime_tmp_name dir (w_pid w)) true]) /\
       w_fs w' (atime_tmp_name dir (w_pid w)) = None)
      \/
      ((k < 12)%nat /\
       probe_atime dir w = Exit AtInsist EXIT_FAILURE w' /\
       w_fs w' (atime_tmp_name dir (w_pid w)) <> None).
Proof.
  intros dir w d k Hbuf Hdir Htmp Hk Hq Hf.
  destruct (Nat.eq_dec k 12) as [->|Hne].
  - destruct (probe_ok dir w d Hbuf Hdir Htmp Hq) as (w' & Hrun & Htr & Hfs).
    exists w'. left. split; [reflexivity|]. split; [exact Hrun|].
    split; [|rewrite Hfs; exact Htmp].
    eexists. split; [exact Htr|]. split; reflexivity.
  - destruct (probe_fault dir w d k Hdir Htmp) as (w' & Hrun & Hfs).
    + lia.
    + split; [exact Hq|apply Hf; lia].
    + exists w'. right. split; [lia|]. split; assumption.
Qed.

Lemma probe_file_fate_witness :
  exists w',
    ((3 = 12)%nat /\
     (probe_atime "." (Scenario.with_faults [false; false; false; true]) =
        Ret tt w' \/
      probe_atime "." (Scenario.with_faults [false; false; false; true]) =
        Exit AtDie EXIT_FAILURE w') /\
     (exists calls,
        w_trace w' =
          (w_trace (Scenario.with_faults [false; false; false; true]) ++ calls)%list /\
        filter is_create calls =
          [EvCreate
             (atime_tmp_name "."
                (w_pid (Scenario.with_faults [false; false; false; true])))
             true] /\
        filter is_unlink calls =
          [EvUnlink
             (atime_tmp_name "."
                (w_pid (Scenario.with_faults [false; false; false; true])))
             true]) /\
     w_fs w'
       (atime_tmp_name "."
          (w_pid (Scenario.with_faults [false; false; false; true]))) = None)
    \/
    ((3 < 12)%nat /\
     probe_atime "." (Scenario.with_faults [false; false; false; true]) =
       Exit AtInsist EXIT_FAILURE w' /\
     w_fs w'
       (atime_tmp_name "."
          (w_pid (Scenario.with_faults [false; false; false; true]))) <> None).
Proof.
  apply (probe_file_fate "." (Scenario.with_faults [false; false; false; true])
           (mkFile EmptyString (Scenario.at_time 900 0) (Scenario.at_time 900 0))
           3%nat).
  - reflexivity.
  - reflexivity.
  - vm_compute. reflexivity.
  - lia.
  - reflexivity.
  - intros _. reflexivity.
Defined.

(** C6, as stated, fails: when the write to the probe file fails, the
    process exits with the failure status and the file it has just created
    is still there; the file is never unlinked. *)
Lemma failed_probe_leaves_its_file :
  exists w',
    probe_atime "." (Scenario.with_faults [false; false; false; true]) =
      Exit AtInsist EXIT_FAILURE w' /\
    w_fs w' "./audit.77.tmp" =
      Some (mkFile EmptyString (mkTimespec 2000 0) (mkTimespec 2000 0)) /\
    w_trace w' =
      [ EvOpen "." true; EvClose "." true; EvCreate "./audit.77.tmp" true;
        EvWrite "./audit.77.tmp" ("data" ++ newline) false ] /\
    filter is_unlink (w_trace w') = [].
Proof.
  eexists. split; [vm_compute; reflexivity|].
  repeat split; vm_compute; reflexivity.
Qed.

(** ** The end of [main] *)

Ltac split_cases :=
  repeat match goal with
  | |- context [if ?c then _ else _] => destruct c eqn:?
  | |- context [match ?x with Some _ => _ | None => _ end] => destruct x eqn:?
  end.

Lemma report_status : forall outfile rc w,
  report outfile rc w = with_exit_status rc (report outfile EXIT_SUCCESS w).
Proof.
  intros outfile rc w.
  unfold report, bind, modify, fclose_fp, sys_stat, sys_unlink, syscall,
    c_exit, insist, ret.
  destruct outfile as [name|]; [|reflexivity].
  split_cases; cbn; split_cases; try reflexivity.
Qed.

Lemma post_walk_dir_exit : forall walk d w site st w',
  post_walk_dir walk d w = Exit site st w' -> site = AtInsist /\ st = EXIT_FAILURE.
Proof.
  intros walk d w site st w'. unfold post_walk_dir, nftw, bind, syscall.
  destruct (fault_now w).
  - cbn. intro H. inversion H. auto.
  - change (w_fs (tick w)) with (w_fs w).
    destruct (walk (w_fs w) d) as [es|].
    + rewrite post_walk_effect. cbn [negb Z.eqb insist ret is_some].
      intro H. discriminate H.
    + cbn. intro H. inversion H. auto.
Qed.

Lemma post_walks_exit : forall walk dirs w site st w',
  for_each dirs (post_walk_dir walk) w = Exit site st w' ->
  site = AtInsist /\ st = EXIT_FAILURE.
Proof.
  intros walk. induction dirs as [|d dirs IH]; intros w site st w' H.
  - discriminate H.
  - cbn [for_each] in H. unfold bind in H.
    destruct (post_walk_dir walk d w) as [[] w1|s1 st1 w1] eqn:E.
    + eapply IH. exact H.
    + inversion H; subst. eapply post_walk_dir_exit. exact E.
Qed.

Lemma walk_and_report_status : forall walk o rc w,
  walk_and_report walk o rc w =
  with_exit_status rc (walk_and_report walk o EXIT_SUCCESS w).
Proof.
  intros walk o rc w. unfold walk_and_report, bind.
  destruct (for_each _ _ w) as [[] w1|site st w1] eqn:E.
  - apply report_status.
  - apply post_walks_exit in E. destruct E as [-> ->]. reflexivity.
Qed.

(** The report always ends the process, at [exit(rc)] or in [insist]. *)
Lemma report_exits : forall outfile rc w,
  exists site st w',
    report outfile rc w = Exit site st w' /\
    ((site = AtMain /\ st = rc) \/ (site = AtInsist /\ st = EXIT_FAILURE)).
Proof.
  intros outfile rc w.
  unfold report, bind, modify, fclose_fp, sys_stat, sys_unlink, syscall,
    c_exit, insist, ret.
  destruct outfile as [name|];
    [split_cases; cbn; split_cases|];
    do 3 eexists;
    (split; [reflexivity|]);
    first [left; split; reflexivity | right; split; reflexivity].
Qed.

Lemma walk_and_report_exits : forall walk o rc w,
  exists site st w',
    walk_and_report walk o rc w = Exit site st w' /\
    ((site = AtMain /\ st = rc) \/ (site = AtInsist /\ st = EXIT_FAILURE)).
Proof.
  intros walk o rc w. unfold walk_and_report, bind.
  destruct (for_each _ _ w) as [[] w1|site st w1] eqn:E.
  - apply report_exits.
  - apply post_walks_exit in E. destruct E as [-> ->].
    do 3 eexists. split; [reflexivity|]. right. split; reflexivity.
Qed.

Lemma no_faults_first : forall k faults,
  no_faults (S k) faults = true ->
  match faults with true :: _ => true | _ => false end = false.
Proof.
  intros k [|[] r] H; try reflexivity. discriminate H.
Qed.

Lemma no_faults_split : forall n k faults,
  no_faults (n + k) faults = true ->
  no_faults n faults = true /\ no_faults k (skipn n faults) = true.
Proof.
  induction n as [|n IH]; intros k faults H.
  - split; [reflexivity|exact H].
  - destruct faults as [|b r].
    + split; [reflexivity|]. destruct k; reflexivity.
    + unfold no_faults in *. cbn [Nat.add firstn forallb skipn] in *.
      apply andb_true_iff in H. destruct H as [Hb H].
      destruct (IH k r H) as [H1 H2]. rewrite Hb, H1. split; [reflexivity|exact H2].
Qed.

(** The post-run walks, when no [nftw] fails: one call per watch
    directory, and [tree2] grown by the entries of each walk. *)
Lemma post_walks_run : forall walk dirs w t2',
  no_faults (List.length dirs) (w_faults w) = true ->
  post_walked walk (w_fs w) (tree1 w) dirs (tree2 w) = Some t2' ->
  exists w2,
    for_each dirs (post_walk_dir walk) w = Ret tt w2 /\
    tree2 w2 = t2' /\
    w_trace w2 = (w_trace w ++ map (fun d => EvNftw d true) dirs)%list /\
    w_faults w2 = skipn (List.length dirs) (w_faults w) /\
    w_fs w2 = w_fs w /\ tree1 w2 = tree1 w /\ fp w2 = fp w /\
    fp_buf w2 = fp_buf w /\ verbosity w2 = verbosity w /\
    w_stdout w2 = w_stdout w /\ w_stderr w2 = w_stderr w.
Proof.
  intros walk. induction dirs as [|d dirs IH]; intros w t2' Hq Hw.
  - cbn in Hw. inversion Hw; subst. exists w. cbn [for_each map List.length skipn].
    rewrite app_nil_r. repeat split; reflexivity.
  - cbn [post_walked] in Hw.
    destruct (walk (w_fs w) d) as [es|] eqn:Ew; [|discriminate Hw].
    cbn [List.length] in Hq.
    assert (E : post_walk_dir walk d w =
                Ret tt (set_tree2
                          (tsearch_all pathcmp (post_entries (tree1 w) es)
                             (tree2 w))
                          (log (EvNftw d true) (tick w)))).
    { unfold post_walk_dir, nftw, bind, syscall, fault_now.
      rewrite (no_faults_first _ _ Hq).
      change (w_fs (tick w)) with (w_fs w). rewrite Ew.
      cbn [is_some]. rewrite post_walk_effect.
      cbn [negb Z.eqb insist ret]. reflexivity. }
    destruct (IH (set_tree2
                    (tsearch_all pathcmp (post_entries (tree1 w) es) (tree2 w))
                    (log (EvNftw d true) (tick w))) t2')
      as (w2 & Hrun & H2 & Ht & Hf & Hfs & H1 & Hfp & Hb & Hv & Ho & He).
    + apply no_faults_tl in Hq. exact Hq.
    + exact Hw.
    + exists w2. cbn [for_each]. unfold bind. rewrite E.
      split; [exact Hrun|]. split; [exact H2|].
      split.
      { rewrite Ht. cbn [w_trace set_tree2 log set_trace map].
        rewrite <- app_assoc. reflexivity. }
      split.
      { rewrite Hf. cbn [w_faults set_tree2 log set_trace tick set_faults
                         List.length skipn].
        destruct (w_faults w) as [|b r]; [destruct (List.length dirs)|];
          reflexivity. }
      repeat split; assumption.
Qed.

(** From [system] on, when the post-run walks do not fail: the world in
    which [main] classifies. *)
Lemma run_reaches_report : forall walk shell o command rc w status fs' now' t2',
  shell command (w_fs w) (w_now w) = (status, fs', now') ->
  no_faults (List.length (strtok_all (watchdirs o) ",")) (w_faults w) = true ->
  post_walked walk fs' (tree1 w) (strtok_all (watchdirs o) ",") (tree2 w) =
    Some t2' ->
  exists w2,
    run_and_report walk shell o command rc w =
      report (outfile o) (if status =? 0 then rc else EXIT_FAILURE) w2 /\
    tree2 w2 = t2' /\
    w_trace w2 =
      (w_trace w ++ EvSystem command status ::
       map (fun d => EvNftw d true) (strtok_all (watchdirs o) ","))%list /\
    w_faults w2 =
      skipn (List.length (strtok_all (watchdirs o) ",")) (w_faults w) /\
    w_fs w2 = fs' /\ tree1 w2 = tree1 w /\ fp w2 = fp w /\
    fp_buf w2 = fp_buf w /\ verbosity w2 = verbosity w /\
    w_stdout w2 = w_stdout w /\ w_stderr w2 = w_stderr w.
Proof.
  intros walk shell o command rc w status fs' now' t2' Hs Hq Hw.
  destruct (post_walks_run walk (strtok_all (watchdirs o) ",")
              (log (EvSystem command status) (set_now now' (set_fs fs' w))) t2'
              Hq Hw)
    as (w2 & Hrun & H2 & Ht & Hf & Hfs & H1 & Hfp & Hb & Hv & Ho & He).
  exists w2. split.
  { unfold run_and_report, bind, system. rewrite Hs.
    unfold walk_and_report, bind. rewrite Hrun.
    destruct (status =? 0); reflexivity. }
  split; [exact H2|].
  split.
  { rewrite Ht. cbn [w_trace log set_trace]. rewrite <- app_assoc. reflexivity. }
  repeat split; assumption.
Qed.



(** A whole run of a failing command: its prerequisite is listed, and the
    process then exits with the failure status. *)
Example failing_command_is_still_audited :
  exists w',
    main Scenario.walk Scenario.shell Scenario.glibc_message
      ["/usr/bin/pmash"; "-c"; "cat input.txt > output.txt; false"]
      Scenario.world0 = Exit AtMain EXIT_FAILURE w' /\
    w_stdout w' = "input.txt" ++ newline.
Proof. eexists. split; vm_compute; reflexivity. Qed.

Lemma fflush_fp_empty : forall w, fp_buf w = EmptyString -> fflush_fp w = w.
Proof.
  intros w H. unfold fflush_fp. destruct (fp w); auto.
  destruct (w_fs w name); rewrite ?H; [reflexivity|].
  destruct w; cbn in *; subst; reflexivity.
Qed.

(** The report when the classifier has nothing to write and the two calls
    succeed. *)
Lemma report_removes_unwritten_file : forall name rc w,
  fp w = OutFile name ->
  fp_buf w = EmptyString ->
  listing (verbosity w) (tree2 w) = EmptyString ->
  (forall f, w_fs w name = Some f -> f_data f = EmptyString) ->
  no_faults 2 (w_faults w) = true ->
  exists w',
    report (Some name) rc w = Exit AtMain rc w' /\
    w_fs w' name = None /\
    w_trace w' =
      (w_trace w ++
       match w_fs w name with
       | Some f => [EvStat name (Some (stat_of f)); EvUnlink name true]
       | None => [EvStat name None]
       end)%list.
Proof.
  intros name rc w Hfp Hbuf Hnone Hdata Hq.
  unfold report, bind, modify.
  rewrite twalk_post_walk, Hnone, fputs_nil.
  unfold fclose_fp, modify. rewrite (fflush_fp_empty w Hbuf).
  pose proof (no_faults_at 0 _ _ Hq ltac:(lia)) as F0.
  pose proof (no_faults_at 1 _ _ Hq ltac:(lia)) as F1.
  cbn [Nat.iter nat_rect] in F0, F1.
  unfold sys_stat, sys_unlink, syscall, insist, c_exit, ret, fault_now, tick, log.
  cbn. rewrite F0.
  destruct (w_fs w name) as [f|] eqn:Ef.
  - unfold stat_of. rewrite (Hdata f eq_refl). cbn. rewrite F1, Ef.
    eexists. split; [reflexivity|]. cbn.
    split; [apply fs_remove_same|]. rewrite <- app_assoc. reflexivity.
  - cbn. eexists. split; [reflexivity|]. cbn. split; [exact Ef|reflexivity].
Qed.



(** A whole run at verbosity zero of a command that reads nothing: the
    output file is created, found empty at the end and unlinked. *)
Example quiet_run_removes_empty_output_file :
  exists w',
    main Scenario.walk Scenario.idle_shell Scenario.glibc_message
      ["pmash"; "-c"; "true"; "-o"; "/tmp/deps"]
      Scenario.world0 = Exit AtMain EXIT_SUCCESS w' /\
    w_fs w' "/tmp/deps" = None /\
    hd_error (w_trace w') = Some (EvFopen "/tmp/deps" true) /\
    last (w_trace w') (EvClose EmptyString false) = EvUnlink "/tmp/deps" true.
Proof.
  eexists. split; [vm_compute; reflexivity|].
  repeat split; vm_compute; reflexivity.
Qed.


(** A run that ends before the report leaves the file [fopen] has
    created: on a mount that never sets access times the probe of the
    first watch directory ends the process in [die], and the output file
    stays, empty, although verbosity is zero and no prerequisite was
    found. *)
Example fatal_error_leaves_empty_output_file :
  exists w',
    main Scenario.walk Scenario.idle_shell Scenario.glibc_message
      ["pmash"; "-c"; "true"; "-o"; "/tmp/deps"]
      noatime_world = Exit AtDie EXIT_FAILURE w' /\
    verbosity w' = 0 /\
    prerequisites (elements (tree2 w')) = [] /\
    option_map f_data (w_fs w' "/tmp/deps") = Some EmptyString.
Proof.
  eexists. split; [vm_compute; reflexivity|].
  repeat split; vm_compute; reflexivity.
Qed.

(** * Further properties of the program *)

(** ** The decision rule in closed form *)

(** X1.  The verdict of [post_walk] is: no prerequisite when the post-run
    modification time is later than the pre-run one (seconds, then
    nanoseconds); otherwise a prerequisite exactly when the seconds of the
    post-run access time exceed those of the pre-run access time.  The
    fourth test of the chain never decides, so the nanoseconds of the two
    access times play no part. *)
Theorem verdict_closed_form :
  forall (p : pathentry_s),
    prereq_of p =
      (if ts_ltb (snd (times1 p)) (snd (times2 p)) then 0
       else if tv_sec (fst (times1 p)) <? tv_sec (fst (times2 p)) then 1
       else 0) /\
    forall n1 n2,
      prereq_of
        (mkPathentry (path p)
           (set_nsec n1 (fst (times1 p)), snd (times1 p))
           (set_nsec n2 (fst (times2 p)), snd (times2 p))) =
      prereq_of p.
Proof.
  assert (C : forall p,
             prereq_of p =
             (if ts_ltb (snd (times1 p)) (snd (times2 p)) then 0
              else if tv_sec (fst (times1 p)) <? tv_sec (fst (times2 p)) then 1
              else 0)).
  { intro p. unfold prereq_of, ts_ltb.
    rewrite Z.gtb_ltb. rewrite (Z.gtb_ltb (tv_nsec (snd (times2 p)))).
    rewrite (Z.eqb_sym (tv_sec (snd (times2 p)))).
    destruct (tv_sec (snd (times1 p)) <? tv_sec (snd (times2 p))); [reflexivity|].
    cbn [orb].
    destruct ((tv_sec (snd (times1 p)) =? tv_sec (snd (times2 p))) &&
              (tv_nsec (snd (times1 p)) <? tv_nsec (snd (times2 p))));
      [reflexivity|].
    destruct (Z.leb_spec (tv_sec (fst (times2 p))) (tv_sec (fst (times1 p))))
      as [H|H];
      destruct (Z.ltb_spec (tv_sec (fst (times1 p))) (tv_sec (fst (times2 p))))
        as [H'|H']; try lia; try reflexivity.
    destruct (Z.eqb_spec (tv_sec (fst (times2 p))) (tv_sec (fst (times1 p))));
      [lia|reflexivity]. }
  intro p. split; [apply C|].
  intros n1 n2. rewrite !C. reflexivity.
Qed.

(** ** A file seen before and after the run *)

Lemma merged_entry_found : forall t1 fpath sb p1,
  tfind pathcmp (post_entry fpath sb) t1 = Some p1 ->
  merged_entry t1 fpath sb =
  mkPathentry fpath (times1 p1) (st_atim sb, st_mtim sb).
Proof.
  intros t1 fpath sb p1 H. unfold merged_entry. rewrite H. clear H.
  destruct p1 as [pp [[a an] [m mn]] t2]. destruct sb as [[x xn] [y yn] sz].
  reflexivity.
Qed.

(** X2.  A file recorded before the run and found again after it with the
    modification time it was recorded with is listed as a prerequisite
    exactly when the seconds of its access time are now at least those of
    its modification time (so not when the access time is still the forced
    one, a second earlier). *)
Theorem recorded_file_verdict :
  forall (t1 : tree pathentry_s) (fpath : string) (sb sb' : stat),
    tfind pathcmp (post_entry fpath sb') t1 = Some (pre_entry fpath sb) ->
    LONG_MIN < st_mtime sb <= LONG_MAX ->
    st_mtim sb' = st_mtim sb ->
    prereq_of (merged_entry t1 fpath sb') =
      (if st_mtime sb <=? st_atime sb' then 1 else 0).
Proof.
  intros t1 fpath sb sb' Hfound Hrange Hm.
  rewrite (merged_entry_found _ _ _ _ Hfound).
  unfold prereq_of, pre_entry. cbn [times1 times2 fst snd set_times1 set_path
    calloc_pathentry set_sec set_nsec tv_sec tv_nsec zero_timespec].
  rewrite (wrap_long_pred _ Hrange). rewrite Hm.
  unfold st_mtime, st_atime in *.
  rewrite Z.gtb_ltb, Z.ltb_irrefl, Z.eqb_refl, Z.gtb_ltb, Z.ltb_irrefl.
  cbn [andb].
  destruct (Z.leb_spec (tv_sec (st_atim sb')) (tv_sec (st_mtim sb) - 1));
    destruct (Z.leb_spec (tv_sec (st_mtim sb)) (tv_sec (st_atim sb')));
    try lia; try reflexivity.
  destruct (Z.eqb_spec (tv_sec (st_atim sb')) (tv_sec (st_mtim sb) - 1));
    [lia|reflexivity].
Qed.

Lemma recorded_file_verdict_witness :
  prereq_of
    (merged_entry
       (TNode TNil (pre_entry "input.txt" (stat_of Scenario.input_file)) TNil)
       "input.txt"
       (mkStat (mkTimespec 2005 0) (mkTimespec 1000 5) 2)) =
    (if st_mtime (stat_of Scenario.input_file) <=?
        st_atime (mkStat (mkTimespec 2005 0) (mkTimespec 1000 5) 2)
     then 1 else 0).
Proof.
  apply (recorded_file_verdict
           (TNode TNil (pre_entry "input.txt" (stat_of Scenario.input_file)) TNil)
           "input.txt" (stat_of Scenario.input_file)
           (mkStat (mkTimespec 2005 0) (mkTimespec 1000 5) 2)).
  - vm_compute. reflexivity.
  - vm_compute. split; [reflexivity|discriminate].
  - reflexivity.
Defined.

(** ** What the walks do to the process and to the files *)

Lemma strstr_tail : forall c h n, strstr h n = true -> strstr (String c h) n = true.
Proof. intros c h n H. cbn [strstr]. rewrite H. apply orb_true_r. Qed.

Lemma skip_dot_slash_cases : forall s,
  skip_dot_slash s = s \/ s = String "." (String "/" (skip_dot_slash s)).
Proof.
  intro s. unfold skip_dot_slash.
  destruct s as [|c s']; [left; reflexivity|].
  destruct c as [[] [] [] [] [] [] [] []]; try (left; reflexivity).
  destruct s' as [|d r]; [left; reflexivity|].
  destruct d as [[] [] [] [] [] [] [] []]; try (left; reflexivity).
  right. reflexivity.
Qed.

Lemma strstr_skip_dot_slash : forall s n,
  strstr (skip_dot_slash s) n = true -> strstr s n = true.
Proof.
  intros s n H. destruct (skip_dot_slash_cases s) as [E|E].
  - rewrite <- E. exact H.
  - rewrite E. apply strstr_tail, strstr_tail. exact H.
Qed.

Lemma excluded_skip_dot_slash : forall s,
  excluded s = false -> excluded (skip_dot_slash s) = false.
Proof.
  intros s H. destruct (excluded (skip_dot_slash s)) eqn:E; [|reflexivity].
  rewrite <- H. symmetry. unfold excluded in *.
  apply orb_true_iff in E. destruct E as [E|E].
  - apply orb_true_iff in E.
    destruct E as [E|E]; apply strstr_skip_dot_slash in E; rewrite E.
    + reflexivity.
    + rewrite orb_true_r. reflexivity.
  - apply strstr_skip_dot_slash in E. rewrite E. apply orb_true_r.
Qed.

Lemma recorded_inv : forall e,
  recorded e = true ->
  ftw_tflag e = FTW_F /\ excluded (ftw_fpath e) = false.
Proof.
  intros e H. unfold recorded in H. apply andb_true_iff in H.
  destruct H as [H1 H2]. split.
  - destruct (ftw_tflag e); try discriminate H1. reflexivity.
  - destruct (excluded (ftw_fpath e)); [discriminate H2|reflexivity].
Qed.

(** X3.  After a pre-run walk and a post-run walk started with both trees
    empty, every entry of [tree1] and of [tree2] stems from an entry the
    walk reported as a regular file: its path is the path reported, less a
    leading [./], and holds none of [.git], [.svn], [.swp]. *)
Theorem stored_entries_are_regular_and_unmarked :
  forall (es1 es2 : list ftw_entry) (w w1 wc w2 : world) (r1 r2 : Z),
    tree1 w = TNil ->
    tree2 w = TNil ->
    nftw_entries es1 nftw_pre_callback w = Ret r1 w1 ->
    tree1 wc = tree1 w1 ->
    tree2 wc = tree2 w1 ->
    nftw_entries es2 nftw_post_callback wc = Ret r2 w2 ->
    forall x,
      In x (elements (tree1 w2)) \/ In x (elements (tree2 w2)) ->
      excluded (path x) = false /\
      exists e,
        (In e es1 \/ In e es2) /\ ftw_tflag e = FTW_F /\
        path x = skip_dot_slash (ftw_fpath e).
Proof.
  intros es1 es2 w w1 wc w2 r1 r2 T1 T2 H1 E1 E2 H2 x Hx.
  assert (P1 : tree1 w1 = tsearch_all pathcmp (pre_entries es1) TNil).
  { rewrite <- T1. eapply pre_walk_tree1. exact H1. }
  assert (P2 : tree2 w1 = TNil).
  { clear - H1 T2. revert w H1 T2.
    induction es1 as [|e es IH]; intros w H1 T2.
    - inversion H1; subst. exact T2.
    - cbn [nftw_entries] in H1. unfold bind in H1.
      destruct (nftw_pre_callback (ftw_fpath e) (ftw_sb e) (ftw_tflag e) w)
        as [r w'|] eqn:E; [|discriminate H1].
      assert (T : tree2 w' = tree2 w).
      { clear - E. unfold nftw_pre_callback in E.
        destruct (negb (ftw_flag_eqb (ftw_tflag e) FTW_F));
          [inversion E; reflexivity|].
        destruct (excluded (ftw_fpath e)); [inversion E; reflexivity|].
        unfold bind, sys_utimensat, syscall in E.
        destruct (fault_now w); [discriminate E|].
        change (w_fs (tick w)) with (w_fs w) in E.
        destruct (w_fs w (skip_dot_slash (ftw_fpath e))); [|discriminate E].
        cbn in E.
        destruct (tsearch pathcmp _ (tree1 w)) as [item t].
        cbn in E. inversion E. reflexivity. }
      destruct (pre_callback_tree1 _ _ _ _ _ _ E) as [-> _].
      cbn [Z.eqb negb] in H1. apply (IH w'); [exact H1|].
      rewrite T. exact T2. }
  rewrite post_walk_effect in H2. inversion H2; subst w2. clear H2.
  assert (S1 : tree1 (set_tree2
                 (tsearch_all pathcmp (post_entries (tree1 wc) es2) (tree2 wc)) wc)
               = tree1 wc) by (destruct wc; reflexivity).
  assert (S2 : tree2 (set_tree2
                 (tsearch_all pathcmp (post_entries (tree1 wc) es2) (tree2 wc)) wc)
               = tsearch_all pathcmp (post_entries (tree1 wc) es2) (tree2 wc))
    by (destruct wc; reflexivity).
  rewrite S1, S2, E1, E2, P1, P2 in Hx.
  destruct Hx as [Hx|Hx];
    apply (tsearch_all_subset _ pathcmp) in Hx;
    destruct Hx as [[]|Hx].
  - unfold pre_entries in Hx. apply in_map_iff in Hx.
    destruct Hx as (e & <- & He). apply filter_In in He.
    destruct He as [He R]. apply recorded_inv in R. destruct R as [F X].
    split.
    + apply excluded_skip_dot_slash. exact X.
    + exists e. split; [left; exact He|]. split; [exact F|reflexivity].
  - unfold post_entries in Hx. apply in_map_iff in Hx.
    destruct Hx as (e & <- & He). apply filter_In in He.
    destruct He as [He R]. apply recorded_inv in R. destruct R as [F X].
    rewrite path_post_entry_of. split.
    + apply excluded_skip_dot_slash. exact X.
    + exists e. split; [right; exact He|]. split; [exact F|reflexivity].
Qed.

Lemma stored_entries_are_regular_and_unmarked_witness :
  excluded
    (path (pre_entry_of
             (mkFtw "./input.txt" (stat_of Scenario.input_file) FTW_F))) = false /\
  exists e,
    (In e [mkFtw "./gone.txt" (stat_of Scenario.gone_file) FTW_F;
           mkFtw "./input.txt" (stat_of Scenario.input_file) FTW_F] \/
     In e [mkFtw "./input.txt" (stat_of Scenario.input_file) FTW_F;
           mkFtw "./.git" (stat_of Scenario.input_file) FTW_D]) /\
    ftw_tflag e = FTW_F /\
    path (pre_entry_of
            (mkFtw "./input.txt" (stat_of Scenario.input_file) FTW_F)) =
      skip_dot_slash (ftw_fpath e).
Proof.
  refine (stored_entries_are_regular_and_unmarked
            [mkFtw "./gone.txt" (stat_of Scenario.gone_file) FTW_F;
             mkFtw "./input.txt" (stat_of Scenario.input_file) FTW_F]
            [mkFtw "./input.txt" (stat_of Scenario.input_file) FTW_F;
             mkFtw "./.git" (stat_of Scenario.input_file) FTW_D]
            (set_fs (fs_set "gone.txt" Scenario.gone_file Scenario.files)
               Scenario.world0)
            Scenario.recorded_world Scenario.recorded_world
            (result_world
               (nftw_entries
                  [mkFtw "./input.txt" (stat_of Scenario.input_file) FTW_F;
                   mkFtw "./.git" (stat_of Scenario.input_file) FTW_D]
                  nftw_post_callback Scenario.recorded_world))
            0 0 _ _ _ _ _ _
            (pre_entry_of
               (mkFtw "./input.txt" (stat_of Scenario.input_file) FTW_F)) _).
  - reflexivity.
  - reflexivity.
  - vm_compute. reflexivity.
  - reflexivity.
  - reflexivity.
  - vm_compute. reflexivity.
  - left. vm_compute. right. left. reflexivity.
Defined.

(** The pre-run callback, when it returns. *)
Lemma pre_callback_ret : forall fpath sb tflag w r w',
  nftw_pre_callback fpath sb tflag w = Ret r w' ->
  r = 0 /\
  if recorded (mkFtw fpath sb tflag) then
    exists f,
      w_fs w (skip_dot_slash fpath) = Some f /\
      w' = set_tree1
             (snd (tsearch pathcmp (pre_entry (skip_dot_slash fpath) sb) (tree1 w)))
             (log (EvUtimens (skip_dot_slash fpath)
                     (times1 (pre_entry (skip_dot_slash fpath) sb)) true)
                (set_fs
                   (fs_set (skip_dot_slash fpath)
                      (mkFile (f_data f)
                         (apply_utime
                            (fst (times1 (pre_entry (skip_dot_slash fpath) sb)))
                            (w_now w) (f_atim f))
                         (apply_utime
                            (snd (times1 (pre_entry (skip_dot_slash fpath) sb)))
                            (w_now w) (f_mtim f)))
                      (w_fs w))
                   (tick w)))
  else w' = w.
Proof.
  intros fpath sb tflag w r w'. unfold nftw_pre_callback, recorded.
  cbn [ftw_tflag ftw_fpath].
  destruct (ftw_flag_eqb tflag FTW_F); cbn [negb andb].
  2: { intro H. inversion H. subst. split; reflexivity. }
  destruct (excluded fpath); cbn [negb].
  1: { intro H. inversion H. subst. split; reflexivity. }
  remember (pre_entry (skip_dot_slash fpath) sb) as p1 eqn:Ep.
  unfold bind, sys_utimensat, syscall.
  destruct (fault_now w).
  1: { cbn. intro H. discriminate H. }
  change (w_fs (tick w)) with (w_fs w). change (w_now (tick w)) with (w_now w).
  destruct (w_fs w (skip_dot_slash fpath)) as [f|].
  2: { cbn. intro H. discriminate H. }
  cbn [negb Z.eqb insist ret].
  cbn [tree1 log set_trace set_fs tick set_faults].
  destruct (tsearch pathcmp p1 (tree1 w)) as [item t] eqn:E.
  cbn [is_some insist negb ret snd]. intro H. inversion H.
  split; [reflexivity|]. exists f. split; reflexivity.
Qed.

(** X4.  A pre-run walk that returns has made exactly one [utimensat] call
    for each regular, not excluded entry, in the order of the walk, each
    successful and with the times recorded for the entry, and no other
    call; it has not created, removed or rewritten any file (only times
    change), and has written nothing. *)
Theorem pre_walk_only_sets_times :
  forall (es : list ftw_entry) (w w' : world) (r : Z),
    nftw_entries es nftw_pre_callback w = Ret r w' ->
    r = 0 /\
    w_trace w' = (w_trace w ++ map pre_call (filter recorded es))%list /\
    (forall n, option_map f_data (w_fs w' n) = option_map f_data (w_fs w n)) /\
    tree2 w' = tree2 w /\
    w_stdout w' = w_stdout w /\ w_stderr w' = w_stderr w /\
    fp_buf w' = fp_buf w.
Proof.
  induction es as [|e es IH]; intros w w' r H.
  - inversion H; subst. rewrite app_nil_r. repeat split; reflexivity.
  - cbn [nftw_entries] in H. unfold bind in H.
    destruct (nftw_pre_callback (ftw_fpath e) (ftw_sb e) (ftw_tflag e) w)
      as [r1 w1|] eqn:E; [|discriminate H].
    apply pre_callback_ret in E. destruct E as [-> E].
    cbn [Z.eqb negb] in H. apply IH in H.
    destruct H as (Hr & Htr & Hfs & Ht2 & Ho & He & Hb).
    replace (recorded {| ftw_fpath := ftw_fpath e; ftw_sb := ftw_sb e;
                         ftw_tflag := ftw_tflag e |})
      with (recorded e) in E by (destruct e; reflexivity).
    cbn [filter]. destruct (recorded e).
    + destruct E as (f & Hf & ->).
      cbn [w_trace w_fs tree2 w_stdout w_stderr fp_buf set_tree1 log set_trace
             set_fs tick set_faults] in *.
      split; [exact Hr|]. split.
      { rewrite Htr. cbn [map]. rewrite <- app_assoc. reflexivity. }
      split; [|repeat split; assumption].
      intro n. rewrite Hfs. unfold fs_set.
      destruct (String.eqb_spec n (skip_dot_slash (ftw_fpath e))) as [->|];
        [rewrite Hf|]; reflexivity.
    + subst w1. repeat split; assumption.
Qed.

Lemma pre_walk_only_sets_times_witness :
  0 = 0 /\
  w_trace Scenario.recorded_world =
    (w_trace (set_fs (fs_set "gone.txt" Scenario.gone_file Scenario.files)
                Scenario.world0) ++
     map pre_call
       (filter recorded
          [mkFtw "./gone.txt" (stat_of Scenario.gone_file) FTW_F;
           mkFtw "./input.txt" (stat_of Scenario.input_file) FTW_F]))%list /\
  (forall n,
     option_map f_data (w_fs Scenario.recorded_world n) =
     option_map f_data
       (w_fs (set_fs (fs_set "gone.txt" Scenario.gone_file Scenario.files)
                Scenario.world0) n)) /\
  tree2 Scenario.recorded_world =
    tree2 (set_fs (fs_set "gone.txt" Scenario.gone_file Scenario.files)
             Scenario.world0) /\
  w_stdout Scenario.recorded_world =
    w_stdout (set_fs (fs_set "gone.txt" Scenario.gone_file Scenario.files)
                Scenario.world0) /\
  w_stderr Scenario.recorded_world =
    w_stderr (set_fs (fs_set "gone.txt" Scenario.gone_file Scenario.files)
                Scenario.world0) /\
  fp_buf Scenario.recorded_world =
    fp_buf (set_fs (fs_set "gone.txt" Scenario.gone_file Scenario.files)
              Scenario.world0).
Proof.
  apply (pre_walk_only_sets_times
           [mkFtw "./gone.txt" (stat_of Scenario.gone_file) FTW_F;
            mkFtw "./input.txt" (stat_of Scenario.input_file) FTW_F]
           (set_fs (fs_set "gone.txt" Scenario.gone_file Scenario.files)
              Scenario.world0)
           Scenario.recorded_world 0).
  vm_compute. reflexivity.
Defined.

Lemma post_walk_dir_ret : forall walk d w w',
  post_walk_dir walk d w = Ret tt w' ->
  w_fs w' = w_fs w /\ tree1 w' = tree1 w /\
  w_trace w' = (w_trace w ++ [EvNftw d true])%list /\
  w_stdout w' = w_stdout w /\ w_stderr w' = w_stderr w /\
  fp_buf w' = fp_buf w /\ fp w' = fp w /\ verbosity w' = verbosity w.
Proof.
  intros walk d w w' H. apply post_walk_dir_effect in H.
  destruct H as (es & _ & ->). repeat split; reflexivity.
Qed.

(** X5.  Post-run walks that return have made no call but one [nftw] per
    watch directory, in order: the post-run callback makes no system call
    of its own, so no file is touched by it, the pre-run store [tree1] is
    as it was, and nothing has been written. *)
Theorem post_walks_are_read_only :
  forall (walk_tree : filesys -> string -> option (list ftw_entry))
         (dirs : list string) (w w' : world),
    for_each dirs (post_walk_dir walk_tree) w = Ret tt w' ->
    w_fs w' = w_fs w /\
    tree1 w' = tree1 w /\
    w_trace w' = (w_trace w ++ map (fun d => EvNftw d true) dirs)%list /\
    w_stdout w' = w_stdout w /\ w_stderr w' = w_stderr w /\
    fp_buf w' = fp_buf w.
Proof.
  intros walk_tree. induction dirs as [|d dirs IH]; intros w w' H.
  - inversion H; subst. rewrite app_nil_r. repeat split; reflexivity.
  - cbn [for_each] in H. unfold bind in H.
    destruct (post_walk_dir walk_tree d w) as [[] w1|] eqn:E; [|discriminate H].
    apply post_walk_dir_ret in E.
    destruct E as (F1 & T1 & Tr1 & O1 & E1 & B1 & _ & _).
    apply IH in H. destruct H as (F & T & Tr & O & Er & B).
    rewrite F, T, Tr, O, Er, B, F1, T1, Tr1, O1, E1, B1.
    cbn [map]. rewrite <- app_assoc. repeat split; reflexivity.
Qed.

Lemma post_walks_are_read_only_witness :
  w_fs (result_world
          (for_each ["."] (post_walk_dir Scenario.walk) Scenario.removed_world)) =
    w_fs Scenario.removed_world /\
  tree1 (result_world
           (for_each ["."] (post_walk_dir Scenario.walk) Scenario.removed_world)) =
    tree1 Scenario.removed_world /\
  w_trace (result_world
             (for_each ["."] (post_walk_dir Scenario.walk) Scenario.removed_world)) =
    (w_trace Scenario.removed_world ++ map (fun d => EvNftw d true) ["."])%list /\
  w_stdout (result_world
              (for_each ["."] (post_walk_dir Scenario.walk) Scenario.removed_world)) =
    w_stdout Scenario.removed_world /\
  w_stderr (result_world
              (for_each ["."] (post_walk_dir Scenario.walk) Scenario.removed_world)) =
    w_stderr Scenario.removed_world /\
  fp_buf (result_world
            (for_each ["."] (post_walk_dir Scenario.walk) Scenario.removed_world)) =
    fp_buf Scenario.removed_world.
Proof.
  apply (post_walks_are_read_only Scenario.walk ["."] Scenario.removed_world
           (result_world
              (for_each ["."] (post_walk_dir Scenario.walk)
                 Scenario.removed_world))).
  vm_compute. reflexivity.
Defined.

(** ** The verdict of the probe *)

(** The probe when none of its calls fails, with the test it ends on. *)
Lemma probe_decision : forall dir w d,
    fp_buf w = EmptyString ->
    w_fs w dir = Some d ->
    w_fs w (atime_tmp_name dir (w_pid w)) = None ->
    no_faults 12 (w_faults w) = true ->
    exists w1,
      probe_atime dir w =
        (if atime_behind
              (mkStat (atime_after_read (w_mount w) (w_now w)
                         (probe_file_before_read (w_now w)))
                 (w_now w) 5)
         then @die unit "atimes not updated here" w1
         else Ret tt w1) /\
      w_stderr w1 = w_stderr w /\ w_stdout w1 = w_stdout w /\
      prog w1 = prog w /\ fp_buf w1 = EmptyString /\
      tree1 w1 = tree1 w /\
      w_trace w1 =
        (w_trace w ++
         probe_calls dir (atime_tmp_name dir (w_pid w)) (w_now w)
           (atime_after_read (w_mount w) (w_now w)
              (probe_file_before_read (w_now w))))%list /\
      forall n, w_fs w1 n = w_fs w n.
Proof.
  intros dir w d Hbuf Hdir Htmp Hq.
  destruct w as [fs now mount faults pid env err out errs trace pname t1 t2 strm buf v].
  cbn [w_fs w_pid w_faults w_trace w_now w_mount fp_buf w_stderr w_stdout
       prog tree1] in *.
  subst buf.
  quiet_fact Hq 0%nat; quiet_fact Hq 1%nat; quiet_fact Hq 2%nat;
  quiet_fact Hq 3%nat; quiet_fact Hq 4%nat; quiet_fact Hq 5%nat;
  quiet_fact Hq 6%nat; quiet_fact Hq 7%nat; quiet_fact Hq 8%nat;
  quiet_fact Hq 9%nat; quiet_fact Hq 10%nat; quiet_fact Hq 11%nat.
  clear Hq.
  assert (Hfs : forall f1 f2 f3 f4 n,
             fs_remove (atime_tmp_name dir pid)
               (fs_set (atime_tmp_name dir pid) f1
                  (fs_set (atime_tmp_name dir pid) f2
                     (fs_set (atime_tmp_name dir pid) f3
                        (fs_set (atime_tmp_name dir pid) f4 fs)))) n = fs n).
  { intros f1 f2 f3 f4 n. unfold fs_remove, fs_set.
    destruct (String.eqb_spec n (atime_tmp_name dir pid)) as [->|]; auto. }
  probe_run.
  match goal with
  | |- context [if ?c then die _ else _] =>
      change c with
        (atime_behind
           (mkStat (atime_after_read mount now (probe_file_before_read now))
              now 5))
  end.
  destruct (atime_behind _);
    (eexists; split; [reflexivity|];
     cbn [w_stderr w_stdout prog fp_buf tree1 w_trace w_fs];
     repeat split; try reflexivity;
     [rewrite <- !app_assoc; reflexivity | intro n; apply Hfs]).
Qed.

(** X6.  When none of its calls fails, the probe accepts a directory on a
    mount that sets the access time at every read ([strictatime]) and on
    one that sets it when it is not later than the modification time
    ([relatime]), and leaves the files as they were; on a mount that never
    sets it ([noatime]) the process ends through [die] with the failure
    status and the message [atimes not updated here] on [stderr], the
    probe file being removed all the same. *)
Theorem probe_verdict_by_mount :
  forall (dir : string) (w : world) (d : file),
    fp_buf w = EmptyString ->
    w_fs w dir = Some d ->
    w_fs w (atime_tmp_name dir (w_pid w)) = None ->
    no_faults 12 (w_faults w) = true ->
    LONG_MIN < tv_sec (w_now w) <= LONG_MAX ->
    exists w',
      probe_atime dir w =
        match w_mount w with
        | noatime => Exit AtDie EXIT_FAILURE w'
        | _ => Ret tt w'
        end /\
      w_stderr w' =
        match w_mount w with
        | noatime =>
            w_stderr w ++ prog w ++ ": Error: " ++ "atimes not updated here"
              ++ newline
        | _ => w_stderr w
        end /\
      forall n, w_fs w' n = w_fs w n.
Proof.
  intros dir w d Hbuf Hdir Htmp Hq Hnow.
  destruct (probe_decision dir w d Hbuf Hdir Htmp Hq)
    as (w1 & Hrun & He & _ & Hp & Hb & _ & _ & Hfs).
  assert (Hlt : forall z, (z <? z) = false) by (intro z; apply Z.ltb_irrefl).
  unfold atime_behind, atime_after_read, probe_file_before_read, ts_ltb,
    st_atime, st_mtime in Hrun.
  cbn [st_atim st_mtim f_atim f_mtim tv_sec tv_nsec] in Hrun.
  rewrite (wrap_long_pred _ Hnow) in Hrun.
  destruct (w_mount w);
    cbn [st_atim st_mtim f_atim f_mtim tv_sec tv_nsec] in Hrun.
  - rewrite !Hlt in Hrun. cbn [orb] in Hrun. rewrite andb_false_r in Hrun.
    exists w1. split; [exact Hrun|]. split; assumption.
  - replace (tv_sec (w_now w) <? tv_sec (w_now w) - 1) with false in Hrun
      by (symmetry; apply Z.ltb_ge; lia).
    replace (tv_sec (w_now w) =? tv_sec (w_now w) - 1) with false in Hrun
      by (symmetry; apply Z.eqb_neq; lia).
    cbn [orb andb] in Hrun.
    rewrite !Hlt in Hrun. cbn [orb] in Hrun. rewrite andb_false_r in Hrun.
    exists w1. split; [exact Hrun|]. split; assumption.
  - replace (tv_sec (w_now w) - 1 <? tv_sec (w_now w)) with true in Hrun
      by (symmetry; apply Z.ltb_lt; lia).
    cbn [orb] in Hrun.
    eexists. split; [rewrite Hrun; unfold die, bind, modify, c_exit; reflexivity|].
    rewrite fflush_fp_empty by exact Hb.
    cbn [w_stderr w_fs fputs_stderr set_stderr]. rewrite He, Hp.
    split; [reflexivity|exact Hfs].
Qed.

Lemma probe_verdict_by_mount_witness :
  exists w',
    probe_atime "." Scenario.world0 =
      match w_mount Scenario.world0 with
      | noatime => Exit AtDie EXIT_FAILURE w'
      | _ => Ret tt w'
      end /\
    w_stderr w' =
      match w_mount Scenario.world0 with
      | noatime =>
          w_stderr Scenario.world0 ++ prog Scenario.world0 ++ ": Error: " ++
            "atimes not updated here" ++ newline
      | _ => w_stderr Scenario.world0
      end /\
    forall n, w_fs w' n = w_fs Scenario.world0 n.
Proof.
  apply (probe_verdict_by_mount "." Scenario.world0
           (mkFile EmptyString (Scenario.at_time 900 0) (Scenario.at_time 900 0))).
  - reflexivity.
  - reflexivity.
  - vm_compute. reflexivity.
  - reflexivity.
  - vm_compute. split; [reflexivity|discriminate].
Defined.

(** ** The command line *)

Lemma fputs_stderr_twice : forall a b w,
  fputs_stderr b (fputs_stderr a w) = fputs_stderr (a ++ b) w.
Proof.
  intros a b w. unfold fputs_stderr, set_stderr. cbn.
  now rewrite append_assoc.
Qed.

Lemma fputs_stdout_twice : forall a b w,
  fputs_to b Stdout (fputs_to a Stdout w) = fputs_to (a ++ b) Stdout w.
Proof.
  intros a b w. unfold fputs_to, set_stdout. cbn.
  now rewrite append_assoc.
Qed.

Lemma fputs_stderr_nil : forall w, fputs_stderr EmptyString w = w.
Proof.
  intros w. unfold fputs_stderr. rewrite append_nil_r. destruct w; reflexivity.
Qed.

Lemma usage_exit : forall (A : Type) rc w,
  @usage A rc w =
  Exit AtUsage rc
    (fflush_fp
       (if rc =? EXIT_SUCCESS
        then fputs_to (usage_text (prog w)) Stdout w
        else fputs_stderr (usage_text (prog w)) w)).
Proof.
  intros A rc w. unfold usage, bind, modify, c_exit.
  destruct (rc =? EXIT_SUCCESS).
  - rewrite !fputs_stdout_twice. unfold usage_text.
    rewrite !append_assoc. reflexivity.
  - rewrite !fputs_stderr_twice. unfold usage_text.
    rewrite !append_assoc. reflexivity.
Qed.

(** The world after some calls of [getopt_long] and their cases: the
    messages of the calls are on [stderr] and every [V] has raised the
    verbosity. *)
Lemma options_world_step : forall m d n k w,
  fputs_stderr d (set_verbosity (verbosity w + k + n) (fputs_stderr m w)) =
  fputs_stderr (m ++ d) (set_verbosity (verbosity w + (k + n)) w).
Proof.
  intros m d n k w. unfold fputs_stderr, set_verbosity, set_stderr. cbn.
  rewrite append_assoc, Z.add_assoc. reflexivity.
Qed.

(** One call of [getopt_long] whose result is not [h], and its case. *)
Lemma getopt_loop_step : forall message argv0 r rest o w,
  Ascii.eqb (g_val r) "h" = false ->
  getopt_loop message argv0 (r :: rest) o w =
  getopt_loop message argv0 rest
    (options_of [r] o)
    (fputs_stderr (getopt_diagnostics message argv0 [r])
       (set_verbosity (verbosity w + Z.of_nat (count_opt "V" [r])) w)).
Proof.
  intros message argv0 r rest o w Hh.
  cbn [getopt_loop]. unfold bind at 1.
  unfold options_of, count_opt, getopt_diagnostics, concat_strings.
  cbn [last_arg filter map fold_right].
  rewrite Hh.
  assert (W0 : forall x : world,
             fputs_stderr EmptyString (set_verbosity (verbosity x + 0) x) = x).
  { intro x. rewrite Z.add_0_r, fputs_stderr_nil. destruct x; reflexivity. }
  assert (W1 : forall m (x : world),
             fputs_stderr (m ++ EmptyString)
               (set_verbosity (verbosity x + 0) x) = fputs_stderr m x).
  { intros m x. rewrite Z.add_0_r, append_nil_r. destruct x; reflexivity. }
  assert (O0 : mkOptions (cmdstr o) (outfile o) (watchdirs o) = o)
    by (destruct o; reflexivity).
  destruct (g_error r) as [e|]; unfold modify, ret;
    destruct (Ascii.eqb_spec (g_val r) "c") as [Ec|Nc];
    try (rewrite Ec; cbn [Ascii.eqb Bool.eqb List.length Z.of_nat];
         rewrite ?W0, ?W1; reflexivity);
    destruct (Ascii.eqb_spec (g_val r) "e") as [Ee|Ne];
    try (rewrite Ee; cbn [Ascii.eqb Bool.eqb List.length Z.of_nat];
         rewrite ?W0, ?W1, ?O0; reflexivity);
    destruct (Ascii.eqb_spec (g_val r) "o") as [Eo|No];
    try (rewrite Eo; cbn [Ascii.eqb Bool.eqb List.length Z.of_nat];
         rewrite ?W0, ?W1; reflexivity);
    destruct (Ascii.eqb_spec (g_val r) "V") as [EV|NV];
    try (rewrite EV; cbn [Ascii.eqb Bool.eqb List.length Z.of_nat];
         unfold bind, modify; rewrite ?O0, ?append_nil_r;
         f_equal; unfold fputs_stderr, set_verbosity, set_stderr; cbn;
         rewrite ?append_nil_r; destruct w; reflexivity);
    destruct (Ascii.eqb_spec (g_val r) "w") as [Ew|Nw];
    try (rewrite Ew; cbn [Ascii.eqb Bool.eqb List.length Z.of_nat];
         rewrite ?W0, ?W1; reflexivity);
    cbn [List.length Z.of_nat]; rewrite ?W0, ?W1, ?O0; reflexivity.
Qed.

Lemma options_of_cons : forall r rest o,
  options_of rest (options_of [r] o) = options_of (r :: rest) o.
Proof.
  intros r rest o. unfold options_of. cbn [last_arg cmdstr outfile watchdirs].
  destruct (last_arg "c" rest); destruct (last_arg "o" rest);
    destruct (last_arg "w" rest); reflexivity.
Qed.

Lemma count_opt_cons : forall c r rest,
  Z.of_nat (count_opt c (r :: rest)) =
  Z.of_nat (count_opt c [r]) + Z.of_nat (count_opt c rest).
Proof.
  intros c r rest. unfold count_opt. cbn [filter].
  destruct (Ascii.eqb (g_val r) c); cbn [List.length]; lia.
Qed.

Lemma getopt_diagnostics_cons : forall message argv0 r rest,
  getopt_diagnostics message argv0 (r :: rest) =
  getopt_diagnostics message argv0 [r] ++
  getopt_diagnostics message argv0 rest.
Proof.
  intros. unfold getopt_diagnostics, concat_strings. cbn [map fold_right].
  rewrite append_nil_r. reflexivity.
Qed.

Lemma options_world_cons : forall m d k n w,
  fputs_stderr d
    (set_verbosity
       (verbosity (fputs_stderr m (set_verbosity (verbosity w + k) w)) + n)
       (fputs_stderr m (set_verbosity (verbosity w + k) w))) =
  fputs_stderr (m ++ d) (set_verbosity (verbosity w + (k + n)) w).
Proof.
  intros m d k n w. unfold fputs_stderr, set_verbosity, set_stderr. cbn.
  rewrite append_assoc, Z.add_assoc. reflexivity.
Qed.

(** The option loop when no call returns [h]. *)
Lemma getopt_loop_no_help : forall message argv0 parsed o w,
  has_opt "h" parsed = false ->
  getopt_loop message argv0 parsed o w =
  Ret (options_of parsed o)
    (fputs_stderr (getopt_diagnostics message argv0 parsed)
       (set_verbosity (verbosity w + Z.of_nat (count_opt "V" parsed)) w)).
Proof.
  intros message argv0.
  induction parsed as [|r rest IH]; intros o w H.
  - cbn. unfold options_of. cbn. rewrite Z.add_0_r, fputs_stderr_nil.
    destruct o; destruct w; reflexivity.
  - unfold has_opt in H. cbn [existsb] in H.
    apply orb_false_iff in H. destruct H as [Hh H].
    rewrite (getopt_loop_step _ _ _ _ _ _ Hh), (IH _ _ H).
    rewrite options_of_cons, options_world_cons.
    rewrite <- count_opt_cons, <- getopt_diagnostics_cons. reflexivity.
Qed.

(** The option loop when a call returns [h]. *)
Lemma getopt_loop_help : forall message argv0 parsed o w,
  has_opt "h" parsed = true ->
  getopt_loop message argv0 parsed o w =
  @usage options EXIT_SUCCESS
    (fputs_stderr (getopt_diagnostics message argv0 (through_help parsed))
       (set_verbosity
          (verbosity w + Z.of_nat (count_opt "V" (through_help parsed))) w)).
Proof.
  intros message argv0.
  induction parsed as [|r rest IH]; intros o w H; [discriminate H|].
  unfold has_opt in H. cbn [existsb] in H. cbn [through_help].
  destruct (Ascii.eqb (g_val r) "h") eqn:Hh.
  - cbn [getopt_loop]. rewrite Hh. unfold bind.
    unfold getopt_diagnostics, concat_strings, count_opt.
    cbn [map fold_right filter].
    destruct (Ascii.eqb_spec (g_val r) "h") as [E|]; [|discriminate Hh].
    rewrite E. cbn [Ascii.eqb Bool.eqb List.length Z.of_nat].
    rewrite Z.add_0_r.
    destruct (g_error r) as [e|]; unfold modify, ret.
    + rewrite append_nil_r. reflexivity.
    + rewrite fputs_stderr_nil. destruct w; reflexivity.
  - cbn [orb] in H.
    rewrite (getopt_loop_step _ _ _ _ _ _ Hh), (IH _ _ H).
    rewrite options_world_cons.
    rewrite <- count_opt_cons, <- getopt_diagnostics_cons. reflexivity.
Qed.

(** X7.  The option loop of [main], over the results of the calls of
    [getopt_long]: every call that reports an error has its message on
    [stderr], and a result the switch has no case for, [?] in particular,
    does nothing else.  When a call returns [h] (as it does for
    [--help]), the process ends in [usage] with the success status, the
    later elements of the command line being never looked at; otherwise
    the loop returns, for each of [c], [o] and [w], the argument of the
    last call that returned it (the initial value when there is none),
    and has raised the verbosity by the number of [V]s.  Nothing else of
    the process changes. *)
Theorem option_loop_semantics :
  forall (message : string -> getopt_error -> string) (argv0 : string)
         (parsed : list getopt_result) (o : options) (w : world),
    getopt_loop message argv0 parsed o w =
      if has_opt "h" parsed then
        Exit AtUsage EXIT_SUCCESS
          (fflush_fp
             (fputs_to (usage_text (prog w)) Stdout
                (fputs_stderr
                   (getopt_diagnostics message argv0 (through_help parsed))
                   (set_verbosity
                      (verbosity w +
                       Z.of_nat (count_opt "V" (through_help parsed))) w))))
      else
        Ret (options_of parsed o)
          (fputs_stderr (getopt_diagnostics message argv0 parsed)
             (set_verbosity
                (verbosity w + Z.of_nat (count_opt "V" parsed)) w)).
Proof.
  intros message argv0 parsed o w. destruct (has_opt "h" parsed) eqn:H.
  - rewrite (getopt_loop_help _ _ _ _ _ H). rewrite usage_exit. reflexivity.
  - apply getopt_loop_no_help. exact H.
Qed.

(** X8.  When no call of [getopt_long] returns [c] (nor [h]), [main] ends
    in [usage] with the failure status: [stderr] gets the messages of
    [getopt_long], if any, then the usage text under the last component
    of [argv[0]]; no system call has been made, no file touched and
    nothing written to [stdout]. *)
Theorem missing_command_is_a_usage_error :
  forall (walk_tree : filesys -> string -> option (list ftw_entry))
         (shell : string -> filesys -> timespec -> Z * filesys * timespec)
         (message : string -> getopt_error -> string)
         (argv : list string) (w : world),
    has_opt "h" (getopt_results argv) = false ->
    last_arg "c" (getopt_results argv) = None ->
    fp_buf w = EmptyString ->
    exists w',
      main walk_tree shell message argv w = Exit AtUsage EXIT_FAILURE w' /\
      w_stderr w' =
        w_stderr w ++
        getopt_diagnostics message (hd EmptyString argv) (getopt_results argv)
        ++ usage_text (program_name argv) /\
      w_stdout w' = w_stdout w /\
      w_fs w' = w_fs w /\
      w_trace w' = w_trace w.
Proof.
  intros walk_tree shell message argv w Hh Hc Hbuf.
  unfold main, bind, modify.
  rewrite (getopt_loop_no_help _ _ _ _ _ Hh).
  unfold options_of at 1. cbn [cmdstr]. rewrite Hc.
  rewrite usage_exit.
  change (EXIT_FAILURE =? EXIT_SUCCESS) with false. cbv iota.
  rewrite fflush_fp_empty by exact Hbuf.
  eexists. split; [reflexivity|].
  split; [|repeat split; reflexivity].
  cbn [w_stderr fputs_stderr set_stderr set_verbosity set_prog prog].
  rewrite append_assoc. reflexivity.
Qed.

Lemma missing_command_is_a_usage_error_witness :
  exists w',
    main Scenario.walk Scenario.shell Scenario.glibc_message
      ["/usr/bin/pmash"; "-h"] Scenario.world0 =
      Exit AtUsage EXIT_FAILURE w' /\
    w_stderr w' =
      w_stderr Scenario.world0 ++
      getopt_diagnostics Scenario.glibc_message
        (hd EmptyString ["/usr/bin/pmash"; "-h"])
        (getopt_results ["/usr/bin/pmash"; "-h"])
      ++ usage_text (program_name ["/usr/bin/pmash"; "-h"]) /\
    w_stdout w' = w_stdout Scenario.world0 /\
    w_fs w' = w_fs Scenario.world0 /\
    w_trace w' = w_trace Scenario.world0.
Proof.
  apply (missing_command_is_a_usage_error Scenario.walk Scenario.shell
           Scenario.glibc_message ["/usr/bin/pmash"; "-h"] Scenario.world0).
  - reflexivity.
  - reflexivity.
  - reflexivity.
Defined.

(** X9.  When a call of [getopt_long] returns [h], [main] prints the
    usage text on [stdout] and ends with the success status, whatever the
    other options are and even when there is no command; [stderr] gets
    only the messages of the calls up to that one; no system call has
    been made and no file touched. *)
Theorem help_prints_usage_and_succeeds :
  forall (walk_tree : filesys -> string -> option (list ftw_entry))
         (shell : string -> filesys -> timespec -> Z * filesys * timespec)
         (message : string -> getopt_error -> string)
         (argv : list string) (w : world),
    has_opt "h" (getopt_results argv) = true ->
    fp_buf w = EmptyString ->
    exists w',
      main walk_tree shell message argv w = Exit AtUsage EXIT_SUCCESS w' /\
      w_stdout w' = w_stdout w ++ usage_text (program_name argv) /\
      w_stderr w' =
        w_stderr w ++
        getopt_diagnostics message (hd EmptyString argv)
          (through_help (getopt_results argv)) /\
      w_fs w' = w_fs w /\
      w_trace w' = w_trace w.
Proof.
  intros walk_tree shell message argv w Hh Hbuf.
  unfold main, bind, modify.
  rewrite (getopt_loop_help _ _ _ _ _ Hh).
  rewrite usage_exit.
  change (EXIT_SUCCESS =? EXIT_SUCCESS) with true. cbv iota.
  rewrite fflush_fp_empty by exact Hbuf.
  eexists. split; [reflexivity|]. repeat split; reflexivity.
Qed.

Lemma help_prints_usage_and_succeeds_witness :
  exists w',
    main Scenario.walk Scenario.shell Scenario.glibc_message
      ["pmash"; "-z"; "-o"; "x"; "--help"; "-c"; "true"]
      Scenario.world0 = Exit AtUsage EXIT_SUCCESS w' /\
    w_stdout w' =
      w_stdout Scenario.world0 ++
      usage_text (program_name ["pmash"; "-z"; "-o"; "x"; "--help"; "-c"; "true"]) /\
    w_stderr w' =
      w_stderr Scenario.world0 ++
      getopt_diagnostics Scenario.glibc_message
        (hd EmptyString ["pmash"; "-z"; "-o"; "x"; "--help"; "-c"; "true"])
        (through_help
           (getopt_results ["pmash"; "-z"; "-o"; "x"; "--help"; "-c"; "true"])) /\
    w_fs w' = w_fs Scenario.world0 /\
    w_trace w' = w_trace Scenario.world0.
Proof.
  apply (help_prints_usage_and_succeeds Scenario.walk Scenario.shell
           Scenario.glibc_message
           ["pmash"; "-z"; "-o"; "x"; "--help"; "-c"; "true"]
           Scenario.world0).
  - reflexivity.
  - reflexivity.
Defined.

(** What the two runs above put on [stderr] and [stdout]: [-h] is no
    option, it is reported and the run goes on (here to the missing
    command); [--help] is. *)
Example short_h_is_reported :
  w_stderr
    (result_world
       (main Scenario.walk Scenario.shell Scenario.glibc_message
          ["/usr/bin/pmash"; "-h"] Scenario.world0)) =
    "/usr/bin/pmash: invalid option -- 'h'" ++ newline ++ usage_text "pmash" /\
  w_stderr
    (result_world
       (main Scenario.walk Scenario.shell Scenario.glibc_message
          ["pmash"; "-z"; "-o"; "x"; "--help"; "-c"; "true"]
          Scenario.world0)) =
    "pmash: invalid option -- 'z'" ++ newline.
Proof. split; vm_compute; reflexivity. Qed.

(** Where [h] can come from. *)
Lemma short_options_no_h : forall chars,
  has_opt "h" (fst (short_options short_opts chars)) = false /\
  forall c e, snd (short_options short_opts chars) = Some (c, e) ->
              Ascii.eqb c "h" = false.
Proof.
  induction chars as [|c rest [IH1 IH2]].
  - split; [reflexivity|]. intros c e H. discriminate H.
  - cbn [short_options].
    destruct (if Ascii.eqb c ":" || Ascii.eqb c ";" then None
              else optstring_kind short_opts c) as [k|] eqn:K.
    + assert (Nh : Ascii.eqb c "h" = false).
      { destruct (Ascii.eqb_spec c "h") as [->|]; [|reflexivity].
        vm_compute in K. discriminate K. }
      destruct k.
      * destruct (short_options short_opts rest) as [rs p].
        cbn [fst snd] in *. split; [|exact IH2].
        unfold has_opt in *. cbn [existsb g_val]. rewrite Nh. exact IH1.
      * destruct rest as [|d rest'].
        -- split; [reflexivity|]. intros c0 e H. inversion H; subst. exact Nh.
        -- split; [|intros c0 e H; discriminate H].
           unfold has_opt. cbn [fst existsb g_val]. rewrite Nh. reflexivity.
      * split; [|intros c0 e H; discriminate H].
        unfold has_opt. cbn [fst existsb g_val]. rewrite Nh. reflexivity.
    + destruct (short_options short_opts rest) as [rs p].
      cbn [fst snd] in *. split; [|exact IH2].
      unfold has_opt in *. cbn [existsb g_val]. exact IH1.
Qed.

Lemma is_prefix_refl : forall s, is_prefix s s = true.
Proof.
  induction s as [|c s IH]; [reflexivity|].
  cbn. rewrite Ascii.eqb_refl. exact IH.
Qed.

Lemma find_long_found : forall longopts typed p,
  find_long longopts typed = long_found p ->
  In p longopts /\ is_prefix typed (lo_name p) = true.
Proof.
  intros longopts typed p. unfold find_long.
  destruct (find (fun q => String.eqb (lo_name q) typed) longopts) as [q|] eqn:F.
  - intro H. inversion H; subst q. apply find_some in F.
    destruct F as [Hin E]. apply String.eqb_eq in E. rewrite E.
    split; [exact Hin|apply is_prefix_refl].
  - destruct (filter (fun q => is_prefix typed (lo_name q)) longopts)
      as [|q others] eqn:Fl; [discriminate|].
    destruct (existsb _ others); [discriminate|].
    intro H. inversion H; subst q.
    assert (Hin : In p (filter (fun q => is_prefix typed (lo_name q)) longopts))
      by (rewrite Fl; left; reflexivity).
    apply filter_In in Hin. exact Hin.
Qed.

Lemma split_equals_head : forall text c t v,
  split_equals text = (String c t, v) -> exists text', text = String c text'.
Proof.
  intros [|d text'] c t v H; cbn [split_equals] in H; [discriminate H|].
  destruct (Ascii.eqb d "="); [discriminate H|].
  destruct (split_equals text') as [n v']. inversion H; subst.
  exists text'. reflexivity.
Qed.

Lemma long_option_no_h : forall text,
  is_prefix "h" text = false ->
  has_opt "h" (fst (long_option_of long_opts text)) = false /\
  forall c e, snd (long_option_of long_opts text) = Some (c, e) ->
              Ascii.eqb c "h" = false.
Proof.
  intros text Hp. unfold long_option_of.
  destruct (split_equals text) as [typed value] eqn:S.
  destruct (find_long long_opts typed) as [p| |] eqn:F;
    try (split; [reflexivity|intros c e H; discriminate H]).
  destruct typed as [|c t]; [vm_compute in F; discriminate F|].
  destruct (split_equals_head _ _ _ _ S) as [text' ->].
  cbn [is_prefix] in Hp. rewrite andb_true_r in Hp.
  apply find_long_found in F. destruct F as [Hin Hpre].
  assert (Nh : Ascii.eqb (lo_val p) "h" = false /\
               (lo_has_arg p = no_argument \/ lo_has_arg p = required_argument)).
  { cbn [In long_opts] in Hin.
    destruct Hin as [<-|[<-|[<-|[<-|[<-|[<-|[]]]]]]];
      try (split; [reflexivity|auto]).
    cbn [is_prefix lo_name] in Hpre. apply andb_prop in Hpre.
    destruct Hpre as [Hc _]. rewrite Ascii.eqb_sym in Hc.
    rewrite Hc in Hp. discriminate Hp. }
  destruct Nh as [Nh Harg].
  destruct value as [v|]; destruct Harg as [Ha|Ha]; rewrite Ha;
    (split;
     [unfold has_opt; cbn [fst existsb g_val]; rewrite ?Nh; reflexivity
     |intros c0 e H; try discriminate H; inversion H; subst; exact Nh]).
Qed.

Lemma has_opt_app : forall c l1 l2,
  has_opt c (l1 ++ l2) = has_opt c l1 || has_opt c l2.
Proof. intros. unfold has_opt. apply existsb_app. Qed.

Lemma getopt_scan_no_h : forall args pending,
  (forall c e, pending = Some (c, e) -> Ascii.eqb c "h" = false) ->
  (forall a, In a args -> is_prefix "--h" a = false) ->
  has_opt "h" (fst (getopt_scan short_opts long_opts pending args)) = false.
Proof.
  induction args as [|a rest IH]; intros pending Hp Ha.
  - cbn [getopt_scan]. destruct pending as [[c e]|]; reflexivity.
  - cbn [getopt_scan].
    assert (Hrest : forall b, In b rest -> is_prefix "--h" b = false)
      by (intros b Hb; apply Ha; right; exact Hb).
    destruct pending as [[c e]|].
    + pose proof (IH None ltac:(intros; discriminate) Hrest) as H0.
      destruct (getopt_scan short_opts long_opts None rest) as [rs [os ns]].
      cbn [fst] in *. unfold has_opt in *. cbn [existsb g_val].
      rewrite (Hp c e eq_refl). exact H0.
    + destruct (String.eqb a "--"); [reflexivity|].
      destruct (is_nonoption a).
      * pose proof (IH None ltac:(intros; discriminate) Hrest) as H0.
        destruct (getopt_scan short_opts long_opts None rest) as [rs [os ns]].
        exact H0.
      * assert (Hhere :
          has_opt "h"
            (fst (if is_prefix "--" a
                  then long_option_of long_opts (string_skip 2 a)
                  else short_options short_opts (string_skip 1 a))) = false /\
          forall c e,
            snd (if is_prefix "--" a
                 then long_option_of long_opts (string_skip 2 a)
                 else short_options short_opts (string_skip 1 a)) =
              Some (c, e) -> Ascii.eqb c "h" = false).
        { destruct (is_prefix "--" a) eqn:Hl.
          - apply long_option_no_h.
            pose proof (Ha a (or_introl eq_refl)) as Hn.
            destruct a as [|c1 [|c2 a']]; try discriminate Hl;
              [cbn [is_prefix] in Hl; rewrite andb_false_r in Hl;
               discriminate Hl|].
            cbn [is_prefix] in Hl, Hn. cbn [string_skip].
            apply andb_prop in Hl. destruct Hl as [H1 H2].
            apply andb_prop in H2. destruct H2 as [H2 _].
            rewrite H1, H2 in Hn. cbn [andb] in Hn.
            destruct a' as [|c3 a'']; [reflexivity|].
            cbn [is_prefix] in *. exact Hn.
          - apply short_options_no_h. }
        destruct (if is_prefix "--" a
                  then long_option_of long_opts (string_skip 2 a)
                  else short_options short_opts (string_skip 1 a))
          as [here next].
        cbn [fst snd] in Hhere. destruct Hhere as [H1 H2].
        pose proof (IH next H2 Hrest) as H0.
        destruct (getopt_scan short_opts long_opts next rest) as [rs [os ns]].
        cbn [fst] in *. rewrite has_opt_app, H1, H0. reflexivity.
Qed.

(** X22.  [getopt_long] returns [h], and with it [main] prints the usage
    text and succeeds, only for a command line that has, after
    [argv[0]], an element starting with [--h]: [h] is not among the
    option characters of [short_opts], so [-h] is never the help
    option. *)
Theorem help_needs_the_long_option :
  forall (argv : list string),
    has_opt "h" (getopt_results argv) = true ->
    exists a, In a (tl argv) /\ is_prefix "--h" a = true.
Proof.
  intros argv H.
  destruct (existsb (is_prefix "--h") (tl argv)) eqn:E.
  - apply existsb_exists in E. exact E.
  - exfalso. unfold getopt_results in H.
    rewrite getopt_scan_no_h in H; [discriminate H| |].
    + intros c e Hc. discriminate Hc.
    + intros a Ha.
      destruct (is_prefix "--h" a) eqn:Ea; [|reflexivity].
      assert (existsb (is_prefix "--h") (tl argv) = true)
        by (apply existsb_exists; exists a; split; assumption).
      congruence.
Qed.

Lemma help_needs_the_long_option_witness :
  exists a, In a (tl ["pmash"; "-h"; "--he"]) /\ is_prefix "--h" a = true.
Proof.
  apply (help_needs_the_long_option ["pmash"; "-h"; "--he"]).
  reflexivity.
Defined.

(** X11.  When the output file cannot be opened, [main] ends in [insist]
    with the failure status and a message naming the file, before any
    directory is probed or walked: the failed [fopen] is the only call
    made and no file is touched. *)
Theorem unopenable_output_file_is_fatal :
  forall (walk_tree : filesys -> string -> option (list ftw_entry))
         (shell : string -> filesys -> timespec -> Z * filesys * timespec)
         (message : string -> getopt_error -> string)
         (argv : list string) (w : world) (command name : string),
    has_opt "h" (getopt_results argv) = false ->
    last_arg "c" (getopt_results argv) = Some command ->
    last_arg "o" (getopt_results argv) = Some name ->
    fault_now w = true ->
    exists w',
      main walk_tree shell message argv w = Exit AtInsist EXIT_FAILURE w' /\
      w_trace w' = (w_trace w ++ [EvFopen name false])%list /\
      w_fs w' = w_fs w /\
      w_stderr w' =
        w_stderr w ++
        getopt_diagnostics message (hd EmptyString argv) (getopt_results argv)
        ++ program_name argv ++ ": Error: " ++ name ++ ": " ++
        w_strerror w ++ newline /\
      w_stdout w' = w_stdout w.
Proof.
  intros walk_tree shell message argv w command name Hh Hc Ho Hf.
  unfold main, bind, modify.
  rewrite (getopt_loop_no_help _ _ _ _ _ Hh).
  unfold options_of. cbn [cmdstr outfile]. rewrite Hc, Ho.
  unfold fopen_w_fp, bind, syscall, modify, ret.
  change (fault_now (fputs_stderr _ (set_verbosity _ (set_prog _ w))))
    with (fault_now w).
  rewrite Hf. cbn [insist negb].
  unfold bind, modify, c_exit.
  eexists. split; [reflexivity|].
  split; [reflexivity|]. split; [reflexivity|].
  split; [|reflexivity].
  cbn. rewrite append_assoc. reflexivity.
Qed.

Lemma unopenable_output_file_is_fatal_witness :
  exists w',
    main Scenario.walk Scenario.shell Scenario.glibc_message
      ["pmash"; "-c"; "true"; "-o"; "/no/deps"]
      (Scenario.with_faults [true]) = Exit AtInsist EXIT_FAILURE w' /\
    w_trace w' =
      (w_trace (Scenario.with_faults [true]) ++ [EvFopen "/no/deps" false])%list /\
    w_fs w' = w_fs (Scenario.with_faults [true]) /\
    w_stderr w' =
      w_stderr (Scenario.with_faults [true]) ++
      getopt_diagnostics Scenario.glibc_message
        (hd EmptyString ["pmash"; "-c"; "true"; "-o"; "/no/deps"])
        (getopt_results ["pmash"; "-c"; "true"; "-o"; "/no/deps"]) ++
      program_name ["pmash"; "-c"; "true"; "-o"; "/no/deps"] ++ ": Error: " ++
      "/no/deps" ++ ": " ++ w_strerror (Scenario.with_faults [true]) ++ newline /\
    w_stdout w' = w_stdout (Scenario.with_faults [true]).
Proof.
  apply (unopenable_output_file_is_fatal Scenario.walk Scenario.shell
           Scenario.glibc_message
           ["pmash"; "-c"; "true"; "-o"; "/no/deps"]
           (Scenario.with_faults [true]) "true" "/no/deps").
  - reflexivity.
  - reflexivity.
  - reflexivity.
  - reflexivity.
Defined.

(** ** Stopping before the command *)

Lemma probe_dies_without_atime : forall dir w d,
    fp_buf w = EmptyString ->
    w_fs w dir = Some d ->
    w_fs w (atime_tmp_name dir (w_pid w)) = None ->
    no_faults 12 (w_faults w) = true ->
    LONG_MIN < tv_sec (w_now w) <= LONG_MAX ->
    w_mount w = noatime ->
    exists w',
      probe_atime dir w = Exit AtDie EXIT_FAILURE w' /\
      w_stderr w' =
        w_stderr w ++ prog w ++ ": Error: " ++ "atimes not updated here"
          ++ newline /\
      w_stdout w' = w_stdout w /\
      w_trace w' =
        (w_trace w ++
         probe_calls dir (atime_tmp_name dir (w_pid w)) (w_now w)
           (mkTimespec (tv_sec (w_now w) - 1) 0))%list /\
      forall n, w_fs w' n = w_fs w n.
Proof.
  intros dir w d Hbuf Hdir Htmp Hq Hnow Hm.
  destruct (probe_decision dir w d Hbuf Hdir Htmp Hq)
    as (w1 & Hrun & He & Ho & Hp & Hb & _ & Ht & Hfs).
  rewrite Hm in Hrun, Ht.
  unfold atime_behind, atime_after_read, probe_file_before_read, ts_ltb,
    st_atime, st_mtime in Hrun, Ht.
  cbn [st_atim st_mtim f_atim f_mtim tv_sec tv_nsec] in Hrun, Ht.
  rewrite (wrap_long_pred _ Hnow) in Hrun, Ht.
  cbn [st_atim st_mtim f_atim f_mtim tv_sec tv_nsec] in Hrun.
  replace (tv_sec (w_now w) - 1 <? tv_sec (w_now w)) with true in Hrun
    by (symmetry; apply Z.ltb_lt; lia).
  cbn [orb] in Hrun.
  eexists. split; [rewrite Hrun; unfold die, bind, modify, c_exit; reflexivity|].
  rewrite fflush_fp_empty by exact Hb.
  cbn [w_stderr w_stdout w_trace w_fs fputs_stderr set_stderr].
  rewrite He, Hp.
  split; [reflexivity|]. split; [exact Ho|]. split; [exact Ht|exact Hfs].
Qed.

(** X12.  On a mount that never sets access times, [main] ends through
    [die] at the probe of the first watch directory: the calls made are
    those of the probe alone, so the command is never run and no tree is
    walked; the files are as before and nothing is written to [stdout]. *)
Theorem noatime_mount_stops_the_run :
  forall (walk_tree : filesys -> string -> option (list ftw_entry))
         (shell : string -> filesys -> timespec -> Z * filesys * timespec)
         (message : string -> getopt_error -> string)
         (argv : list string) (w : world)
         (command dir : string) (dirs : list string) (d : file),
    has_opt "h" (getopt_results argv) = false ->
    last_arg "c" (getopt_results argv) = Some command ->
    last_arg "o" (getopt_results argv) = None ->
    strtok_all
      (match last_arg "w" (getopt_results argv) with
       | Some a => a
       | None => "."
       end) "," = dir :: dirs ->
    w_mount w = noatime ->
    fp_buf w = EmptyString ->
    w_fs w dir = Some d ->
    w_fs w (atime_tmp_name dir (w_pid w)) = None ->
    no_faults 12 (w_faults w) = true ->
    LONG_MIN < tv_sec (w_now w) <= LONG_MAX ->
    exists w',
      main walk_tree shell message argv w = Exit AtDie EXIT_FAILURE w' /\
      w_trace w' =
        (w_trace w ++
         probe_calls dir (atime_tmp_name dir (w_pid w)) (w_now w)
           (mkTimespec (tv_sec (w_now w) - 1) 0))%list /\
      filter is_system (w_trace w') = filter is_system (w_trace w) /\
      w_stderr w' =
        w_stderr w ++
        getopt_diagnostics message (hd EmptyString argv) (getopt_results argv)
        ++ program_name argv ++ ": Error: " ++
        "atimes not updated here" ++ newline /\
      w_stdout w' = w_stdout w /\
      forall n, w_fs w' n = w_fs w n.
Proof.
  intros walk_tree shell message argv w command dir dirs d
    Hh Hc Ho Hw Hm Hbuf Hdir Htmp Hq Hnow.
  unfold main, bind, modify.
  rewrite (getopt_loop_no_help _ _ _ _ _ Hh).
  unfold options_of. cbn [cmdstr outfile watchdirs]. rewrite Hc, Ho, Hw.
  cbn [for_each]. unfold pre_walk at 1. unfold bind at 1 2 3.
  match goal with
  | |- context [probe_atime dir ?W] =>
      destruct (probe_dies_without_atime dir W d Hbuf Hdir Htmp Hq Hnow Hm)
        as (w' & Hrun & He & Hout & Ht & Hfs)
  end.
  rewrite Hrun. exists w'.
  split; [reflexivity|].
  split; [exact Ht|].
  split.
  { cbn [w_trace set_fp set_verbosity set_prog fputs_stderr set_stderr] in Ht.
    rewrite Ht.
    rewrite filter_app. unfold probe_calls. cbn [filter is_system].
    apply app_nil_r. }
  split; [|split; [exact Hout|exact Hfs]].
  rewrite He.
  cbn [w_stderr prog set_fp set_verbosity set_prog fputs_stderr set_stderr].
  rewrite append_assoc. reflexivity.
Qed.

Lemma noatime_mount_stops_the_run_witness :
  exists w',
    main Scenario.walk Scenario.shell Scenario.glibc_message
      ["pmash"; "-c"; "make"] noatime_world =
      Exit AtDie EXIT_FAILURE w' /\
    w_trace w' =
      (w_trace noatime_world ++
       probe_calls "."
         (atime_tmp_name "." (w_pid noatime_world))
         (w_now noatime_world)
         (mkTimespec (tv_sec (w_now noatime_world) - 1) 0))%list /\
    filter is_system (w_trace w') =
      filter is_system (w_trace noatime_world) /\
    w_stderr w' =
      w_stderr noatime_world ++
      getopt_diagnostics Scenario.glibc_message
        (hd EmptyString ["pmash"; "-c"; "make"])
        (getopt_results ["pmash"; "-c"; "make"]) ++
      program_name ["pmash"; "-c"; "make"] ++ ": Error: " ++
      "atimes not updated here" ++ newline /\
    w_stdout w' = w_stdout noatime_world /\
    forall n, w_fs w' n = w_fs noatime_world n.
Proof.
  apply (noatime_mount_stops_the_run Scenario.walk Scenario.shell
           Scenario.glibc_message ["pmash"; "-c"; "make"]
           noatime_world "make" "." []
           (mkFile EmptyString (Scenario.at_time 900 0) (Scenario.at_time 900 0))).
  - reflexivity.
  - reflexivity.
  - reflexivity.
  - vm_compute. reflexivity.
  - reflexivity.
  - reflexivity.
  - reflexivity.
  - vm_compute. reflexivity.
  - reflexivity.
  - vm_compute. split; [reflexivity|discriminate].
Defined.

(** ** The report *)

Lemma length_zero_eqb : forall s : string,
  s <> EmptyString -> (String.length s =? 0)%nat = false.
Proof. intros [|c s] H; [contradiction|reflexivity]. Qed.

(** X13.  When the classification writes something and the output file
    was opened empty, the report leaves the file on disk holding exactly
    the listing, stamped with the current time; the only call made is the
    [stat] that finds it non-empty, no other file is touched and the run
    ends with the status it was given. *)
Theorem written_output_file_is_kept :
  forall (name : string) (rc : Z) (w : world) (f : file),
    fp w = OutFile name ->
    fp_buf w = EmptyString ->
    w_fs w name = Some f ->
    f_data f = EmptyString ->
    listing (verbosity w) (tree2 w) <> EmptyString ->
    fault_now w = false ->
    exists w',
      report (Some name) rc w = Exit AtMain rc w' /\
      w_fs w' name =
        Some (mkFile (listing (verbosity w) (tree2 w)) (f_atim f) (w_now w)) /\
      (forall n, n <> name -> w_fs w' n = w_fs w n) /\
      w_trace w' =
        (w_trace w ++
         [EvStat name
            (Some (mkStat (f_atim f) (w_now w)
                     (Z.of_nat (String.length
                                  (listing (verbosity w) (tree2 w))))))])%list.
Proof.
  intros name rc w f Hfp Hbuf Hf Hdata Hne Hq.
  unfold report, bind, modify.
  rewrite twalk_post_walk.
  remember (listing (verbosity w) (tree2 w)) as out eqn:Eout.
  unfold fputs. rewrite Hfp. cbn [fputs_to]. rewrite Hbuf. cbn [append].
  unfold fclose_fp, modify, fflush_fp.
  cbn [fp set_fp_buf w_fs fp_buf w_now]. rewrite Hfp, Hf.
  rewrite (length_zero_eqb out Hne).
  unfold overlay. rewrite Hdata.
  replace (string_skip (String.length out) EmptyString) with EmptyString
    by (destruct (String.length out); reflexivity).
  rewrite append_nil_r.
  unfold sys_stat, syscall, insist, c_exit, ret.
  change (fault_now (set_fp _ _)) with (fault_now w). rewrite Hq.
  unfold tick, log.
  cbn [w_fs set_fp set_fp_buf set_fs set_faults set_trace w_trace w_faults].
  rewrite fs_set_same. unfold stat_of. cbn [f_data f_atim f_mtim is_some andb
    stat_or_zero st_size].
  replace (Z.of_nat (String.length out) =? 0) with false
    by (symmetry; apply Z.eqb_neq; destruct out; [contradiction|cbn; lia]).
  unfold fflush_fp. cbn [fp set_trace set_faults set_fp].
  eexists. split; [reflexivity|].
  cbn [w_fs w_trace].
  split; [apply fs_set_same|].
  split; [intros n Hn; apply fs_set_other; exact Hn|reflexivity].
Qed.

Lemma written_output_file_is_kept_witness :
  exists w',
    report (Some "/tmp/deps") EXIT_SUCCESS listed_world =
      Exit AtMain EXIT_SUCCESS w' /\
    w_fs w' "/tmp/deps" =
      Some (mkFile (listing (verbosity listed_world) (tree2 listed_world))
              (f_atim (mkFile EmptyString (Scenario.at_time 2000 0)
                         (Scenario.at_time 2000 0)))
              (w_now listed_world)) /\
    (forall n, n <> "/tmp/deps" -> w_fs w' n = w_fs listed_world n) /\
    w_trace w' =
      (w_trace listed_world ++
       [EvStat "/tmp/deps"
          (Some (mkStat
                   (f_atim (mkFile EmptyString (Scenario.at_time 2000 0)
                              (Scenario.at_time 2000 0)))
                   (w_now listed_world)
                   (Z.of_nat (String.length
                                (listing (verbosity listed_world)
                                   (tree2 listed_world))))))])%list.
Proof.
  apply (written_output_file_is_kept "/tmp/deps" EXIT_SUCCESS listed_world
           (mkFile EmptyString (Scenario.at_time 2000 0)
              (Scenario.at_time 2000 0))).
  - reflexivity.
  - reflexivity.
  - vm_compute. reflexivity.
  - reflexivity.
  - vm_compute. discriminate.
  - reflexivity.
Defined.

(** ** A watch directory that cannot be opened *)

(** X14.  When the first watch directory cannot be opened, [main] ends in
    [insist] with the failure status and a message naming the directory;
    the failed [open] is the only call made, so nothing is created,
    walked or run. *)
Theorem unopenable_watch_directory_is_fatal :
  forall (walk_tree : filesys -> string -> option (list ftw_entry))
         (shell : string -> filesys -> timespec -> Z * filesys * timespec)
         (message : string -> getopt_error -> string)
         (argv : list string) (w : world)
         (command dir : string) (dirs : list string),
    has_opt "h" (getopt_results argv) = false ->
    last_arg "c" (getopt_results argv) = Some command ->
    last_arg "o" (getopt_results argv) = None ->
    strtok_all
      (match last_arg "w" (getopt_results argv) with
       | Some a => a
       | None => "."
       end) "," = dir :: dirs ->
    (fault_now w = true \/ w_fs w dir = None) ->
    exists w',
      main walk_tree shell message argv w = Exit AtInsist EXIT_FAILURE w' /\
      w_trace w' = (w_trace w ++ [EvOpen dir false])%list /\
      w_fs w' = w_fs w /\
      w_stderr w' =
        w_stderr w ++
        getopt_diagnostics message (hd EmptyString argv) (getopt_results argv)
        ++ program_name argv ++ ": Error: " ++ dir ++ ": " ++
        w_strerror w ++ newline /\
      w_stdout w' = w_stdout w.
Proof.
  intros walk_tree shell message argv w command dir dirs Hh Hc Ho Hw Hbad.
  unfold main, bind, modify.
  rewrite (getopt_loop_no_help _ _ _ _ _ Hh).
  unfold options_of. cbn [cmdstr outfile watchdirs]. rewrite Hc, Ho, Hw.
  cbn [for_each]. unfold pre_walk at 1, probe_atime.
  unfold bind at 1 2 3 4. unfold sys_open_rdonly, syscall.
  change (fault_now (set_fp _ _)) with (fault_now w).
  unfold tick, log.
  cbn [w_fs set_fp set_verbosity set_prog set_faults set_trace w_faults
       w_trace fputs_stderr set_stderr].
  destruct Hbad as [Hf|Hn].
  - rewrite Hf. unfold insist_fd, insist, bind, modify, c_exit.
    cbn [is_some negb]. unfold fflush_fp. cbn [fp set_stderr set_trace
      set_faults set_fp fputs_stderr].
    eexists. split; [reflexivity|].
      split; [reflexivity|]. split; [reflexivity|]. split; [|reflexivity].
      cbn [w_stderr fputs_stderr set_stderr set_trace set_faults set_fp
           set_verbosity set_prog prog w_strerror].
      rewrite append_assoc. reflexivity.
  - destruct (fault_now w).
    + unfold insist_fd, insist, bind, modify, c_exit.
      cbn [is_some negb]. unfold fflush_fp. cbn [fp set_stderr set_trace
        set_faults set_fp fputs_stderr].
      eexists. split; [reflexivity|].
      split; [reflexivity|]. split; [reflexivity|]. split; [|reflexivity].
      cbn [w_stderr fputs_stderr set_stderr set_trace set_faults set_fp
           set_verbosity set_prog prog w_strerror].
      rewrite append_assoc. reflexivity.
    + rewrite Hn. unfold insist_fd, insist, bind, modify, c_exit.
      cbn [is_some negb]. unfold fflush_fp. cbn [fp set_stderr set_trace
        set_faults set_fp fputs_stderr].
      eexists. split; [reflexivity|].
      split; [reflexivity|]. split; [reflexivity|]. split; [|reflexivity].
      cbn [w_stderr fputs_stderr set_stderr set_trace set_faults set_fp
           set_verbosity set_prog prog w_strerror].
      rewrite append_assoc. reflexivity.
Qed.

Lemma unopenable_watch_directory_is_fatal_witness :
  exists w',
    main Scenario.walk Scenario.shell Scenario.glibc_message
      ["pmash"; "-c"; "make"; "-w"; "gone,."] Scenario.world0 =
      Exit AtInsist EXIT_FAILURE w' /\
    w_trace w' = (w_trace Scenario.world0 ++ [EvOpen "gone" false])%list /\
    w_fs w' = w_fs Scenario.world0 /\
    w_stderr w' =
      w_stderr Scenario.world0 ++
      getopt_diagnostics Scenario.glibc_message
        (hd EmptyString ["pmash"; "-c"; "make"; "-w"; "gone,."])
        (getopt_results ["pmash"; "-c"; "make"; "-w"; "gone,."]) ++
      program_name ["pmash"; "-c"; "make"; "-w"; "gone,."] ++ ": Error: " ++
      "gone" ++ ": " ++ w_strerror Scenario.world0 ++ newline /\
    w_stdout w' = w_stdout Scenario.world0.
Proof.
  apply (unopenable_watch_directory_is_fatal Scenario.walk Scenario.shell
           Scenario.glibc_message
           ["pmash"; "-c"; "make"; "-w"; "gone,."] Scenario.world0
           "make" "gone" ["."]).
  - reflexivity.
  - reflexivity.
  - reflexivity.
  - vm_compute. reflexivity.
  - right. vm_compute. reflexivity.
Defined.

(** ** The echo of the invocation *)

Lemma echo_args_line : forall args w,
  echo_args args w = Ret tt (fputs_stderr (echo_line args) w).
Proof.
  induction args as [|a rest IH]; intros w.
  - cbn [echo_args echo_line]. rewrite fputs_stderr_nil. reflexivity.
  - cbn [echo_args echo_line]. unfold bind, modify, ret, echo_word.
    destruct (strstr a " "); destruct rest as [|b rest'];
      rewrite IH, ?fputs_stderr_twice, ?fputs_stderr_nil;
      cbn [append]; rewrite ?append_assoc, ?append_nil_r; reflexivity.
Qed.

(** X15.  In a quiet run (verbosity zero and [PMASH_VERBOSITY] unset) the
    command goes to the shell as given and nothing is echoed.  Otherwise
    the command is prefixed with [set -x; ] and the invocation is echoed on
    [stderr] after [++ ], an argument holding a space between double
    quotes; this step never fails and changes nothing but [stderr]. *)
Theorem trace_command_semantics :
  forall (argv : list string) (command : string) (w : world),
    trace_command argv command w =
    if negb (verbosity w =? 0) || is_some (w_pmash_verbosity w)
    then Ret ("set -x; " ++ command)
             (fputs_stderr ("++ " ++ echo_line argv ++ newline) w)
    else Ret command w.
Proof.
  intros argv command w. unfold trace_command, bind, gets.
  destruct (negb (verbosity w =? 0) || is_some (w_pmash_verbosity w));
    [|reflexivity].
  unfold modify. rewrite echo_args_line.
  rewrite of_nat_not_m1. cbn [negb insist]. unfold ret.
  rewrite !fputs_stderr_twice. rewrite ?append_assoc. reflexivity.
Qed.

(** A verbose run echoes [argv] as [getopt_long] has left it, the options
    first: [pmash x -V -c "cat input.txt > /dev/null" y]. *)
Example verbose_echo_shows_permuted_argv :
  w_stderr
    (result_world
       (main Scenario.walk Scenario.shell Scenario.glibc_message
          ["../pmash"; "x"; "-V"; "-c"; "cat input.txt > /dev/null"; "y"]
          Scenario.world0)) =
    "++ ../pmash -V -c " ++ dquote ++ "cat input.txt > /dev/null " ++ dquote
    ++ "x y" ++ newline.
Proof. vm_compute. reflexivity. Qed.

(** ** The program name *)

Lemma strrchr_split : forall s c r,
  strrchr s c = Some r ->
  exists pre r', s = pre ++ r /\ r = String c r' /\ strrchr r' c = None.
Proof.
  induction s as [|d s IH]; intros c r H; [discriminate H|].
  cbn [strrchr] in H.
  destruct (strrchr s c) as [r0|] eqn:E.
  - inversion H; subst r0.
    destruct (IH c r E) as (pre & r' & Hs & Hr & Hn).
    exists (String d pre), r'. cbn [append]. rewrite <- Hs. auto.
  - destruct (Ascii.eqb_spec d c) as [->|]; [|discriminate H].
    inversion H; subst r.
    exists EmptyString, s. auto.
Qed.

(** X16.  The name the program gives itself in its messages is the last
    path component of [argv[0]]: it holds no slash, and [argv[0]] is that
    name, alone or after a prefix that ends with a slash. *)
Theorem program_name_is_last_component :
  forall (argv : list string),
    strrchr (program_name argv) "/" = None /\
    (hd EmptyString argv = program_name argv \/
     exists dir, hd EmptyString argv = (dir ++ "/") ++ program_name argv).
Proof.
  intros argv. unfold program_name.
  destruct (strrchr (hd EmptyString argv) "/") as [r|] eqn:E.
  - destruct (strrchr_split _ _ _ E) as (pre & r' & Hs & Hr & Hn).
    subst r. cbn [string_skip]. split; [exact Hn|].
    right. exists pre. rewrite Hs. rewrite append_assoc. reflexivity.
  - split; [exact E|]. left. reflexivity.
Qed.

(** ** The order on entries *)

Lemma uchar_inj : forall c d, uchar c = uchar d -> c = d.
Proof.
  intros c d H. unfold uchar in H. apply N2Z.inj in H.
  rewrite <- (ascii_N_embedding c), <- (ascii_N_embedding d). now rewrite H.
Qed.

Lemma strcmp_zero_eq : forall a b,
  no_nul a = true -> no_nul b = true -> strcmp a b = 0 -> a = b.
Proof.
  induction a as [|c a IH]; intros [|d b] Ha Hb H; cbn [strcmp no_nul] in *.
  - reflexivity.
  - apply andb_prop in Hb. destruct Hb as [Hd _].
    apply negb_true_iff, Z.eqb_neq in Hd. lia.
  - apply andb_prop in Ha. destruct Ha as [Hc _].
    apply negb_true_iff, Z.eqb_neq in Hc. lia.
  - apply andb_prop in Ha. destruct Ha as [Hc Ha].
    apply andb_prop in Hb. destruct Hb as [Hd Hb].
    destruct (Z.eqb_spec (uchar c) (uchar d)) as [E|N]; [|lia].
    rewrite (proj1 (negb_true_iff _) Hc) in H.
    apply uchar_inj in E. subst d. f_equal. apply IH; assumption.
Qed.

(** X17.  [pathcmp] orders entries by their paths alone, as [tsearch]
    requires of its comparison: an entry compares equal to itself, the
    comparison read the other way round has the opposite sign, less-than is
    transitive, entries that compare equal compare alike with any third,
    and two entries compare equal only if their paths are the same
    string. *)
Theorem pathcmp_orders_by_path :
  forall (a b c : pathentry_s),
    pathcmp a a = 0 /\
    pathcmp b a = - pathcmp a b /\
    (pathcmp a b < 0 -> pathcmp b c < 0 -> pathcmp a c < 0) /\
    (pathcmp a b = 0 -> pathcmp a c = pathcmp b c) /\
    (no_nul (path a) = true -> no_nul (path b) = true ->
     pathcmp a b = 0 -> path a = path b).
Proof.
  intros a b c. unfold pathcmp.
  split; [apply strcmp_refl|].
  split; [apply strcmp_opp|].
  split; [apply strcmp_trans|].
  split; [apply strcmp_eq_compat|].
  apply strcmp_zero_eq.
Qed.

(** ** Looking a snapshot up again *)

Lemma tfind_tsearch_all : forall keys t key,
  tfind pathcmp key (tsearch_all pathcmp keys t) =
  match tfind pathcmp key t with
  | Some x => Some x
  | None => find (fun k => pathcmp key k =? 0) keys
  end.
Proof.
  induction keys as [|k keys IH]; intros t key.
  - cbn. destruct (tfind pathcmp key t); reflexivity.
  - unfold tsearch_all in *. cbn [fold_left find]. rewrite IH.
    rewrite (tfind_tsearch _ pathcmp pathcmp_eq_compat).
    destruct (tfind pathcmp key t); [reflexivity|].
    destruct (pathcmp key k =? 0); reflexivity.
Qed.

(** X18.  The snapshot store gives back what the pre-run walk put in: for
    a file the walk recorded whose path no differently recorded file of
    the walk shares, the lookup the post-run callback makes for that path,
    whatever the file's later times, finds the file's pre-run entry, with
    the forced access time and the original modification time. *)
Theorem snapshot_is_found_again :
  forall (es : list ftw_entry) (w w' : world) (r : Z) (e : ftw_entry)
         (sb' : stat),
    tree1 w = TNil ->
    nftw_entries es nftw_pre_callback w = Ret r w' ->
    In e es ->
    recorded e = true ->
    (forall e', In e' es -> recorded e' = true ->
       strcmp (skip_dot_slash (ftw_fpath e)) (skip_dot_slash (ftw_fpath e')) = 0 ->
       pre_entry_of e' = pre_entry_of e) ->
    tfind pathcmp (post_entry (skip_dot_slash (ftw_fpath e)) sb') (tree1 w') =
      Some (pre_entry_of e) /\
    merged_entry (tree1 w') (skip_dot_slash (ftw_fpath e)) sb' =
      mkPathentry (skip_dot_slash (ftw_fpath e))
        (mkTimespec (wrap_long (st_mtime (ftw_sb e) - 1)) 0, st_mtim (ftw_sb e))
        (st_atim sb', st_mtim sb').
Proof.
  intros es w w' r e sb' Hnil Hrun Hin Hrec Huniq.
  assert (Hfind :
    tfind pathcmp (post_entry (skip_dot_slash (ftw_fpath e)) sb') (tree1 w') =
    Some (pre_entry_of e)).
  { rewrite (pre_walk_tree1 _ _ _ _ Hrun), Hnil, tfind_tsearch_all.
    cbn [tfind].
    destruct (find (fun k => pathcmp (post_entry (skip_dot_slash (ftw_fpath e)) sb') k =? 0)
                (pre_entries es)) as [k|] eqn:Ef.
    - apply find_some in Ef. destruct Ef as [Hk Hz].
      unfold pre_entries in Hk. apply in_map_iff in Hk.
      destruct Hk as (e' & <- & He'). apply filter_In in He'.
      destruct He' as [Hin' Hrec'].
      f_equal. apply Huniq; [exact Hin'|exact Hrec'|].
      apply Z.eqb_eq in Hz. exact Hz.
    - exfalso.
      assert (Hk : In (pre_entry_of e) (pre_entries es)).
      { unfold pre_entries. apply in_map. apply filter_In. split; assumption. }
      pose proof (find_none _ _ Ef _ Hk) as Hz. cbn beta in Hz.
      apply Z.eqb_neq in Hz. apply Hz.
      unfold pathcmp, pre_entry_of. cbn [path post_entry pre_entry set_path
        set_times1 set_times2 calloc_pathentry].
      apply strcmp_refl. }
  split; [exact Hfind|].
  rewrite (merged_entry_found _ _ _ _ Hfind).
  unfold pre_entry_of, pre_entry. destruct (ftw_sb e) as [a [ms mn] sz].
  reflexivity.
Qed.

Lemma snapshot_is_found_again_witness :
  tfind pathcmp
    (post_entry
       (skip_dot_slash
          (ftw_fpath (mkFtw "./input.txt" (stat_of Scenario.input_file) FTW_F)))
       fresh_stat)
    (tree1 Scenario.recorded_world) =
    Some (pre_entry_of (mkFtw "./input.txt" (stat_of Scenario.input_file) FTW_F)) /\
  merged_entry (tree1 Scenario.recorded_world)
    (skip_dot_slash
       (ftw_fpath (mkFtw "./input.txt" (stat_of Scenario.input_file) FTW_F)))
    fresh_stat =
    mkPathentry
      (skip_dot_slash
         (ftw_fpath (mkFtw "./input.txt" (stat_of Scenario.input_file) FTW_F)))
      (mkTimespec
         (wrap_long
            (st_mtime
               (ftw_sb (mkFtw "./input.txt" (stat_of Scenario.input_file) FTW_F))
             - 1)) 0,
       st_mtim (ftw_sb (mkFtw "./input.txt" (stat_of Scenario.input_file) FTW_F)))
      (st_atim fresh_stat, st_mtim fresh_stat).
Proof.
  apply (snapshot_is_found_again
           [mkFtw "./gone.txt" (stat_of Scenario.gone_file) FTW_F;
            mkFtw "./input.txt" (stat_of Scenario.input_file) FTW_F]
           (set_fs (fs_set "gone.txt" Scenario.gone_file Scenario.files)
              Scenario.world0)
           Scenario.recorded_world 0
           (mkFtw "./input.txt" (stat_of Scenario.input_file) FTW_F)
           fresh_stat).
  - reflexivity.
  - vm_compute. reflexivity.
  - right. left. reflexivity.
  - vm_compute. reflexivity.
  - intros e' [<-|[<-|[]]] _ H.
    + vm_compute in H. discriminate H.
    + reflexivity.
Defined.

(** ** Walks that fail *)

Lemma fflush_fp_quiet : forall w,
  tree1 (fflush_fp w) = tree1 w /\ tree2 (fflush_fp w) = tree2 w /\
  w_trace (fflush_fp w) = w_trace w /\ w_stderr (fflush_fp w) = w_stderr w /\
  w_stdout (fflush_fp w) = w_stdout w.
Proof.
  intros w. unfold fflush_fp.
  destruct (fp w); [repeat split; reflexivity..|].
  destruct (w_fs w name); [|repeat split; reflexivity].
  destruct (String.length (fp_buf w) =? 0)%nat; repeat split; reflexivity.
Qed.

Lemma pre_walk_app : forall es1 es2 w r w1,
  nftw_entries es1 nftw_pre_callback w = Ret r w1 ->
  nftw_entries (es1 ++ es2) nftw_pre_callback w =
  nftw_entries es2 nftw_pre_callback w1.
Proof.
  induction es1 as [|a es1 IH]; intros es2 w r w1 H.
  - cbn in H. inversion H. reflexivity.
  - cbn [nftw_entries app] in *. unfold bind in *.
    destruct (nftw_pre_callback (ftw_fpath a) (ftw_sb a) (ftw_tflag a) w)
      as [r0 w0|site st w0] eqn:E; [|discriminate H].
    destruct (pre_callback_tree1 _ _ _ _ _ _ E) as [-> _].
    cbn [Z.eqb negb] in *. apply (IH es2 w0 r w1 H).
Qed.

(** X19.  The pre-run walk stops at the first recorded file whose times
    cannot be set (the call fails, or the file is no longer there): the
    process ends in [insist] with the failure status and a message naming
    the file, the failed [utimensat] is the last call made, and neither
    that file nor any entry after it enters the snapshot store. *)
Theorem unsettable_file_stops_the_pre_walk :
  forall (es1 es2 : list ftw_entry) (e : ftw_entry) (w w1 : world) (r : Z),
    nftw_entries es1 nftw_pre_callback w = Ret r w1 ->
    recorded e = true ->
    (fault_now w1 = true \/ w_fs w1 (skip_dot_slash (ftw_fpath e)) = None) ->
    exists w',
      nftw_entries (es1 ++ e :: es2) nftw_pre_callback w =
        Exit AtInsist EXIT_FAILURE w' /\
      tree1 w' = tree1 w1 /\
      w_trace w' =
        (w_trace w1 ++
         [EvUtimens (skip_dot_slash (ftw_fpath e)) (times1 (pre_entry_of e))
            false])%list /\
      w_stderr w' =
        w_stderr w1 ++ prog w1 ++ ": Error: " ++ skip_dot_slash (ftw_fpath e)
          ++ ": " ++ w_strerror w1 ++ newline.
Proof.
  intros es1 es2 e w w1 r Hrun Hrec Hbad.
  rewrite (pre_walk_app _ (e :: es2) _ _ _ Hrun).
  cbn [nftw_entries]. unfold bind at 1, nftw_pre_callback.
  unfold recorded in Hrec. apply andb_prop in Hrec. destruct Hrec as [Hf Hx].
  rewrite Hf. apply negb_true_iff in Hx. rewrite Hx. cbn [negb].
  unfold bind at 1 2 3 4, sys_utimensat, syscall.
  assert (Hcall :
    (if fault_now w1
     then (-1, tick w1)
     else
       match w_fs (tick w1) (skip_dot_slash (ftw_fpath e)) with
       | Some f =>
           (0,
            set_fs
              (fs_set (skip_dot_slash (ftw_fpath e))
                 (mkFile (f_data f)
                    (apply_utime
                       (fst (times1 (pre_entry (skip_dot_slash (ftw_fpath e))
                                       (ftw_sb e))))
                       (w_now (tick w1)) (f_atim f))
                    (apply_utime
                       (snd (times1 (pre_entry (skip_dot_slash (ftw_fpath e))
                                       (ftw_sb e))))
                       (w_now (tick w1)) (f_mtim f)))
                 (w_fs (tick w1))) (tick w1))
       | None => (-1, tick w1)
       end) = (-1, tick w1)).
  { destruct Hbad as [Hq|Hn]; [rewrite Hq; reflexivity|].
    change (w_fs (tick w1)) with (w_fs w1). rewrite Hn.
    destruct (fault_now w1); reflexivity. }
  rewrite Hcall. cbn [Z.eqb negb insist].
  unfold bind, modify, c_exit.
  eexists. split; [reflexivity|].
  match goal with
  | |- context [fflush_fp ?W] =>
      destruct (fflush_fp_quiet W) as (H1 & _ & H3 & H4 & _)
  end.
  rewrite H1, H3, H4. repeat split; reflexivity.
Qed.

Lemma unsettable_file_stops_the_pre_walk_witness :
  exists w',
    nftw_entries
      ([mkFtw "./gone.txt" (stat_of Scenario.gone_file) FTW_F;
        mkFtw "./input.txt" (stat_of Scenario.input_file) FTW_F] ++
       mkFtw "./missing.txt" (stat_of Scenario.input_file) FTW_F ::
       [mkFtw "./unused.txt" (stat_of Scenario.unused_file) FTW_F])
      nftw_pre_callback
      (set_fs (fs_set "gone.txt" Scenario.gone_file Scenario.files)
         Scenario.world0) =
      Exit AtInsist EXIT_FAILURE w' /\
    tree1 w' = tree1 Scenario.recorded_world /\
    w_trace w' =
      (w_trace Scenario.recorded_world ++
       [EvUtimens
          (skip_dot_slash
             (ftw_fpath (mkFtw "./missing.txt" (stat_of Scenario.input_file) FTW_F)))
          (times1
             (pre_entry_of
                (mkFtw "./missing.txt" (stat_of Scenario.input_file) FTW_F)))
          false])%list /\
    w_stderr w' =
      w_stderr Scenario.recorded_world ++ prog Scenario.recorded_world ++
      ": Error: " ++
      skip_dot_slash
        (ftw_fpath (mkFtw "./missing.txt" (stat_of Scenario.input_file) FTW_F))
      ++ ": " ++ w_strerror Scenario.recorded_world ++ newline.
Proof.
  apply (unsettable_file_stops_the_pre_walk
           [mkFtw "./gone.txt" (stat_of Scenario.gone_file) FTW_F;
            mkFtw "./input.txt" (stat_of Scenario.input_file) FTW_F]
           [mkFtw "./unused.txt" (stat_of Scenario.unused_file) FTW_F]
           (mkFtw "./missing.txt" (stat_of Scenario.input_file) FTW_F)
           (set_fs (fs_set "gone.txt" Scenario.gone_file Scenario.files)
              Scenario.world0)
           Scenario.recorded_world 0).
  - vm_compute. reflexivity.
  - vm_compute. reflexivity.
  - right. vm_compute. reflexivity.
Defined.

(** X20.  When the post-run walk of the first watch directory fails, the
    run ends in [insist] with the failure status and a message naming the
    directory, whatever status the run had so far: nothing is classified,
    so [stdout] and the files are as they were and no list is written. *)
Theorem failed_post_walk_reports_nothing :
  forall (walk_tree : filesys -> string -> option (list ftw_entry))
         (o : options) (rc : Z) (w : world) (dir : string)
         (dirs : list string),
    strtok_all (watchdirs o) "," = dir :: dirs ->
    (fault_now w = true \/ walk_tree (w_fs w) dir = None) ->
    fp_buf w = EmptyString ->
    exists w',
      walk_and_report walk_tree o rc w = Exit AtInsist EXIT_FAILURE w' /\
      w_stdout w' = w_stdout w /\
      w_fs w' = w_fs w /\
      tree2 w' = tree2 w /\
      w_trace w' = (w_trace w ++ [EvNftw dir false])%list /\
      w_stderr w' =
        w_stderr w ++ prog w ++ ": Error: " ++ dir ++ ": " ++ w_strerror w
          ++ newline.
Proof.
  intros walk_tree o rc w dir dirs Hw Hbad Hbuf.
  unfold walk_and_report. rewrite Hw. cbn [for_each].
  unfold bind at 1 2. unfold post_walk_dir, nftw. unfold bind at 1 2.
  unfold syscall.
  assert (Hcall :
    (if fault_now w then (@None (list ftw_entry), tick w)
     else (walk_tree (w_fs (tick w)) dir, tick w)) = (None, tick w)).
  { destruct Hbad as [Hq|Hn]; [rewrite Hq; reflexivity|].
    change (w_fs (tick w)) with (w_fs w). rewrite Hn.
    destruct (fault_now w); reflexivity. }
  rewrite Hcall. cbn [is_some]. unfold ret. cbn [Z.eqb Pos.eqb negb insist].
  unfold bind, modify, c_exit.
  rewrite fflush_fp_empty by exact Hbuf.
  eexists. split; [reflexivity|]. repeat split; reflexivity.
Qed.

Lemma failed_post_walk_reports_nothing_witness :
  exists w',
    walk_and_report Scenario.walk (mkOptions (Some "make") None "gone,.")
      EXIT_SUCCESS Scenario.world0 = Exit AtInsist EXIT_FAILURE w' /\
    w_stdout w' = w_stdout Scenario.world0 /\
    w_fs w' = w_fs Scenario.world0 /\
    tree2 w' = tree2 Scenario.world0 /\
    w_trace w' = (w_trace Scenario.world0 ++ [EvNftw "gone" false])%list /\
    w_stderr w' =
      w_stderr Scenario.world0 ++ prog Scenario.world0 ++ ": Error: " ++
      "gone" ++ ": " ++ w_strerror Scenario.world0 ++ newline.
Proof.
  apply (failed_post_walk_reports_nothing Scenario.walk
           (mkOptions (Some "make") None "gone,.") EXIT_SUCCESS
           Scenario.world0 "gone" ["."]).
  - vm_compute. reflexivity.
  - right. vm_compute. reflexivity.
  - reflexivity.
Defined.

(** ** A run that watches nothing *)

(** X21.  When the watch list holds no directory (it is empty or made of
    commas only), a quiet [main] makes one call, the command itself:
    nothing is probed or walked, nothing is listed on [stdout], [stderr]
    gets nothing but the messages of [getopt_long], if any, and the run
    ends in [main] with the failure status exactly when the command's
    status is not zero. *)
Theorem empty_watch_list_only_runs_the_command :
  forall (walk_tree : filesys -> string -> option (list ftw_entry))
         (shell : string -> filesys -> timespec -> Z * filesys * timespec)
         (message : string -> getopt_error -> string)
         (argv : list string) (w : world) (command : string),
    has_opt "h" (getopt_results argv) = false ->
    last_arg "c" (getopt_results argv) = Some command ->
    last_arg "o" (getopt_results argv) = None ->
    strtok_all
      (match last_arg "w" (getopt_results argv) with
       | Some a => a
       | None => "."
       end) "," = [] ->
    count_opt "V" (getopt_results argv) = 0%nat ->
    verbosity w = 0 ->
    w_pmash_verbosity w = None ->
    tree2 w = TNil ->
    exists w',
      main walk_tree shell message argv w =
        Exit AtMain
          (if fst (fst (shell command (w_fs w) (w_now w))) =? 0
           then EXIT_SUCCESS else EXIT_FAILURE) w' /\
      w_trace w' =
        (w_trace w ++
         [EvSystem command (fst (fst (shell command (w_fs w) (w_now w))))])%list /\
      w_fs w' = snd (fst (shell command (w_fs w) (w_now w))) /\
      w_stdout w' = w_stdout w /\
      w_stderr w' =
        w_stderr w ++
        getopt_diagnostics message (hd EmptyString argv) (getopt_results argv).
Proof.
  intros walk_tree shell message argv w command Hh Hc Ho Hw HV Hv He Ht.
  unfold main, bind, modify.
  rewrite (getopt_loop_no_help _ _ _ _ _ Hh).
  unfold options_of. cbn [cmdstr outfile watchdirs]. rewrite Hc, Ho, Hw, HV.
  destruct w as [fs now mount faults pid env err out errs trace pname t1 t2 strm buf v].
  cbn [verbosity w_pmash_verbosity tree2] in Hv, He, Ht. subst v env t2.
  cbn [for_each]. unfold ret, trace_command, bind, gets.
  cbn [verbosity w_pmash_verbosity set_fp set_verbosity set_prog
       fputs_stderr set_stderr
       Z.of_nat Z.add Z.eqb negb orb is_some].
  unfold ret, run_and_report, bind, system.
  cbn [w_fs w_now set_fp set_verbosity set_prog fputs_stderr set_stderr].
  destruct (shell command fs now) as [[status fs'] now'].
  cbn [fst snd].
  unfold walk_and_report. cbn [watchdirs outfile]. rewrite Hw.
  cbn [for_each]. unfold bind, ret, report, bind, modify, log.
  cbn [tree2 set_trace set_now set_fs w_trace].
  unfold twalk. cbn [twalk_from]. unfold c_exit, fflush_fp.
  cbn [fp].
  eexists. split.
  - destruct (status =? 0); reflexivity.
  - repeat split; reflexivity.
Qed.

Lemma empty_watch_list_only_runs_the_command_witness :
  exists w',
    main Scenario.walk Scenario.shell Scenario.glibc_message
      ["pmash"; "-c"; "make"; "-w"; ","] Scenario.world0 =
      Exit AtMain
        (if fst (fst (Scenario.shell "make" (w_fs Scenario.world0)
                        (w_now Scenario.world0))) =? 0
         then EXIT_SUCCESS else EXIT_FAILURE) w' /\
    w_trace w' =
      (w_trace Scenario.world0 ++
       [EvSystem "make"
          (fst (fst (Scenario.shell "make" (w_fs Scenario.world0)
                       (w_now Scenario.world0))))])%list /\
    w_fs w' =
      snd (fst (Scenario.shell "make" (w_fs Scenario.world0)
                  (w_now Scenario.world0))) /\
    w_stdout w' = w_stdout Scenario.world0 /\
    w_stderr w' =
      w_stderr Scenario.world0 ++
      getopt_diagnostics Scenario.glibc_message
        (hd EmptyString ["pmash"; "-c"; "make"; "-w"; ","])
        (getopt_results ["pmash"; "-c"; "make"; "-w"; ","]).
Proof.
  apply (empty_watch_list_only_runs_the_command Scenario.walk Scenario.shell
           Scenario.glibc_message
           ["pmash"; "-c"; "make"; "-w"; ","] Scenario.world0 "make").
  - reflexivity.
  - reflexivity.
  - reflexivity.
  - vm_compute. reflexivity.
  - reflexivity.
  - reflexivity.
  - reflexivity.
  - reflexivity.
Defined.

(** ** The option [-e] *)

Lemma keeps_ret : forall (A : Type) (a : A), keeps_verbosity (ret a).
Proof. intros A a w b w' H. inversion H; subst. split; reflexivity. Qed.

Lemma keeps_gets : forall (A : Type) (f : world -> A), keeps_verbosity (gets f).
Proof. intros A f w b w' H. inversion H; subst. split; reflexivity. Qed.

Lemma keeps_modify : forall f,
  (forall w, verbosity (f w) = verbosity w /\
             w_pmash_verbosity (f w) = w_pmash_verbosity w) ->
  keeps_verbosity (modify f).
Proof. intros f Hf w b w' H. inversion H; subst. apply Hf. Qed.

Lemma keeps_bind : forall (A B : Type) (c : M A) (k : A -> M B),
  keeps_verbosity c -> (forall a, keeps_verbosity (k a)) ->
  keeps_verbosity (bind c k).
Proof.
  intros A B c k Hc Hk w b w' H. unfold bind in H.
  destruct (c w) as [a w1|] eqn:E; [|discriminate H].
  destruct (Hc _ _ _ E) as [H1 H2]. destruct (Hk a _ _ _ H) as [H3 H4].
  split; congruence.
Qed.

Lemma keeps_insist : forall success term, keeps_verbosity (insist success term).
Proof.
  intros [|] term w b w' H; unfold insist in H; cbn [negb] in H.
  - inversion H; subst. split; reflexivity.
  - discriminate H.
Qed.

Lemma keeps_die : forall (A : Type) msg, keeps_verbosity (@die A msg).
Proof. intros A msg w b w' H. discriminate H. Qed.

Lemma keeps_syscall : forall (A : Type) (failure : A) body ev,
  (forall w, verbosity (snd (body w)) = verbosity w /\
             w_pmash_verbosity (snd (body w)) = w_pmash_verbosity w) ->
  keeps_verbosity (syscall failure body ev).
Proof.
  intros A failure body ev Hb w b w' H. unfold syscall in H.
  destruct (fault_now w).
  - inversion H; subst. split; reflexivity.
  - destruct (body (tick w)) as [a w1] eqn:E. inversion H; subst.
    pose proof (Hb (tick w)) as Hk. rewrite E in Hk. exact Hk.
Qed.

Ltac keeps_body :=
  apply keeps_syscall;
  let x := fresh "x" in
  intro x; try (destruct (w_fs x _)); split; reflexivity.

Lemma keeps_open_rdonly : forall n, keeps_verbosity (sys_open_rdonly n).
Proof. intro n. unfold sys_open_rdonly. keeps_body. Qed.

Lemma keeps_open_excl : forall n, keeps_verbosity (sys_open_excl n).
Proof. intro n. unfold sys_open_excl. keeps_body. Qed.

Lemma keeps_write : forall d buf, keeps_verbosity (sys_write d buf).
Proof. intros d buf. unfold sys_write. keeps_body. Qed.

Lemma keeps_stat : forall n, keeps_verbosity (sys_stat n).
Proof. intro n. unfold sys_stat. keeps_body. Qed.

Lemma keeps_utimensat : forall n t, keeps_verbosity (sys_utimensat n t).
Proof. intros n t. unfold sys_utimensat. keeps_body. Qed.

Lemma keeps_close : forall d, keeps_verbosity (sys_close d).
Proof. intro d. unfold sys_close. keeps_body. Qed.

Lemma keeps_read : forall d n, keeps_verbosity (sys_read d n).
Proof. intros d n. unfold sys_read. keeps_body. Qed.

Lemma keeps_unlink : forall n, keeps_verbosity (sys_unlink n).
Proof. intro n. unfold sys_unlink. keeps_body. Qed.

Ltac keeps_steps :=
  repeat first
    [ apply keeps_die
    | apply keeps_insist
    | apply keeps_ret
    | apply keeps_gets
    | apply keeps_bind; [|intro]
    | apply keeps_open_rdonly
    | apply keeps_open_excl
    | apply keeps_write
    | apply keeps_stat
    | apply keeps_utimensat
    | apply keeps_close
    | apply keeps_read
    | apply keeps_unlink ].

Lemma keeps_probe : forall dir, keeps_verbosity (probe_atime dir).
Proof.
  intro dir. unfold probe_atime, insist_fd, sys_fstat, sys_futimens.
  keeps_steps.
  match goal with |- keeps_verbosity (if ?c then _ else _) => destruct c end;
    keeps_steps.
Qed.

Lemma keeps_pre_callback : forall fpath sb tflag,
  keeps_verbosity (nftw_pre_callback fpath sb tflag).
Proof.
  intros fpath sb tflag. unfold nftw_pre_callback.
  destruct (negb (ftw_flag_eqb tflag FTW_F)); [apply keeps_ret|].
  destruct (excluded fpath); [apply keeps_ret|].
  keeps_steps.
  intros w b w' H.
  destruct (tsearch pathcmp (pre_entry (skip_dot_slash fpath) sb) (tree1 w)).
  inversion H; subst. split; reflexivity.
Qed.

Lemma keeps_nftw_entries : forall es,
  keeps_verbosity (nftw_entries es nftw_pre_callback).
Proof.
  induction es as [|e es IH]; cbn [nftw_entries]; [apply keeps_ret|].
  apply keeps_bind; [apply keeps_pre_callback|].
  intro r. destruct (negb (r =? 0)); [apply keeps_ret|exact IH].
Qed.

Lemma keeps_pre_walk : forall walk dir, keeps_verbosity (pre_walk walk dir).
Proof.
  intros walk dir. unfold pre_walk, nftw.
  apply keeps_bind; [apply keeps_probe|intro].
  apply keeps_bind; [|intro; apply keeps_insist].
  apply keeps_bind.
  - apply keeps_syscall. intro w. split; reflexivity.
  - intros [es|]; [apply keeps_nftw_entries|apply keeps_ret].
Qed.

Lemma keeps_for_each : forall (A : Type) (l : list A) body,
  (forall a, keeps_verbosity (body a)) -> keeps_verbosity (for_each l body).
Proof.
  intros A l body Hb. induction l as [|a l IH]; cbn [for_each].
  - apply keeps_ret.
  - apply keeps_bind; [apply Hb|intro; exact IH].
Qed.

Lemma keeps_fopen : forall n, keeps_verbosity (fopen_w_fp n).
Proof.
  intro n. unfold fopen_w_fp.
  apply keeps_bind; [keeps_body|intro ok].
  apply keeps_bind; [|intro; apply keeps_ret].
  apply keeps_modify. intro w. destruct ok; split; reflexivity.
Qed.

(** Continuations that agree where the first part returns. *)
Lemma bind_agree : forall (A B : Type) (c : M A) (k1 k2 : A -> M B) w,
  (forall a w', c w = Ret a w' -> k1 a w' = k2 a w') ->
  bind c k1 w = bind c k2 w.
Proof.
  intros A B c k1 k2 w H. unfold bind.
  destruct (c w) as [a w'|]; [apply H; reflexivity|reflexivity].
Qed.

Lemma bind_cong : forall (A B : Type) (c1 c2 : M A) (k1 k2 : A -> M B) w,
  c1 w = c2 w ->
  (forall a w', c2 w = Ret a w' -> k1 a w' = k2 a w') ->
  bind c1 k1 w = bind c2 k2 w.
Proof.
  intros A B c1 c2 k1 k2 w Hc H. unfold bind. rewrite Hc.
  destruct (c2 w) as [a w'|]; [apply H; reflexivity|reflexivity].
Qed.

(** In a quiet process nothing is echoed, whatever [argv] is. *)
Lemma trace_command_quiet : forall argv command w,
  verbosity w = 0 -> w_pmash_verbosity w = None ->
  trace_command argv command w = Ret command w.
Proof.
  intros argv command w Hv He. unfold trace_command, bind, gets.
  rewrite Hv, He. reflexivity.
Qed.

Lemma getopt_results_errexit : forall argv0 flag rest,
  flag = "-e" \/ flag = "--errexit" ->
  getopt_results (argv0 :: flag :: rest) =
  mkGetopt "e" EmptyString None :: getopt_results (argv0 :: rest).
Proof.
  intros argv0 flag rest [->| ->]; unfold getopt_results;
    cbn [tl getopt_scan];
    [change (String.eqb "-e" "--") with false;
     change (is_nonoption "-e") with false;
     change (is_prefix "--" "-e") with false;
     change (short_options short_opts (string_skip 1 "-e"))
       with ([mkGetopt "e" EmptyString None],
             @None (ascii * getopt_error))
    |change (String.eqb "--errexit" "--") with false;
     change (is_nonoption "--errexit") with false;
     change (is_prefix "--" "--errexit") with true;
     change (long_option_of long_opts (string_skip 2 "--errexit"))
       with ([mkGetopt "e" EmptyString None],
             @None (ascii * getopt_error))];
    cbv iota beta;
    destruct (getopt_scan short_opts long_opts None rest) as [rs [os ns]];
    reflexivity.
Qed.

(** X10.  The option [-e] (or [--errexit]), put first on the command
    line, is accepted and does nothing: a quiet run with it is the run
    without it, call for call, with the same output, the same final state
    and the same exit status. *)
Theorem errexit_option_is_ignored :
  forall (walk_tree : filesys -> string -> option (list ftw_entry))
         (shell : string -> filesys -> timespec -> Z * filesys * timespec)
         (message : string -> getopt_error -> string)
         (argv0 flag : string) (rest : list string) (w : world),
    flag = "-e" \/ flag = "--errexit" ->
    count_opt "V" (getopt_results (argv0 :: rest)) = 0%nat ->
    verbosity w = 0 ->
    w_pmash_verbosity w = None ->
    main walk_tree shell message (argv0 :: flag :: rest) w =
    main walk_tree shell message (argv0 :: rest) w.
Proof.
  intros walk_tree shell message argv0 flag rest w Hflag HV Hv He.
  unfold main. cbn [hd].
  rewrite (getopt_results_errexit argv0 flag rest Hflag).
  apply bind_agree. intros [] w1 H1. inversion H1; subst w1. clear H1.
  apply bind_cong.
  { rewrite (getopt_loop_step message argv0 (mkGetopt "e" EmptyString None)
               _ _ _ eq_refl).
    f_equal. cbn. rewrite Z.add_0_r, fputs_stderr_nil.
    destruct w; reflexivity. }
  intros o w2 H2.
  destruct (has_opt "h" (getopt_results (argv0 :: rest))) eqn:Hh.
  { rewrite (getopt_loop_help _ _ _ _ _ Hh), usage_exit in H2.
    discriminate H2. }
  rewrite (getopt_loop_no_help _ _ _ _ _ Hh) in H2.
  inversion H2; subst o w2. clear H2.
  destruct (cmdstr (options_of (getopt_results (argv0 :: rest))
                      (mkOptions None None "."))) as [command|];
    [|reflexivity].
  apply bind_agree. intros [] w3 H3.
  apply bind_agree. intros [] w4 H4.
  assert (K3 : verbosity w3 = 0 /\ w_pmash_verbosity w3 = None).
  { assert (K : keeps_verbosity
                  (match outfile (options_of (getopt_results (argv0 :: rest))
                                    (mkOptions None None ".")) with
                   | Some name => ok <- fopen_w_fp name ;; insist ok name
                   | None => modify (set_fp Stdout)
                   end)).
    { destruct (outfile _).
      - apply keeps_bind; [apply keeps_fopen|intro; apply keeps_insist].
      - apply keeps_modify. intro x. split; reflexivity. }
    destruct (K _ _ _ H3) as [Ka Kb]. rewrite Ka, Kb.
    cbn [verbosity w_pmash_verbosity fputs_stderr set_stderr set_verbosity
         set_prog].
    rewrite HV, Hv. split; [reflexivity|exact He]. }
  assert (K4 : verbosity w4 = 0 /\ w_pmash_verbosity w4 = None).
  { destruct (keeps_for_each _ _ _ (keeps_pre_walk walk_tree) _ _ _ H4)
      as [Ka Kb].
    rewrite Ka, Kb. exact K3. }
  destruct K4 as [Kv Ke].
  unfold bind. rewrite !(trace_command_quiet _ _ _ Kv Ke). reflexivity.
Qed.

Lemma errexit_option_is_ignored_witness :
  main Scenario.walk Scenario.shell Scenario.glibc_message
    ("pmash" :: "-e" :: ["-c"; "cat input.txt > output.txt"; "-o"; "deps"])
    Scenario.world0 =
  main Scenario.walk Scenario.shell Scenario.glibc_message
    ("pmash" :: ["-c"; "cat input.txt > output.txt"; "-o"; "deps"])
    Scenario.world0.
Proof.
  apply (errexit_option_is_ignored Scenario.walk Scenario.shell
           Scenario.glibc_message "pmash" "-e"
           ["-c"; "cat input.txt > output.txt"; "-o"; "deps"] Scenario.world0).
  - left. reflexivity.
  - reflexivity.
  - reflexivity.
  - reflexivity.
Defined.
